(** * nanodesign: atomic model generation (converters/pdbcif)

    A shallow embedding of [utils.py], [atomic_types.py] and the
    [AtomicStructure] class of [atomic_structure.py], with the properties of
    the atomic model generation core stated over it.

    Conventions of the embedding.
    - Python [float]s and NumPy [float64] scalars are the real numbers [R]:
      the arithmetic is exact.  [math.acos] keeps its domain check (it raises
      [ValueError] outside [-1, 1]); NumPy division never raises.
    - Python [int]s are [Z]; list indexing follows Python (a negative index
      counts from the end, an index out of range raises [IndexError]).
    - A NumPy array of the shapes the module uses is either a 3x3 matrix, a
      3-vector, or the empty array that [AtomicStructureStrand.__init__]
      stores for a base whose frame is not set ([None] here).
    - A raised exception is the [Err] result; functions that mutate their
      arguments return the mutated objects next to the result, so that what
      was written before an exception stays visible.
    - Only [logger.warn] records are kept; [info] and [debug] lines are not
      modelled, and the logger level is taken above [DEBUG]. *)

From Stdlib Require Import List ZArith Lia Bool String Ascii DecimalString.
From Stdlib Require Import Reals Lra Psatz RNsatz.
Import ListNotations.

Set Implicit Arguments.

(** ** Exceptions and results *)

Inductive exn : Type :=
| IndexError
| ValueError
| KeyError
| FuelExhausted.

Inductive Res (A : Type) : Type :=
| Ok (a : A)
| Err (e : exn).

Arguments Ok {A} a.
Arguments Err {A} e.

Definition bind {A B : Type} (m : Res A) (k : A -> Res B) : Res B :=
  match m with
  | Ok a => k a
  | Err e => Err e
  end.

Notation "x <- m ;; k" := (bind m (fun x => k))
  (at level 61, m at next level, right associativity).
Notation "' p <- m ;; k" := (bind m (fun p => k))
  (at level 61, p pattern, m at next level, right associativity).

Definition is_ok {A : Type} (m : Res A) : bool :=
  match m with Ok _ => true | Err _ => false end.

(** ** Python lists *)

Definition len {A : Type} (l : list A) : Z := Z.of_nat (List.length l).

Arguments len : simpl never.

(** [l[i]]: negative indices count from the end. *)
Definition py_index {A : Type} (l : list A) (i : Z) : Res nat :=
  if (0 <=? i)%Z && (i <? len l)%Z then Ok (Z.to_nat i)
  else if (- len l <=? i)%Z && (i <? 0)%Z then Ok (Z.to_nat (len l + i))
  else Err IndexError.

Definition py_get {A : Type} (l : list A) (i : Z) : Res A :=
  k <- py_index l i ;;
  match nth_error l k with
  | Some a => Ok a
  | None => Err IndexError
  end.

Fixpoint set_nth {A : Type} (l : list A) (k : nat) (a : A) : list A :=
  match l, k with
  | [], _ => []
  | _ :: t, O => a :: t
  | h :: t, S k' => h :: set_nth t k' a
  end.

(** [l[i] = a] *)
Definition py_set {A : Type} (l : list A) (i : Z) (a : A) : Res (list A) :=
  k <- py_index l i ;;
  Ok (set_nth l k a).

(** [range(0, n)] *)
Definition range (n : Z) : list Z := map Z.of_nat (seq 0 (Z.to_nat n)).

(** ** 3-vectors and 3x3 matrices over the reals *)

Open Scope R_scope.

Record vec3 : Type := V3 { vx : R; vy : R; vz : R }.

Record mat3 : Type := M3 {
  m00 : R; m01 : R; m02 : R;
  m10 : R; m11 : R; m12 : R;
  m20 : R; m21 : R; m22 : R }.

Definition I3 : mat3 := M3 1 0 0 0 1 0 0 0 1.

(** [np.dot(A, B)] on 3x3 arrays *)
Definition mmul (A B : mat3) : mat3 :=
  M3 (m00 A * m00 B + m01 A * m10 B + m02 A * m20 B)
     (m00 A * m01 B + m01 A * m11 B + m02 A * m21 B)
     (m00 A * m02 B + m01 A * m12 B + m02 A * m22 B)
     (m10 A * m00 B + m11 A * m10 B + m12 A * m20 B)
     (m10 A * m01 B + m11 A * m11 B + m12 A * m21 B)
     (m10 A * m02 B + m11 A * m12 B + m12 A * m22 B)
     (m20 A * m00 B + m21 A * m10 B + m22 A * m20 B)
     (m20 A * m01 B + m21 A * m11 B + m22 A * m21 B)
     (m20 A * m02 B + m21 A * m12 B + m22 A * m22 B).

(** [A.T] *)
Definition mtrans (A : mat3) : mat3 :=
  M3 (m00 A) (m10 A) (m20 A)
     (m01 A) (m11 A) (m21 A)
     (m02 A) (m12 A) (m22 A).

(** [np.dot(A, v)] on a 3x3 array and a 3-vector *)
Definition mvec (A : mat3) (v : vec3) : vec3 :=
  V3 (m00 A * vx v + m01 A * vy v + m02 A * vz v)
     (m10 A * vx v + m11 A * vy v + m12 A * vz v)
     (m20 A * vx v + m21 A * vy v + m22 A * vz v).

Definition vadd (u v : vec3) : vec3 :=
  V3 (vx u + vx v) (vy u + vy v) (vz u + vz v).

(** [v * k] and [v / k] for a scalar [k] *)
Definition vscale (v : vec3) (k : R) : vec3 :=
  V3 (vx v * k) (vy v * k) (vz v * k).

Definition vdiv (v : vec3) (k : R) : vec3 :=
  V3 (vx v / k) (vy v / k) (vz v / k).

(** [np.linalg.norm(v)] *)
Definition vnorm (v : vec3) : R :=
  sqrt (vx v * vx v + vy v * vy v + vz v * vz v).

Definition mdet (A : mat3) : R :=
  m00 A * (m11 A * m22 A - m12 A * m21 A)
  - m01 A * (m10 A * m22 A - m12 A * m20 A)
  + m02 A * (m10 A * m21 A - m11 A * m20 A).

Definition mtrace (A : mat3) : R := m00 A + m11 A + m22 A.

(** Entry [(i, j)] of a matrix, rows and columns numbered 0, 1, 2. *)
Definition mentry (A : mat3) (i j : nat) : R :=
  match i, j with
  | 0%nat, 0%nat => m00 A | 0%nat, 1%nat => m01 A | 0%nat, _ => m02 A
  | 1%nat, 0%nat => m10 A | 1%nat, 1%nat => m11 A | 1%nat, _ => m12 A
  | _, 0%nat => m20 A | _, 1%nat => m21 A | _, _ => m22 A
  end.

(** Column [j] of a matrix. *)
Definition mcol (A : mat3) (j : nat) : vec3 :=
  V3 (mentry A 0 j) (mentry A 1 j) (mentry A 2 j).

Definition vopp (v : vec3) : vec3 := V3 (- vx v) (- vy v) (- vz v).

(** An orthonormal matrix of determinant +1. *)
Definition is_rotation (A : mat3) : Prop :=
  mmul A (mtrans A) = I3 /\ mdet A = 1.

(** NumPy arrays as the module holds them: [None] is the empty array
    ([np.empty(shape=(0, 0))], [np.empty(shape=(0))]). *)
Abbreviation ndarray2 := (option mat3) (only parsing).
Abbreviation ndarray1 := (option vec3) (only parsing).

(** [a.size == 0] *)
Definition size_is_0 {A : Type} (a : option A) : bool :=
  match a with None => true | Some _ => false end.

(** [np.dot] on two 2-d arrays: the inner dimensions must agree. *)
Definition np_dot (A B : ndarray2) : Res ndarray2 :=
  match A, B with
  | Some a, Some b => Ok (Some (mmul a b))
  | None, None => Ok None
  | _, _ => Err ValueError
  end.

Definition np_T (A : ndarray2) : ndarray2 := option_map mtrans A.

(** ** utils.py *)

Definition _Rx (deg : R) : mat3 :=
  let rad := PI * (deg / 180) in
  let c := cos rad in
  let s := sin rad in
  M3 1 0 0
     0 c (- s)
     0 s c.

Definition _Ry (deg : R) : mat3 :=
  let rad := PI * (deg / 180) in
  let c := cos rad in
  let s := sin rad in
  M3 c 0 s
     0 1 0
     (- s) 0 c.

(** Comparisons of floats as booleans. *)
Definition Rltb (x y : R) : bool := if Rlt_dec x y then true else false.
Definition Rgtb (x y : R) : bool := if Rgt_dec x y then true else false.
Definition Rleb (x y : R) : bool := if Rle_dec x y then true else false.

(** [math.acos]: a [ValueError] (math domain error) outside [-1, 1]. *)
Definition math_acos (x : R) : Res R :=
  if Rleb (-1) x && Rleb x 1 then Ok (acos x) else Err ValueError.

(** The axis of [_vrrotmat2vec] in the branch for an angle at 180 degrees. *)
Definition axis_at_pi (Rm : mat3) : vec3 :=
  let epsilon := 0.01 in
  let xx := (m00 Rm + 1) / 2 in
  let yy := (m11 Rm + 1) / 2 in
  let zz := (m22 Rm + 1) / 2 in
  let xy := (m01 Rm + m10 Rm) / 4 in
  let xz := (m02 Rm + m20 Rm) / 4 in
  let yz := (m12 Rm + m21 Rm) / 4 in
  if Rgtb xx yy && Rgtb xx zz then
    if Rltb xx epsilon then V3 0 0.7071 0.7071
    else let x := sqrt xx in V3 x (xy / x) (xz / x)
  else if Rgtb yy zz then
    if Rltb yy epsilon then V3 0.7071 0 0.7071
    else let y := sqrt yy in V3 (xy / y) y (yz / y)
  else
    if Rltb zz epsilon then V3 0.7071 0.7071 0
    else let z := sqrt zz in V3 (xz / z) (yz / z) z.

(** The axis of [_vrrotmat2vec] for a non-singular angle. *)
Definition axis_general (Rm : mat3) : vec3 :=
  let n := sqrt ((m21 Rm - m12 Rm) ^ 2 + (m02 Rm - m20 Rm) ^ 2
                 + (m10 Rm - m01 Rm) ^ 2) in
  V3 ((m21 Rm - m12 Rm) / n) ((m02 Rm - m20 Rm) / n) ((m10 Rm - m01 Rm) / n).

(** [_vrrotmat2vec] on a 3x3 array. *)
Definition vrrotmat2vec3 (Rm : mat3) : Res (vec3 * R) :=
  angle <- math_acos ((m00 Rm + m11 Rm + m22 Rm - 1) / 2) ;;
  if Rltb (Rabs angle) 0.0001 then Ok (V3 1 0 0, 0)
  else if Rltb (Rabs (angle - PI)) 0.0001 then Ok (axis_at_pi Rm, angle)
  else Ok (axis_general Rm, angle).

(** [_vrrotmat2vec]: reading [R[0, 0]] of an empty array is an
    [IndexError]. *)
Definition _vrrotmat2vec (Rm : ndarray2) : Res (vec3 * R) :=
  match Rm with
  | None => Err IndexError
  | Some M => vrrotmat2vec3 M
  end.

(** The matrix [M] that the self-check of [_vrrotmat2vec] rebuilds from the
    extracted axis and angle (the axis is used as it is). *)
Definition check_matrix (axis : vec3) (angle : R) : mat3 :=
  let x := vx axis in
  let y := vy axis in
  let z := vz axis in
  let c := cos angle in
  let s := sin angle in
  let t := 1 - c in
  M3 (t * x * x + c) (t * x * y - z * s) (t * x * z + y * s)
     (t * x * y + z * s) (t * y * y + c) (t * y * z - x * s)
     (t * x * z - y * s) (t * y * z + x * s) (t * z * z + c).

(** The differences [R[i, j] - M[i, j]] that the self-check prints as
    warnings, in the order of its two loops. *)
Definition check_warnings (Rm : mat3) (axis : vec3) (angle : R) : list R :=
  let M := check_matrix axis angle in
  flat_map (fun i =>
    flat_map (fun j =>
      let d := mentry Rm i j - mentry M i j in
      if Rgtb (Rabs d) 0.0001 then [d] else [])
      [0%nat; 1%nat; 2%nat])
    [0%nat; 1%nat; 2%nat].

Definition _vrrotvec2mat (axis : vec3) (theta : R) : mat3 :=
  let s := sin theta in
  let c := cos theta in
  let t := 1 - c in
  let n := vdiv axis (vnorm axis) in
  let x := vx n in
  let y := vy n in
  let z := vz n in
  M3 (t * x * x + c) (t * x * y - s * z) (t * x * z + s * y)
     (t * x * y + s * z) (t * y * y + c) (t * y * z - s * x)
     (t * x * z - s * y) (t * y * z + s * x) (t * z * z + c).

Close Scope R_scope.

(** ** State and exceptions together

    A method that mutates [self] or its arguments: the mutated state is
    returned with the result, also when the result is an exception. *)

Definition M (S A : Type) : Type := S -> Res A * S.

Definition ret {S A : Type} (a : A) : M S A := fun s => (Ok a, s).

Definition raise {S A : Type} (e : exn) : M S A := fun s => (Err e, s).

Definition sbind {S A B : Type} (m : M S A) (k : A -> M S B) : M S B :=
  fun s =>
    match m s with
    | (Ok a, s') => k a s'
    | (Err e, s') => (Err e, s')
    end.

Definition lift {S A : Type} (r : Res A) : M S A := fun s => (r, s).

Definition get {S : Type} : M S S := fun s => (Ok s, s).

Definition put {S : Type} (s : S) : M S unit := fun _ => (Ok tt, s).

Notation "x <~ m ;; k" := (sbind m (fun x => k))
  (at level 61, m at next level, right associativity).
Notation "m ;;; k" := (sbind m (fun _ => k))
  (at level 61, right associativity).

(** [for x in xs: body(x)] *)
Fixpoint for_in {S X : Type} (xs : list X) (body : X -> M S unit) : M S unit :=
  match xs with
  | [] => ret tt
  | x :: xs' => body x ;;; for_in xs' body
  end.

(** ** Strings *)

Open Scope string_scope.

Definition upper_ascii (c : ascii) : ascii :=
  let n := nat_of_ascii c in
  if (97 <=? n)%nat && (n <=? 122)%nat then ascii_of_nat (n - 32) else c.

(** [s.upper()], on ASCII letters. *)
Fixpoint upper (s : string) : string :=
  match s with
  | EmptyString => EmptyString
  | String c s' => String (upper_ascii c) (upper s')
  end.

(** A [dict] with string keys, as an association list in insertion order. *)
Definition dict (V : Type) : Type := list (string * V).

Fixpoint dict_get {V : Type} (d : dict V) (k : string) : option V :=
  match d with
  | [] => None
  | (k', v) :: d' => if String.eqb k k' then Some v else dict_get d' k
  end.

(** [k in d] *)
Definition dict_mem {V : Type} (d : dict V) (k : string) : bool :=
  match dict_get d k with Some _ => true | None => false end.

(** [d[k]]: a missing key is a [KeyError]. *)
Definition dict_item {V : Type} (d : dict V) (k : string) : Res V :=
  match dict_get d k with Some v => Ok v | None => Err KeyError end.

(** ** atomic_types.py *)

Record Atom : Type := mkAtom {
  atom_id : Z;
  atom_name : string;
  res_name : string;
  chainID : string;
  res_seq_num : Z;
  coords : vec3;
  element : string }.

(** [Atom.dupe] *)
Definition dupe (a : Atom) : Atom :=
  mkAtom (atom_id a) (atom_name a) (res_name a) (chainID a) (res_seq_num a)
         (V3 (vx (coords a)) (vy (coords a)) (vz (coords a))) (element a).

Definition set_atom_id (a : Atom) (i : Z) : Atom :=
  mkAtom i (atom_name a) (res_name a) (chainID a) (res_seq_num a)
         (coords a) (element a).

Definition set_chainID (a : Atom) (c : string) : Atom :=
  mkAtom (atom_id a) (atom_name a) (res_name a) c (res_seq_num a)
         (coords a) (element a).

Definition set_res_seq_num (a : Atom) (n : Z) : Atom :=
  mkAtom (atom_id a) (atom_name a) (res_name a) (chainID a) n
         (coords a) (element a).

Definition set_coords (a : Atom) (v : vec3) : Atom :=
  mkAtom (atom_id a) (atom_name a) (res_name a) (chainID a) (res_seq_num a)
         v (element a).

(** [Molecule]: the atoms in the order they were added and the set of chain
    identifiers seen.  The [residues] index, which this module only writes,
    is left out. *)
Record Molecule : Type := mkMolecule {
  mol_id : Z;
  atoms : list Atom;
  chains : list string }.

Definition Molecule_init (model_id : Z) : Molecule :=
  mkMolecule model_id [] [].

(** [set.add] on a set held as a list without duplicates. *)
Definition set_add (c : string) (s : list string) : list string :=
  if existsb (String.eqb c) s then s else s ++ [c].

(** [Molecule.add_atom] *)
Definition add_atom (m : Molecule) (a : Atom) : Molecule :=
  mkMolecule (mol_id m) (atoms m ++ [a]) (set_add (chainID a) (chains m)).

(** ** The DNA structure that the atomic structure is built from

    [DnaBase], [DnaStrand] and [DnaStructure] are defined outside this
    module; the records hold the attributes that this module reads.  A tour
    entry stands for its base: where the module does arithmetic on it
    ([strand.tour[i]-1]) its value is the base identity. *)

Record DnaBase : Type := mkDnaBase {
  base_id : Z;
  base_h : Z;
  base_p : Z;
  base_seq : string;
  base_strand : Z }.

Record DnaStrand : Type := mkDnaStrand {
  dna_strand_id : Z;
  dna_tour : list DnaBase;
  dna_is_circular : bool;
  dna_is_scaffold : bool }.

Record DnaStructure : Type := mkDnaStructure {
  base_connectivity : list DnaBase;
  helix_axis_coords : list vec3;
  helix_axis_frames : list mat3;
  id_nt : list (Z * Z);
  dna_strands : list DnaStrand }.

(** ** AtomicStructureStrand *)

Record AtomicStructureStrand : Type := mkStrand {
  dna_strand : DnaStrand;
  strand_id : Z;
  tour : list DnaBase;
  is_circular : bool;
  is_scaffold : bool;
  is_main : list bool;
  strand_seq : list string;
  rotations : list ndarray2;
  translations : list ndarray1;
  strand_chainID : string }.

(** [str(n)] for an integer. *)
Definition str (n : Z) : string := NilZero.string_of_int (Z.to_int n).

(** [AtomicStructureStrand.__init__] *)
Definition AtomicStructureStrand_init (strand : DnaStrand)
  : Res AtomicStructureStrand :=
  let size := List.length (dna_tour strand) in
  first_base <- py_get (dna_tour strand) 0 ;;
  let chain := if dna_is_scaffold strand then "sc" else "st" in
  let chain := chain ++ "." ++ str (base_h first_base) ++ "."
               ++ str (base_p first_base) in
  Ok (mkStrand strand (dna_strand_id strand) (dna_tour strand)
        (dna_is_circular strand) (dna_is_scaffold strand)
        (repeat false size) (repeat "N" size)
        (repeat None size) (repeat None size) chain).

(** Modelled from the spec: [DnaStrand.get_base_index] is not among the
    sources.  Index [i] of the per-base arrays corresponds to tour position
    [i], so the index of a base is its position in the tour of the strand;
    a base that the tour does not hold is a [KeyError]. *)
Fixpoint tour_position (t : list DnaBase) (b : Z) (i : Z) : Res Z :=
  match t with
  | [] => Err KeyError
  | x :: t' => if (base_id x =? b)%Z then Ok i else tour_position t' b (i + 1)
  end.

Definition get_base_index (strand : AtomicStructureStrand) (base : DnaBase)
  : Res Z :=
  tour_position (dna_tour (dna_strand strand)) (base_id base) 0.

Definition set_is_main (s : AtomicStructureStrand) (v : list bool)
  : AtomicStructureStrand :=
  mkStrand (dna_strand s) (strand_id s) (tour s) (is_circular s)
           (is_scaffold s) v (strand_seq s) (rotations s) (translations s)
           (strand_chainID s).

Definition set_seq (s : AtomicStructureStrand) (v : list string)
  : AtomicStructureStrand :=
  mkStrand (dna_strand s) (strand_id s) (tour s) (is_circular s)
           (is_scaffold s) (is_main s) v (rotations s) (translations s)
           (strand_chainID s).

Definition set_rotations (s : AtomicStructureStrand) (v : list ndarray2)
  : AtomicStructureStrand :=
  mkStrand (dna_strand s) (strand_id s) (tour s) (is_circular s)
           (is_scaffold s) (is_main s) (strand_seq s) v (translations s)
           (strand_chainID s).

Definition set_translations (s : AtomicStructureStrand) (v : list ndarray1)
  : AtomicStructureStrand :=
  mkStrand (dna_strand s) (strand_id s) (tour s) (is_circular s)
           (is_scaffold s) (is_main s) (strand_seq s) (rotations s) v
           (strand_chainID s).

Close Scope string_scope.

(** ** AtomicStructure: the bulge interpolator *)

(** A loop whose body can raise, over values that are rebuilt rather than
    mutated. *)
Fixpoint fold_res {S X : Type} (xs : list X) (body : X -> S -> Res S) (s : S)
  : Res S :=
  match xs with
  | [] => Ok s
  | x :: xs' => s' <- body x s ;; fold_res xs' body s'
  end.

Definition zeros3x3 : mat3 := M3 0 0 0 0 0 0 0 0 0.
Definition zeros3 : vec3 := V3 0 0 0.

(** The body of the loop of [_fit_R_d], for index [i]: it fills
    [R_fit[:, :, i]] and [d_fit[:, i]]. *)
Definition fit_body (R_1 : ndarray2) (d_1 d_2 : ndarray1) (axis : vec3)
    (theta : R) (num_bases : Z) (i : Z) (fit : list mat3 * list vec3)
  : Res (list mat3 * list vec3) :=
  let j := (i + 1)%Z in
  let angle := (theta * IZR j / IZR (num_bases + 1))%R in
  let Rj := _vrrotvec2mat axis angle in
  RR <- np_dot (Some Rj) R_1 ;;
  match RR, d_1, d_2 with
  | Some rr, Some d1, Some d2 =>
      R_fit <- py_set (fst fit) i rr ;;
      d_fit <- py_set (snd fit) i
                 (vdiv (vadd (vscale d1 (IZR (num_bases + 1 - j)))
                             (vscale d2 (IZR j)))
                       (IZR (num_bases + 1))) ;;
      Ok (R_fit, d_fit)
  | _, _, _ => Err ValueError
  end.

(** [_fit_R_d]: the rotations and translations between the start and the end
    of a region of [num_bases] bases. *)
Definition _fit_R_d (R_1 : ndarray2) (d_1 : ndarray1) (R_2 : ndarray2)
    (d_2 : ndarray1) (num_bases : Z) : Res (list mat3 * list vec3) :=
  let R_fit := repeat zeros3x3 (Z.to_nat num_bases) in
  let d_fit := repeat zeros3 (Z.to_nat num_bases) in
  Rrel <- np_dot R_2 (np_T R_1) ;;
  '(axis1, theta1) <- _vrrotmat2vec R_1 ;;
  '(axis2, theta2) <- _vrrotmat2vec R_2 ;;
  '(axis, theta) <- _vrrotmat2vec Rrel ;;
  fold_res (range num_bases)
           (fit_body R_1 d_1 d_2 axis theta num_bases) (R_fit, d_fit).

(** [l.index(False)], [None] when [False not in l]. *)
Fixpoint index_false (l : list bool) (i : Z) : option Z :=
  match l with
  | [] => None
  | b :: l' => if b then index_false l' (i + 1) else Some i
  end.

(** The scan in the 5' direction of [_find_single_strands]: the loop
    [while (not is_visited[i])] started at [i], on the pair
    [(is_visited, single_strands)]. *)
Fixpoint scan_5prime (fuel : nat) (is_circular : bool) (num_nt loop i : Z)
    (st : list bool * list (list Z)) : Res (list bool * list (list Z)) :=
  match fuel with
  | O => Err FuelExhausted
  | S fuel' =>
      v <- py_get (fst st) i ;;
      if v then Ok st
      else
        is_visited <- py_set (fst st) i true ;;
        region <- py_get (snd st) loop ;;
        single_strands <- py_set (snd st) loop (region ++ [i]) ;;
        if (i >? 0)%Z then
          scan_5prime fuel' is_circular num_nt loop (i - 1)
                      (is_visited, single_strands)
        else if is_circular then
          scan_5prime fuel' is_circular num_nt loop (num_nt - 1)
                      (is_visited, single_strands)
        else Ok (is_visited, single_strands)
  end.

(** The scan in the 3' direction. *)
Fixpoint scan_3prime (fuel : nat) (is_circular : bool) (num_nt loop i : Z)
    (st : list bool * list (list Z)) : Res (list bool * list (list Z)) :=
  match fuel with
  | O => Err FuelExhausted
  | S fuel' =>
      v <- py_get (fst st) i ;;
      if v then Ok st
      else
        is_visited <- py_set (fst st) i true ;;
        region <- py_get (snd st) loop ;;
        single_strands <- py_set (snd st) loop (region ++ [i]) ;;
        if (i <? num_nt - 1)%Z then
          scan_3prime fuel' is_circular num_nt loop (i + 1)
                      (is_visited, single_strands)
        else if is_circular then
          scan_3prime fuel' is_circular num_nt loop 0
                      (is_visited, single_strands)
        else Ok (is_visited, single_strands)
  end.

(** The loop [while (True)] of [_find_single_strands]. *)
Fixpoint find_loop (fuel : nat) (is_circular : bool) (num_nt loop : Z)
    (is_visited : list bool) (single_strands : list (list Z))
  : Res (list (list Z)) :=
  match fuel with
  | O => Err FuelExhausted
  | S fuel' =>
      match index_false is_visited 0 with
      | None => Ok single_strands
      | Some i_0 =>
          let single_strands := single_strands ++ [[]] in
          st <- scan_5prime (S (List.length is_visited)) is_circular num_nt
                            loop i_0 (is_visited, single_strands) ;;
          single_strands <- py_set (snd st) (-1) [] ;;
          is_visited <- py_set (fst st) i_0 false ;;
          st <- scan_3prime (S (List.length is_visited)) is_circular num_nt
                            loop i_0 (is_visited, single_strands) ;;
          find_loop fuel' is_circular num_nt (loop + 1) (fst st) (snd st)
      end
  end.

(** [_find_single_strands]: the regions of the strand that are not paired.
    Each scan marks a base at every turn and the outer loop marks one at
    every turn, so one more turn than there are bases is enough for each. *)
Definition _find_single_strands (rotations : list ndarray2)
    (is_circular : bool) : Res (list (list Z)) :=
  let num_nt := len rotations in
  let is_visited := map (fun rmat => negb (size_is_0 rmat)) rotations in
  find_loop (S (List.length rotations)) is_circular num_nt 0 is_visited [].

(** The arrays of a strand that [_generate_bulge_dof] receives and mutates. *)
Record Dof : Type := mkDof {
  dof_rotations : list ndarray2;
  dof_translations : list ndarray1;
  dof_is_main : list bool }.

(** The loop that empties the single-stranded regions with a free end. *)
Definition remove_free_end (num_nt : Z) (i : Z)
    (single_strands : list (list Z)) : Res (list (list Z)) :=
  strand_pos <- py_get single_strands i ;;
  first <- py_get strand_pos 0 ;;
  if (first =? 0)%Z then py_set single_strands i []
  else
    last <- py_get strand_pos (-1) ;;
    if (last =? num_nt - 1)%Z then py_set single_strands i []
    else Ok single_strands.

Definition remove_free_ends (num_nt : Z) (single_strands : list (list Z))
  : Res (list (list Z)) :=
  fold_res (rev (range (len single_strands))) (remove_free_end num_nt)
           single_strands.

(** The rotation of an anchor: turned about the local z axis by 180 degrees
    when the anchor is not the main base of its pair. *)
Definition anchor_rotation (R_i : ndarray2) (main : bool) : Res ndarray2 :=
  if negb main then np_dot R_i (Some (_vrrotvec2mat (V3 0 0 1) PI))
  else Ok R_i.

(** The body of the loop that writes the fitted frames into the region. *)
Definition update_region (strand_pos : list Z) (R_fit : list mat3)
    (d_fit : list vec3) (j : Z) : M Dof unit :=
  k <~ lift (py_get strand_pos j) ;;
  dof <~ get ;;
  is_main <~ lift (py_set (dof_is_main dof) k true) ;;
  put (mkDof (dof_rotations dof) (dof_translations dof) is_main) ;;;
  Rj <~ lift (py_get R_fit j) ;;
  dof <~ get ;;
  rotations <~ lift (py_set (dof_rotations dof) k (Some Rj)) ;;
  put (mkDof rotations (dof_translations dof) (dof_is_main dof)) ;;;
  dj <~ lift (py_get d_fit j) ;;
  dof <~ get ;;
  translations <~ lift (py_set (dof_translations dof) k (Some dj)) ;;
  put (mkDof (dof_rotations dof) translations (dof_is_main dof)).

(** The frames fitted for a region: the anchors before and after it, and
    the interpolation between them. *)
Definition fit_region (num_nt : Z) (strand_pos : list Z) (dof : Dof)
  : Res (list mat3 * list vec3) :=
  first <- py_get strand_pos 0 ;;
  let i_1 := (first - 1)%Z in
  let i_1 := if (i_1 <? 0)%Z then (num_nt - 1)%Z else i_1 in
  R_1 <- py_get (dof_rotations dof) i_1 ;;
  d_1 <- py_get (dof_translations dof) i_1 ;;
  main_1 <- py_get (dof_is_main dof) i_1 ;;
  R_1 <- anchor_rotation R_1 main_1 ;;
  last <- py_get strand_pos (-1) ;;
  let i_2 := (last + 1)%Z in
  let i_2 := if (i_2 >? num_nt - 1)%Z then 0%Z else i_2 in
  R_2 <- py_get (dof_rotations dof) i_2 ;;
  d_2 <- py_get (dof_translations dof) i_2 ;;
  main_2 <- py_get (dof_is_main dof) i_2 ;;
  R_2 <- anchor_rotation R_2 main_2 ;;
  _fit_R_d R_1 d_1 R_2 d_2 (len strand_pos).

(** The body of the loop over the single-stranded regions. *)
Definition process_region (num_nt : Z) (strand_pos : list Z) : M Dof unit :=
  if (len strand_pos =? 0)%Z then ret tt
  else
    dof <~ get ;;
    fit <~ lift (fit_region num_nt strand_pos dof) ;;
    for_in (range (len strand_pos))
           (update_region strand_pos (fst fit) (snd fit)).

(** [_generate_bulge_dof]: the arrays are mutated in place, so the arrays as
    they stand are returned next to the result. *)
Definition _generate_bulge_dof (is_circular : bool) : M Dof unit :=
  fun dof =>
    let num_nt := len (dof_rotations dof) in
    match _find_single_strands (dof_rotations dof) is_circular with
    | Err e => (Err e, dof)
    | Ok single_strands =>
        match (if negb is_circular
               then remove_free_ends num_nt single_strands
               else Ok single_strands) with
        | Err e => (Err e, dof)
        | Ok single_strands =>
            for_in single_strands (process_region num_nt) dof
        end
    end.

(** ** AtomicStructure: the atom assembler *)

(** A record of [logger.warn]: [base(i)='base_name' not found.] *)
Inductive log_record : Type :=
| WarnBaseNotFound (i : Z) (base_name : string).

(** What the loops of [_create_atoms_from_strand] update: the molecule, the
    serial number of the next atom and the log.  ([atom_index] is counted
    but never read, and is left out.) *)
Record Asm : Type := mkAsm {
  molecule : Molecule;
  first_atomID_out : Z;
  asm_log : list log_record }.

Definition warn (r : log_record) : M Asm unit :=
  fun st => (Ok tt, mkAsm (molecule st) (first_atomID_out st)
                          (asm_log st ++ [r])).

(** [np.add(v, D)]: the shapes must agree. *)
Definition np_add (v : vec3) (D : ndarray1) : Res vec3 :=
  match D with
  | Some d => Ok (vadd v d)
  | None => Err ValueError
  end.

(** The body of the loop over the atoms of the reference structure. *)
Definition place_atom (strand : AtomicStructureStrand) (R : mat3)
    (D : ndarray1) (i : Z) (template : Atom) : M Asm unit :=
  st <~ get ;;
  let current_atom := dupe template in
  let current_atom := set_atom_id current_atom (first_atomID_out st) in
  let current_atom := set_chainID current_atom (strand_chainID strand) in
  put (mkAsm (molecule st) (first_atomID_out st + 1) (asm_log st)) ;;;
  let current_atom := set_res_seq_num current_atom (i + 1) in
  let xform_coord := coords current_atom in
  let xform_coord := mvec R xform_coord in
  xform_coord <~ lift (np_add xform_coord D) ;;
  let current_atom := set_coords current_atom xform_coord in
  st <~ get ;;
  put (mkAsm (add_atom (molecule st) current_atom) (first_atomID_out st)
             (asm_log st)).

(** The body of the loop over the bases of the strand. *)
Definition create_atoms_for_base (strand : AtomicStructureStrand)
    (forward_struct reverse_struct : dict (list Atom)) (Ry180 : mat3)
    (i : Z) : M Asm unit :=
  strand_R <~ lift (py_get (rotations strand) i) ;;
  match strand_R with
  | None => ret tt
  | Some strand_R =>
      letter <~ lift (py_get (strand_seq strand) i) ;;
      let base_name := upper letter in
      if negb (dict_mem forward_struct base_name) then
        warn (WarnBaseNotFound i base_name)
      else
        let R := mmul strand_R Ry180 in
        D <~ lift (py_get (translations strand) i) ;;
        main <~ lift (py_get (is_main strand) i) ;;
        current_struct <~
          lift (if main : bool then dict_item forward_struct base_name
                else dict_item reverse_struct base_name) ;;
        for_in current_struct (place_atom strand R D i)
  end.

(** [_create_atoms_from_strand]: the molecule of the strand and the serial
    number after its last atom; the log is the state of [self]. *)
Definition _create_atoms_from_strand (base_conn : list DnaBase)
    (strand : AtomicStructureStrand)
    (forward_struct reverse_struct : dict (list Atom)) (first_atomID_in : Z)
  : M (list log_record) (Molecule * Z) :=
  fun log =>
    match (first <- py_get (tour strand) 0 ;;
           py_get base_conn (base_id first - 1)) with
    | Err e => (Err e, log)
    | Ok base =>
        let num_bases := len (tour strand) in
        let st := mkAsm (Molecule_init (strand_id strand)) first_atomID_in
                        log in
        let Ry180 := _Ry 180 in
        match for_in (range num_bases)
                (create_atoms_for_base strand forward_struct reverse_struct
                                       Ry180) st with
        | (Ok _, st') =>
            (Ok (molecule st', first_atomID_out st'), asm_log st')
        | (Err e, st') => (Err e, asm_log st')
        end
    end.

(** The body of the loop of [_read_template] over the atoms that the reader
    returned: the atoms of residue 2 go to the forward (chain S) or to the
    reverse (chain A) structure, turned by [R]. *)
Definition read_template_atom (R : mat3) (atom : Atom)
    (acc : list Atom * list Atom) : list Atom * list Atom :=
  if String.eqb (chainID atom) "S" && (res_seq_num atom =? 2)%Z then
    let atom := set_atom_id atom (-1) in
    let atom := set_res_seq_num atom (-1) in
    let atom := set_coords atom (mvec R (coords atom)) in
    let atom := set_chainID atom "A" in
    (fst acc ++ [atom], snd acc)
  else if String.eqb (chainID atom) "A" && (res_seq_num atom =? 2)%Z then
    let atom := set_atom_id atom (-1) in
    let atom := set_res_seq_num atom (-1) in
    let atom := set_coords atom (mvec R (coords atom)) in
    (fst acc, snd acc ++ [atom])
  else acc.

(** [_read_template].  [PdbReader] is not among the sources: [pdb] gives,
    for a file name, the atoms of the first molecule that the reader
    returns, or the exception of a file that cannot be read. *)
Definition _read_template (pdb : string -> Res (list Atom))
    (infile_name : string) : Res (list Atom * list Atom) :=
  template_atoms <- pdb infile_name ;;
  let R := mmul (_Ry (-90)) (_Rx (-90)) in
  Ok (fold_left (fun acc atom => read_template_atom R atom acc)
                template_atoms ([], [])).

Definition TEMPLATE_PDB_STRUCTURE_FILE_A : string := "AAA.pdb".
Definition TEMPLATE_PDB_STRUCTURE_FILE_G : string := "GGG.pdb".
Definition TEMPLATE_PDB_STRUCTURE_FILE_C : string := "CCC.pdb".
Definition TEMPLATE_PDB_STRUCTURE_FILE_T : string := "TTT.pdb".

(** Modelled from the spec: [DnaBaseNames] is not among the sources; the
    sequence letters of a base are A, C, G and T. *)
Module DnaBaseNames.
Definition A : string := "A".
Definition C : string := "C".
Definition G : string := "G".
Definition T : string := "T".
End DnaBaseNames.

(** The loop of [_generate_atoms] over the strands. *)
Fixpoint generate_atoms_loop (base_conn : list DnaBase)
    (strands : list AtomicStructureStrand)
    (forward_struct reverse_struct : dict (list Atom)) (first_atomID : Z)
    (molecular_structures : list Molecule)
  : M (list log_record) (list Molecule) :=
  match strands with
  | [] => ret molecular_structures
  | strand :: rest =>
      r <~ _create_atoms_from_strand base_conn strand forward_struct
                                     reverse_struct first_atomID ;;
      generate_atoms_loop base_conn rest forward_struct reverse_struct
                          (snd r) (molecular_structures ++ [fst r])
  end.

(** [_generate_atoms] *)
Definition _generate_atoms (pdb : string -> Res (list Atom))
    (base_conn : list DnaBase) (strands : list AtomicStructureStrand)
  : M (list log_record) (list Molecule) :=
  AT <~ lift (_read_template pdb TEMPLATE_PDB_STRUCTURE_FILE_A) ;;
  GC <~ lift (_read_template pdb TEMPLATE_PDB_STRUCTURE_FILE_G) ;;
  CG <~ lift (_read_template pdb TEMPLATE_PDB_STRUCTURE_FILE_C) ;;
  TA <~ lift (_read_template pdb TEMPLATE_PDB_STRUCTURE_FILE_T) ;;
  let forward_struct :=
    [(DnaBaseNames.A, fst AT); (DnaBaseNames.C, fst CG);
     (DnaBaseNames.G, fst GC); (DnaBaseNames.T, fst TA)] in
  let reverse_struct :=
    [(DnaBaseNames.A, snd TA); (DnaBaseNames.C, snd GC);
     (DnaBaseNames.G, snd CG); (DnaBaseNames.T, snd AT)] in
  let first_atomID := 1%Z in
  generate_atoms_loop base_conn strands forward_struct reverse_struct
                      first_atomID [].

(** ** AtomicStructure: generate_structure *)

Record AtomicStructure : Type := mkAtomicStructure {
  dna_structure : DnaStructure;
  molecules : list Molecule;
  strands : list AtomicStructureStrand;
  logger : list log_record }.

(** [AtomicStructure._init_strand_data] *)
Definition _init_strand_data (dna_strands : list DnaStrand)
  : Res (list AtomicStructureStrand) :=
  fold_res dna_strands
           (fun dna_strand strands =>
              atomic_strand <- AtomicStructureStrand_init dna_strand ;;
              Ok (strands ++ [atomic_strand]))
           [].

(** [AtomicStructure.__init__] *)
Definition AtomicStructure_init (dna_structure : DnaStructure)
  : Res AtomicStructure :=
  strands <- _init_strand_data (dna_strands dna_structure) ;;
  Ok (mkAtomicStructure dna_structure [] strands []).

Definition set_base_nodes (self : AtomicStructure) (v : list vec3)
  : AtomicStructure :=
  let d := dna_structure self in
  mkAtomicStructure
    (mkDnaStructure (base_connectivity d) v (helix_axis_frames d) (id_nt d)
                    (dna_strands d))
    (molecules self) (strands self) (logger self).

Definition set_triads (self : AtomicStructure) (v : list mat3)
  : AtomicStructure :=
  let d := dna_structure self in
  mkAtomicStructure
    (mkDnaStructure (base_connectivity d) (helix_axis_coords d) v (id_nt d)
                    (dna_strands d))
    (molecules self) (strands self) (logger self).

Definition set_strands (self : AtomicStructure)
    (v : list AtomicStructureStrand) : AtomicStructure :=
  mkAtomicStructure (dna_structure self) (molecules self) v (logger self).

Definition set_molecules (self : AtomicStructure) (v : list Molecule)
  : AtomicStructure :=
  mkAtomicStructure (dna_structure self) v (strands self) (logger self).

Definition set_logger (self : AtomicStructure) (v : list log_record)
  : AtomicStructure :=
  mkAtomicStructure (dna_structure self) (molecules self) (strands self) v.

(** A row of [base_nodes] with its three coordinates multiplied by 10. *)
Definition to_angstroms (v : vec3) : vec3 :=
  V3 (10 * vx v) (10 * vy v) (10 * vz v).

(** A triad with the directions of its frames 0 and 2 reversed. *)
Definition reverse_frames (t : mat3) : mat3 :=
  M3 (- m00 t) (m01 t) (- m02 t)
     (- m10 t) (m11 t) (- m12 t)
     (- m20 t) (m21 t) (- m22 t).

(** The body of the loop that converts the base node coordinates, written
    into the array of the DNA structure. *)
Definition convert_base_node (i : Z) : M AtomicStructure unit :=
  self <~ get ;;
  let base_nodes := helix_axis_coords (dna_structure self) in
  v <~ lift (py_get base_nodes i) ;;
  base_nodes <~ lift (py_set base_nodes i (to_angstroms v)) ;;
  put (set_base_nodes self base_nodes).

(** The body of the loop that reverses the coordinate frames, written into
    the array of the DNA structure. *)
Definition reverse_triad (i : Z) : M AtomicStructure unit :=
  self <~ get ;;
  let triads := helix_axis_frames (dna_structure self) in
  t <~ lift (py_get triads i) ;;
  triads <~ lift (py_set triads i (reverse_frames t)) ;;
  put (set_triads self triads).

(** The rotation that converts the frame [e1 e2 e3] to [-e2 e3 -e1]. *)
Definition rot_mat : mat3 := M3 0 0 (-1) (-1) 0 0 0 1 0.

(** A write into an array of the strand [self.strands[sidx]]. *)
Definition update_strand (sidx : Z)
    (f : AtomicStructureStrand -> Res AtomicStructureStrand)
  : M AtomicStructure unit :=
  self <~ get ;;
  strand <~ lift (py_get (strands self) sidx) ;;
  strand <~ lift (f strand) ;;
  strands <~ lift (py_set (strands self) sidx strand) ;;
  put (set_strands self strands).

(** The statements of the pairing loop for one base of the pair [i]. *)
Definition set_paired_base (i : Z) (base_id : Z) (main : bool)
  : M AtomicStructure unit :=
  self <~ get ;;
  let d := dna_structure self in
  base <~ lift (py_get (base_connectivity d) base_id) ;;
  strand <~ lift (py_get (strands self) (base_strand base)) ;;
  sindex <~ lift (get_base_index strand base) ;;
  update_strand (base_strand base) (fun s =>
    v <- py_set (is_main s) sindex main ;; Ok (set_is_main s v)) ;;;
  update_strand (base_strand base) (fun s =>
    v <- py_set (strand_seq s) sindex (base_seq base) ;; Ok (set_seq s v)) ;;;
  triad <~ lift (py_get (helix_axis_frames d) i) ;;
  update_strand (base_strand base) (fun s =>
    v <- py_set (rotations s) sindex (Some (mmul triad rot_mat)) ;;
    Ok (set_rotations s v)) ;;;
  node <~ lift (py_get (helix_axis_coords d) i) ;;
  update_strand (base_strand base) (fun s =>
    v <- py_set (translations s) sindex (Some node) ;;
    Ok (set_translations s v)).

(** The body of the pairing loop. *)
Definition set_strand_data (i : Z) : M AtomicStructure unit :=
  self <~ get ;;
  ids <~ lift (py_get (id_nt (dna_structure self)) i) ;;
  set_paired_base i (fst ids) true ;;;
  set_paired_base i (snd ids) false.

(** The Frame Initializer: the three loops over the pairing table. *)
Definition init_frames : M AtomicStructure unit :=
  self <~ get ;;
  let n := len (id_nt (dna_structure self)) in
  for_in (range n) convert_base_node ;;;
  for_in (range n) reverse_triad ;;;
  for_in (range n) set_strand_data.

(** The body of the loop that fills the sequence letters still at 'N'. *)
Definition fill_seq (base_conn : list DnaBase) (i : Z)
    (strand : AtomicStructureStrand) : Res AtomicStructureStrand :=
  letter <- py_get (strand_seq strand) i ;;
  if String.eqb letter "N" then
    entry <- py_get (tour strand) i ;;
    let base_index := (base_id entry - 1)%Z in
    base <- py_get base_conn base_index ;;
    v <- py_set (strand_seq strand) i (base_seq base) ;;
    Ok (set_seq strand v)
  else Ok strand.

(** The body of the loop that creates the bulges, for the strand at index
    [k] of [self.strands]. *)
Definition create_bulges (k : Z) : M AtomicStructure unit :=
  self <~ get ;;
  strand <~ lift (py_get (strands self) k) ;;
  let dof := mkDof (rotations strand) (translations strand)
                   (is_main strand) in
  let (r, dof) := _generate_bulge_dof (is_circular strand) dof in
  let strand := set_is_main
                  (set_translations
                     (set_rotations strand (dof_rotations dof))
                     (dof_translations dof))
                  (dof_is_main dof) in
  strands <~ lift (py_set (strands self) k strand) ;;
  put (set_strands self strands) ;;;
  lift r ;;;
  for_in (range (len (strand_seq strand)))
         (fun i =>
            update_strand k
              (fill_seq (base_connectivity (dna_structure self)) i)).

(** [generate_structure].  [pdb] stands for the template files. *)
Definition generate_structure (pdb : string -> Res (list Atom))
  : M AtomicStructure (list Molecule) :=
  init_frames ;;;
  self <~ get ;;
  for_in (range (len (strands self))) create_bulges ;;;
  self <~ get ;;
  let (r, log) :=
    _generate_atoms pdb (base_connectivity (dna_structure self))
                    (strands self) (logger self) in
  put (set_logger self log) ;;;
  molecules <~ lift r ;;
  self <~ get ;;
  put (set_molecules self molecules) ;;;
  ret molecules.

(** The atoms [l] carry the serial numbers [id0], [id0 + 1], ... in order. *)
Definition ids_from (id0 : Z) (l : list Atom) : Prop :=
  map atom_id l = map (fun k => (id0 + Z.of_nat k)%Z) (seq 0 (List.length l)).

(** The atom that [_create_atoms_from_strand] makes of a template atom for
    the base at index [i], with the serial number [id]. *)
Definition transform_atom (chain : string) (R : mat3) (D : vec3) (i id : Z)
    (a : Atom) : Atom :=
  mkAtom id (atom_name a) (res_name a) chain (i + 1)
         (vadd (mvec R (coords a)) D) (element a).

(** The atoms made of a template, numbered from [id]. *)
Fixpoint place_all (chain : string) (R : mat3) (D : vec3) (i id : Z)
    (template : list Atom) : list Atom :=
  match template with
  | [] => []
  | a :: rest =>
      transform_atom chain R D i id a :: place_all chain R D i (id + 1) rest
  end.

(** The atoms of a molecule that belong to the residue numbered [r]. *)
Definition residue_atoms (r : Z) (l : list Atom) : list Atom :=
  filter (fun a => (res_seq_num a =? r)%Z) l.

(** The largest number of atoms of a template structure. *)
Definition dict_max_len (d : dict (list Atom)) : nat :=
  fold_right (fun kv m => Nat.max (List.length (snd kv)) m) 0%nat d.

Definition templateAtomCount (forward_struct reverse_struct : dict (list Atom))
  : nat :=
  Nat.max (dict_max_len forward_struct) (dict_max_len reverse_struct).

(** The arrays of a strand are parallel to its tour, and a base with a
    rotation has a translation. *)
Definition wf_strand (s : AtomicStructureStrand) : Prop :=
  List.length (rotations s) = List.length (tour s) /\
  List.length (translations s) = List.length (tour s) /\
  List.length (is_main s) = List.length (tour s) /\
  List.length (strand_seq s) = List.length (tour s) /\
  forall (k : nat) (Rb : mat3),
    nth_error (rotations s) k = Some (Some Rb) ->
    exists d, nth_error (translations s) k = Some (Some d).

(** The first base of the tour is a base of the structure: the lookup at the
    start of [_create_atoms_from_strand] finds it. *)
Definition first_base_known (base_conn : list DnaBase)
    (s : AtomicStructureStrand) : Prop :=
  exists first base,
    py_get (tour s) 0 = Ok first /\
    py_get base_conn (base_id first - 1) = Ok base.

(** Every key of the forward structures is a key of the reverse ones. *)
Definition templates_paired (forward_struct reverse_struct : dict (list Atom))
  : Prop :=
  forall k, dict_mem forward_struct k = true ->
            dict_mem reverse_struct k = true.

(** The base at index [x] of the strand has a frame. *)
Definition has_frame (s : AtomicStructureStrand) (x : Z) : bool :=
  match py_get (rotations s) x with
  | Ok (Some _) => true
  | _ => false
  end.

(** The rotation and the translation that [_fit_R_d] computes for the base
    [j] (counted from 1) of a region of [n] bases. *)
Definition fit_rotation (R_1 : mat3) (axis : vec3) (theta : R) (n j : Z)
  : mat3 :=
  mmul (_vrrotvec2mat axis (theta * IZR j / IZR (n + 1))%R) R_1.

Definition fit_translation (d_1 d_2 : vec3) (n j : Z) : vec3 :=
  vdiv (vadd (vscale d_1 (IZR (n + 1 - j))) (vscale d_2 (IZR j)))
       (IZR (n + 1)).

(** The positions [a], [a + 1], ..., [a + b - 1]. *)
Definition positions (a b : nat) : list Z := map Z.of_nat (seq a b).

(** [r] is a maximal run of unvisited positions of [vis]: the positions
    [a .. a + b - 1] are all unvisited, and the positions next to the run, if
    any, are visited. *)
Definition run_of (vis : list bool) (r : list Z) : Prop :=
  exists a b : nat,
    (1 <= b)%nat /\ (a + b <= List.length vis)%nat /\
    r = positions a b /\
    (forall j, (a <= j < a + b)%nat -> nth_error vis j = Some false) /\
    (a = 0%nat \/ nth_error vis (a - 1) = Some true) /\
    ((a + b)%nat = List.length vis \/ nth_error vis (a + b) = Some true).

(** The flags that [_find_single_strands] starts from: a base is visited
    when its rotation is set. *)
Definition visited_flags (rotations : list ndarray2) : list bool :=
  map (fun rmat => negb (size_is_0 rmat)) rotations.

(** The base at position [k] has a frame in [rots]. *)
Definition resolved (rots : list ndarray2) (k : nat) : Prop :=
  exists Rb, nth_error rots k = Some (Some Rb).

(** The base at position [k] has no frame in [rots]. *)
Definition unset (rots : list ndarray2) (k : nat) : Prop :=
  nth_error rots k = Some None.

(** What [remove_free_ends] makes of a region of a strand of [n] bases. *)
Definition keep_anchored (n : Z) (r : list Z) : list Z :=
  match r with
  | [] => []
  | first :: _ =>
      if (first =? 0)%Z then []
      else if (last r 0 =? n - 1)%Z then [] else r
  end.

(** A region that the interpolator can fill: empty, or a run of positions
    whose two neighbours, around the strand, have frames. *)
Definition anchored (rots : list ndarray2) (r : list Z) : Prop :=
  r = [] \/
  exists a b : nat,
    (1 <= b)%nat /\ (a + b <= List.length rots)%nat /\ r = positions a b /\
    (forall j, (a <= j < a + b)%nat -> unset rots j) /\
    resolved rots (if (a =? 0)%nat then List.length rots - 1 else a - 1) /\
    resolved rots (if (a + b =? List.length rots)%nat then 0 else a + b).

(** The arrays of a strand before interpolation: parallel, and every frame
    that is set is a rotation with a translation. *)
Definition dof_wf (dof : Dof) : Prop :=
  List.length (dof_translations dof) = List.length (dof_rotations dof) /\
  List.length (dof_is_main dof) = List.length (dof_rotations dof) /\
  forall k Rb, nth_error (dof_rotations dof) k = Some (Some Rb) ->
    is_rotation Rb /\
    exists d, nth_error (dof_translations dof) k = Some (Some d).

(** The arrays [dof] extend [dof0]: same lengths, the frames of [dof0] are
    kept, and every frame that is set has a translation. *)
Definition dof_extends (dof0 dof : Dof) : Prop :=
  List.length (dof_rotations dof) = List.length (dof_rotations dof0) /\
  List.length (dof_translations dof) = List.length (dof_rotations dof0) /\
  List.length (dof_is_main dof) = List.length (dof_rotations dof0) /\
  (forall k Rb, nth_error (dof_rotations dof0) k = Some (Some Rb) ->
     nth_error (dof_rotations dof) k = Some (Some Rb) /\
     nth_error (dof_translations dof) k = nth_error (dof_translations dof0) k /\
     nth_error (dof_is_main dof) k = nth_error (dof_is_main dof0) k) /\
  (forall k Rb, nth_error (dof_rotations dof) k = Some (Some Rb) ->
     exists d, nth_error (dof_translations dof) k = Some (Some d)).

(** On a strand that is not circular, the position [k] lies in a run of
    bases without frames that reaches an end of the strand. *)
Definition at_free_end (rots : list ndarray2) (k : nat) : Prop :=
  (forall j, (j <= k)%nat -> unset rots j) \/
  (forall j, (k <= j < List.length rots)%nat -> unset rots j).

(** The arrays of a strand, as [generate_structure] hands them to
    [_generate_bulge_dof]. *)
Definition dof_of (s : AtomicStructureStrand) : Dof :=
  mkDof (rotations s) (translations s) (is_main s).

(** A strand of three bases without any frame, as [__init__] leaves it. *)
Definition single_stranded_3 : Dof :=
  mkDof [None; None; None] [None; None; None] [false; false; false].

(** A matrix whose trace exceeds 3 by one part in a million: the argument
    of the inverse cosine is above 1. *)
Definition trace_above_3 : mat3 :=
  M3 1 0 0 0 1 0 0 0 1.000001%R.



(** The strand and the position in its arrays that the pairing loop writes
    for the base [base_id]: the indices that [self.strands[base.strand]] and
    [strand.rotations[index]] resolve to. *)
Definition slot_of (base_conn : list DnaBase)
    (strands : list AtomicStructureStrand) (base_id : Z) : Res (nat * nat) :=
  base <- py_get base_conn base_id ;;
  sidx <- py_index strands (base_strand base) ;;
  match nth_error strands sidx with
  | None => Err IndexError
  | Some strand =>
      pos <- get_base_index strand base ;;
      pidx <- py_index (rotations strand) pos ;;
      Ok (sidx, pidx)
  end.

(** The frame of the base at position [p] of the strand [s]: rotation,
    translation and [is_main]. *)
Definition frame_at (strands : list AtomicStructureStrand) (sp : nat * nat)
  : option (ndarray2 * ndarray1 * bool) :=
  match nth_error strands (fst sp) with
  | None => None
  | Some st =>
      match nth_error (rotations st) (snd sp),
            nth_error (translations st) (snd sp),
            nth_error (is_main st) (snd sp) with
      | Some R, Some d, Some m => Some (R, d, m)
      | _, _, _ => None
      end
  end.

(** The strand with the four arrays written at position [p], as the pairing
    loop writes them. *)
Definition write_base (s : AtomicStructureStrand) (p : nat) (main : bool)
    (letter : string) (R : mat3) (d : vec3) : AtomicStructureStrand :=
  set_translations
    (set_rotations
       (set_seq (set_is_main s (set_nth (is_main s) p main))
                (set_nth (strand_seq s) p letter))
       (set_nth (rotations s) p (Some R)))
    (set_nth (translations s) p (Some d)).

Definition write_slot (sp : nat * nat) (main : bool) (letter : string)
    (R : mat3) (d : vec3) (strands : list AtomicStructureStrand)
  : list AtomicStructureStrand :=
  match nth_error strands (fst sp) with
  | None => strands
  | Some s => set_nth strands (fst sp) (write_base s (snd sp) main letter R d)
  end.

(** The four arrays of a strand have one length. *)
Definition arrays_parallel (s : AtomicStructureStrand) : Prop :=
  List.length (is_main s) = List.length (rotations s) /\
  List.length (strand_seq s) = List.length (rotations s) /\
  List.length (translations s) = List.length (rotations s).

(** A strand as [AtomicStructureStrand.__init__] leaves it: no base has a
    frame. *)
Definition fresh_strand (s : AtomicStructureStrand) : Prop :=
  arrays_parallel s /\
  (forall p, p < List.length (rotations s) ->
     nth_error (rotations s) p = Some None /\
     nth_error (translations s) p = Some None).

(** The slots of the pairs of the base-pairing table, in order. *)
Definition all_slots (slots : list ((nat * nat) * (nat * nat)))
  : list (nat * nat) :=
  flat_map (fun sl => [fst sl; snd sl]) slots.

(** What [slot_of] reads of the strands: the DNA strand of each and the
    length of its arrays. *)
Definition shape (strands : list AtomicStructureStrand)
  : list (DnaStrand * nat) :=
  map (fun s => (dna_strand s, List.length (rotations s))) strands.

(** The atoms of the molecule carry the serial numbers from [id0] up to the
    next one to give. *)
Definition ids_invariant (id0 : Z) (st : Asm) : Prop :=
  ids_from id0 (atoms (molecule st)) /\
  first_atomID_out st = (id0 + len (atoms (molecule st)))%Z.

(** What keeps the DNA structure [D] of the state. *)
Definition keeps_dna {A : Type} (D : DnaStructure) (m : M AtomicStructure A)
  : Prop :=
  forall s, dna_structure s = D -> dna_structure (snd (m s)) = D.

(** ** AtomicStructure: get_extent *)

(** The bounds that the loops of [get_extent] update, and the number of
    atoms seen. *)
Record Extent : Type := mkExtent {
  xmin : R; xmax : R;
  ymin : R; ymax : R;
  zmin : R; zmax : R;
  num_atoms : Z }.

(** [if v < lo: lo = v elif v > hi: hi = v] *)
Definition extent_bound (v lo hi : R) : R * R :=
  if Rltb v lo then (v, hi)
  else if Rgtb v hi then (lo, v)
  else (lo, hi).

(** The body of the inner loop of [get_extent]. *)
Definition extent_atom (e : Extent) (atom : Atom) : Extent :=
  let x := vx (coords atom) in
  let y := vy (coords atom) in
  let z := vz (coords atom) in
  if (num_atoms e =? 0)%Z then mkExtent x x y y z z (num_atoms e + 1)
  else
    let bx := extent_bound x (xmin e) (xmax e) in
    let byy := extent_bound y (ymin e) (ymax e) in
    let bz := extent_bound z (zmin e) (zmax e) in
    mkExtent (fst bx) (snd bx) (fst byy) (snd byy) (fst bz) (snd bz)
             (num_atoms e + 1).

(** The two loops of [get_extent], over the molecules and their atoms. *)
Definition extent_of (mols : list Molecule) : Extent :=
  fold_left (fun e molecule => fold_left extent_atom (atoms molecule) e)
            mols (mkExtent 0 0 0 0 0 0 0).

(** [get_extent]: the structure is generated first when the object has no
    molecule. *)
Definition get_extent (pdb : string -> Res (list Atom))
  : M AtomicStructure (R * R * R * R * R * R) :=
  self <~ get ;;
  (if (len (molecules self) =? 0)%Z
   then generate_structure pdb ;;; ret tt
   else ret tt) ;;;
  self <~ get ;;
  let e := extent_of (molecules self) in
  ret (xmin e, xmax e, ymin e, ymax e, zmin e, zmax e).

(** [lo] and [hi] are the least and the greatest value of [f] on the atoms
    [seen]. *)
Definition tight_bounds (f : Atom -> R) (lo hi : R) (seen : list Atom)
  : Prop :=
  (forall a, In a seen -> (lo <= f a <= hi)%R) /\
  (exists a, In a seen /\ f a = lo) /\
  (exists a, In a seen /\ f a = hi).

(** The box [e] is the extent of the atoms [seen]: all zero when there is
    no atom, and the least and greatest coordinates otherwise. *)
Definition extent_spec (e : Extent) (seen : list Atom) : Prop :=
  num_atoms e = len seen /\
  match seen with
  | [] => e = mkExtent 0 0 0 0 0 0 0
  | _ :: _ =>
      tight_bounds (fun a => vx (coords a)) (xmin e) (xmax e) seen /\
      tight_bounds (fun a => vy (coords a)) (ymin e) (ymax e) seen /\
      tight_bounds (fun a => vz (coords a)) (zmin e) (zmax e) seen
  end.

(** ** Further properties: what they are stated with *)

(** The [chains] of a molecule index its atoms: they hold, once each, the
    chain identifiers of the atoms. *)
Definition chains_index (m : Molecule) : Prop :=
  NoDup (chains m) /\
  forall c, In c (chains m) <-> exists a, In a (atoms m) /\ chainID a = c.

(** The atoms of a template file that [_read_template] keeps for the
    forward and for the reverse structure. *)
Definition is_forward_template (a : Atom) : bool :=
  String.eqb (chainID a) "S" && (res_seq_num a =? 2)%Z.

Definition is_reverse_template (a : Atom) : bool :=
  String.eqb (chainID a) "A" && (res_seq_num a =? 2)%Z.

(** A template atom as the structures hold it: no serial number, no residue
    number, chain A, and the coordinates [(x, y, z)] turned to
    [(y, z, x)]. *)
Definition template_atom (a : Atom) : Atom :=
  mkAtom (-1) (atom_name a) (res_name a) "A" (-1)
         (V3 (vy (coords a)) (vz (coords a)) (vx (coords a))) (element a).

(** A strand as [AtomicStructureStrand.__init__] makes it of its DNA
    strand: the same tour, and arrays as long as the tour that hold no
    frame, [False] and the letter N. *)
Definition initial_strand (s : AtomicStructureStrand) : Prop :=
  tour s = dna_tour (dna_strand s) /\
  is_circular s = dna_is_circular (dna_strand s) /\
  rotations s = repeat None (List.length (tour s)) /\
  translations s = repeat None (List.length (tour s)) /\
  is_main s = repeat false (List.length (tour s)) /\
  strand_seq s = repeat "N"%string (List.length (tour s)).

(** The residue numbers of the atoms never decrease along the list. *)
Definition residues_sorted (l : list Atom) : Prop :=
  forall l1 l2, l = l1 ++ l2 ->
  forall a1 a2, In a1 l1 -> In a2 l2 ->
                (res_seq_num a1 <= res_seq_num a2)%Z.

(** A molecule as the assembler makes it of a strand: it has the identity
    of the strand, its atoms carry the chain identifier of the strand and
    the number of a base of the tour as residue number, in the order of the
    tour, and its [chains] index its atoms. *)
Definition molecule_of (strand : AtomicStructureStrand) (mol : Molecule)
  : Prop :=
  mol_id mol = strand_id strand /\
  chains_index mol /\
  (forall a, In a (atoms mol) ->
     chainID a = strand_chainID strand /\
     (1 <= res_seq_num a <= len (tour strand))%Z) /\
  residues_sorted (atoms mol).

(** [_create_atoms_from_strand_ss]: the loop over the bases is the one of
    [_create_atoms_from_strand], statement by statement; the first base is
    read from the tour and not looked up in the base connectivity. *)
Definition _create_atoms_from_strand_ss (strand : AtomicStructureStrand)
    (forward_struct reverse_struct : dict (list Atom)) (first_atomID_in : Z)
  : M (list log_record) (Molecule * Z) :=
  fun log =>
    match py_get (tour strand) 0 with
    | Err e => (Err e, log)
    | Ok base =>
        let num_bases := len (tour strand) in
        let st := mkAsm (Molecule_init (strand_id strand)) first_atomID_in
                        log in
        let Ry180 := _Ry 180 in
        match for_in (range num_bases)
                (create_atoms_for_base strand forward_struct reverse_struct
                                       Ry180) st with
        | (Ok _, st') =>
            (Ok (molecule st', first_atomID_out st'), asm_log st')
        | (Err e, st') => (Err e, asm_log st')
        end
    end.

(** The loop of [_generate_atoms_ss] over the strands. *)
Fixpoint generate_atoms_loop_ss (strands : list AtomicStructureStrand)
    (forward_struct reverse_struct : dict (list Atom)) (first_atomID : Z)
    (molecular_structures : list Molecule)
  : M (list log_record) (list Molecule) :=
  match strands with
  | [] => ret molecular_structures
  | strand :: rest =>
      r <~ _create_atoms_from_strand_ss strand forward_struct
                                        reverse_struct first_atomID ;;
      generate_atoms_loop_ss rest forward_struct reverse_struct
                             (snd r) (molecular_structures ++ [fst r])
  end.

(** [_generate_atoms_ss] *)
Definition _generate_atoms_ss (pdb : string -> Res (list Atom))
    (strands : list AtomicStructureStrand)
  : M (list log_record) (list Molecule) :=
  AT <~ lift (_read_template pdb TEMPLATE_PDB_STRUCTURE_FILE_A) ;;
  GC <~ lift (_read_template pdb TEMPLATE_PDB_STRUCTURE_FILE_G) ;;
  CG <~ lift (_read_template pdb TEMPLATE_PDB_STRUCTURE_FILE_C) ;;
  TA <~ lift (_read_template pdb TEMPLATE_PDB_STRUCTURE_FILE_T) ;;
  let forward_struct :=
    [(DnaBaseNames.A, fst AT); (DnaBaseNames.C, fst CG);
     (DnaBaseNames.G, fst GC); (DnaBaseNames.T, fst TA)] in
  let reverse_struct :=
    [(DnaBaseNames.A, snd TA); (DnaBaseNames.C, snd GC);
     (DnaBaseNames.G, snd CG); (DnaBaseNames.T, snd AT)] in
  let first_atomID := 1%Z in
  generate_atoms_loop_ss strands forward_struct reverse_struct
                         first_atomID [].

(** The number of bases that a scan has not visited yet. *)
Definition unvisited (is_visited : list bool) : nat :=
  List.length (filter negb is_visited).

(** The flags [vis'] are those of [vis] with more bases visited. *)
Definition visits_more (vis vis' : list bool) : Prop :=
  List.length vis' = List.length vis /\
  forall k, nth_error vis k = Some true -> nth_error vis' k = Some true.

(** Every position of the region is the position of a base that [vis]
    holds as not visited. *)
Definition region_unvisited (vis : list bool) (r : list Z) : Prop :=
  forall z, In z r -> exists k, z = Z.of_nat k /\ nth_error vis k = Some false.

(** What [generate_structure] never writes of a strand: its DNA strand,
    identity, tour, flags and chain identifier. *)
Definition strand_identity (s : AtomicStructureStrand)
  : DnaStrand * Z * list DnaBase * bool * bool * string :=
  (dna_strand s, strand_id s, tour s, is_circular s, is_scaffold s,
   strand_chainID s).

(** What keeps the identities [K] of the strands of the state. *)
Definition keeps_strands {A : Type}
    (K : list (DnaStrand * Z * list DnaBase * bool * bool * string))
    (m : M AtomicStructure A) : Prop :=
  forall s, map strand_identity (strands s) = K ->
            map strand_identity (strands (snd (m s))) = K.

(** Every frame that the arrays hold is a rotation matrix. *)
Definition frames_are_rotations (dof : Dof) : Prop :=
  forall k Rb, nth_error (dof_rotations dof) k = Some (Some Rb) ->
               is_rotation Rb.

(** The arrays [dof'] are as long as the arrays [dof]. *)
Definition same_lengths (dof dof' : Dof) : Prop :=
  List.length (dof_rotations dof') = List.length (dof_rotations dof) /\
  List.length (dof_translations dof') = List.length (dof_translations dof) /\
  List.length (dof_is_main dof') = List.length (dof_is_main dof).

(** ** A small design, for running the definitions

    Two strands that are not circular: a scaffold of three bases and a
    staple of two; the second base of the scaffold is paired with the second
    base of the staple. *)

Definition base1 : DnaBase := mkDnaBase 1 0 0 "a" 0.
Definition base2 : DnaBase := mkDnaBase 2 0 1 "N" 0.
Definition base3 : DnaBase := mkDnaBase 3 0 2 "X" 0.
Definition base4 : DnaBase := mkDnaBase 4 1 7 "T" 1.
Definition base5 : DnaBase := mkDnaBase 5 1 6 "G" 1.

Definition sample_scaffold : DnaStrand :=
  mkDnaStrand 0 [base1; base2; base3] false true.
Definition sample_staple : DnaStrand :=
  mkDnaStrand 1 [base4; base5] false false.

Definition sample_dna : DnaStructure :=
  mkDnaStructure [base1; base2; base3; base4; base5]
                 [V3 1 2 3] [I3] [(1, 4)%Z]
                 [sample_scaffold; sample_staple].

(** The atomic structure of the design, as [AtomicStructure.__init__]
    builds it. *)
Definition sample_self : AtomicStructure :=
  match AtomicStructure_init sample_dna with
  | Ok self => self
  | Err _ => mkAtomicStructure sample_dna [] [] []
  end.

(** The slots of the one pair of the design: base 2 of the scaffold and
    base 2 of the staple. *)
Definition sample_slots : list ((nat * nat) * (nat * nat)) :=
  [((0, 1), (1, 1))].

(** Two template atoms per file: one of chain S and one of chain A, both of
    residue 2, and one atom of residue 1 that is not used. *)
Definition sample_pdb (infile_name : string) : Res (list Atom) :=
  Ok [mkAtom 1 "P" "DX" "S" 2 (V3 1 0 0) "P";
      mkAtom 2 "C1'" "DX" "S" 1 (V3 0 1 0) "C";
      mkAtom 3 "P" "DY" "A" 2 (V3 0 0 1) "P"].

Definition sample_forward : dict (list Atom) :=
  [("A", [mkAtom (-1) "P" "DA" "A" (-1) (V3 1 0 0) "P";
          mkAtom (-1) "C1'" "DA" "A" (-1) (V3 0 1 0) "C"]);
   ("C", [mkAtom (-1) "P" "DC" "A" (-1) (V3 1 0 0) "P"]);
   ("G", [mkAtom (-1) "P" "DG" "A" (-1) (V3 1 0 0) "P"]);
   ("T", [mkAtom (-1) "P" "DT" "A" (-1) (V3 1 0 0) "P"])]%string.

Definition sample_reverse : dict (list Atom) :=
  [("A", [mkAtom (-1) "P" "DA" "A" (-1) (V3 0 0 1) "P"]);
   ("C", [mkAtom (-1) "P" "DC" "A" (-1) (V3 0 0 1) "P"]);
   ("G", [mkAtom (-1) "P" "DG" "A" (-1) (V3 0 0 1) "P"]);
   ("T", [mkAtom (-1) "P" "DT" "A" (-1) (V3 0 0 1) "P"])]%string.

(** The scaffold with frames at its first and last base: the first has the
    letter a, the second has no frame and the letter N, the third has the
    letter X. *)
Definition sample_strand : AtomicStructureStrand :=
  mkStrand sample_scaffold 0 [base1; base2; base3] false true
           [true; false; false] ["a"; "N"; "X"]%string
           [Some I3; None; Some I3]
           [Some (V3 1 2 3); None; Some (V3 4 5 6)] "sc.0.0".

(** The scaffold with a frame at its last two bases only. *)
Definition sample_tail_strand : AtomicStructureStrand :=
  mkStrand sample_scaffold 0 [base1; base2; base3] false true
           [false; true; true] ["A"; "C"; "G"]%string
           [None; Some I3; Some I3]
           [None; Some (V3 1 2 3); Some (V3 4 5 6)] "sc.0.0".

(** The arrays of a circular strand with a run of one base between two
    frames. *)
Definition sample_bulge : Dof :=
  mkDof [Some I3; None; Some I3]
        [Some (V3 0 0 0); None; Some (V3 3 0 0)]
        [true; false; true].

(** One run of the atom assembler over the strand [sample_strand], and one
    run of [_generate_atoms] over two strands. *)
Definition sample_assembly : Res (Molecule * Z) * list log_record :=
  _create_atoms_from_strand (base_connectivity sample_dna) sample_strand
                            sample_forward sample_reverse 1 [].

Definition sample_generation : Res (list Molecule) * list log_record :=
  _generate_atoms sample_pdb (base_connectivity sample_dna)
                  [sample_strand; sample_tail_strand] [].

Definition result_of {A : Type} (default : A) (r : Res A) : A :=
  match r with Ok a => a | Err _ => default end.

(** An object that holds one molecule of two atoms. *)
Definition sample_generated : AtomicStructure :=
  set_molecules sample_self
    [fold_left add_atom
       [mkAtom 1 "P" "DA" "sc.0.0" 1 (V3 1 5 (-2)) "P";
        mkAtom 2 "C1'" "DA" "sc.0.0" 1 (V3 (-3) 7 4) "C"]
       (Molecule_init 0)].

(** The arrays of a circular strand whose first and last base have no
    frame: the run without frames wraps around the origin. *)
Definition sample_wrap : Dof :=
  mkDof [None; Some I3; None]
        [None; Some (V3 0 0 0); None]
        [false; true; false].

(** * Properties *)

Unset Implicit Arguments.
(** ** Python lists *)

Lemma len_nonneg {A : Type} (l : list A) : (0 <= len l)%Z.
Proof. unfold len; lia. Qed.

Lemma len_nil {A : Type} : len (@nil A) = 0%Z.
Proof. reflexivity. Qed.

Lemma len_cons {A : Type} (a : A) (l : list A) : len (a :: l) = (1 + len l)%Z.
Proof. unfold len. cbn [List.length]. lia. Qed.

Lemma len_app {A : Type} (l1 l2 : list A) :
  len (l1 ++ l2) = (len l1 + len l2)%Z.
Proof. unfold len. rewrite length_app. lia. Qed.

Lemma py_index_nat {A : Type} (l : list A) (k : nat) :
  (k < List.length l)%nat -> py_index l (Z.of_nat k) = Ok k.
Proof.
  intros H. unfold py_index, len.
  replace ((0 <=? Z.of_nat k)%Z) with true by (symmetry; apply Z.leb_le; lia).
  replace ((Z.of_nat k <? Z.of_nat (List.length l))%Z) with true
    by (symmetry; apply Z.ltb_lt; lia).
  simpl. now rewrite Nat2Z.id.
Qed.

Lemma py_index_bound {A : Type} (l : list A) (i : Z) (k : nat) :
  py_index l i = Ok k -> (k < List.length l)%nat.
Proof.
  unfold py_index, len.
  destruct ((0 <=? i)%Z && (i <? Z.of_nat (List.length l))%Z) eqn:E1.
  - apply andb_prop in E1 as [H1 H2].
    apply Z.leb_le in H1. apply Z.ltb_lt in H2.
    intros [= <-]. lia.
  - destruct ((- Z.of_nat (List.length l) <=? i)%Z && (i <? 0)%Z) eqn:E2;
      [|discriminate].
    apply andb_prop in E2 as [H1 H2].
    apply Z.leb_le in H1. apply Z.ltb_lt in H2.
    intros [= <-]. lia.
Qed.

Lemma py_index_nonneg {A : Type} (l : list A) (i : Z) (k : nat) :
  (0 <= i)%Z -> py_index l i = Ok k -> i = Z.of_nat k.
Proof.
  intros Hi. unfold py_index.
  destruct ((0 <=? i)%Z && (i <? len l)%Z) eqn:E1.
  - intros [= <-]. lia.
  - replace ((i <? 0)%Z) with false by (symmetry; apply Z.ltb_ge; lia).
    rewrite andb_false_r. discriminate.
Qed.

Lemma py_index_out {A : Type} (l : list A) (i : Z) :
  (len l <= i)%Z -> py_index l i = Err IndexError.
Proof.
  intros H. pose proof (len_nonneg l). unfold py_index.
  replace ((i <? len l)%Z) with false by (symmetry; apply Z.ltb_ge; lia).
  replace ((i <? 0)%Z) with false by (symmetry; apply Z.ltb_ge; lia).
  now rewrite !andb_false_r.
Qed.

Lemma py_get_nat {A : Type} (l : list A) (k : nat) (a : A) :
  nth_error l k = Some a -> py_get l (Z.of_nat k) = Ok a.
Proof.
  intros H. unfold py_get.
  rewrite py_index_nat by (apply nth_error_Some; congruence).
  simpl. now rewrite H.
Qed.

Lemma py_get_inv {A : Type} (l : list A) (i : Z) (a : A) :
  py_get l i = Ok a ->
  exists k, py_index l i = Ok k /\ nth_error l k = Some a.
Proof.
  unfold py_get. destruct (py_index l i) as [k|e]; simpl; [|discriminate].
  destruct (nth_error l k) eqn:E; [|discriminate].
  intros [= <-]. eauto.
Qed.

Lemma py_get_last {A : Type} (l : list A) (a : A) :
  py_get (l ++ [a]) (-1) = Ok a.
Proof.
  unfold py_get, py_index, len. rewrite length_app. simpl.
  replace ((- Z.of_nat (List.length l + 1) <=? -1)%Z) with true
    by (symmetry; apply Z.leb_le; lia).
  simpl.
  replace (Z.to_nat (Z.of_nat (List.length l + 1) + -1)) with (List.length l)
    by lia.
  now rewrite nth_error_app2, Nat.sub_diag by lia.
Qed.

Lemma py_set_nat {A : Type} (l : list A) (k : nat) (a : A) :
  (k < List.length l)%nat -> py_set l (Z.of_nat k) a = Ok (set_nth l k a).
Proof. intros H. unfold py_set. now rewrite py_index_nat. Qed.

Lemma length_set_nth {A : Type} (l : list A) (k : nat) (a : A) :
  List.length (set_nth l k a) = List.length l.
Proof.
  revert k. induction l as [|h t IH]; intros [|k]; simpl; auto.
Qed.

Lemma nth_error_set_nth_eq {A : Type} (l : list A) (k : nat) (a : A) :
  (k < List.length l)%nat -> nth_error (set_nth l k a) k = Some a.
Proof.
  revert k. induction l as [|h t IH]; intros [|k] H; simpl in *;
    try lia; auto.
  apply IH. lia.
Qed.

Lemma nth_error_set_nth_neq {A : Type} (l : list A) (k j : nat) (a : A) :
  j <> k -> nth_error (set_nth l k a) j = nth_error l j.
Proof.
  revert k j. induction l as [|h t IH]; intros [|k] [|j] H; simpl;
    try congruence; auto.
Qed.

Lemma py_set_length {A : Type} (l l' : list A) (i : Z) (a : A) :
  py_set l i a = Ok l' -> List.length l' = List.length l.
Proof.
  unfold py_set. destruct (py_index l i); simpl; [|discriminate].
  intros [= <-]. apply length_set_nth.
Qed.

Lemma range_nat (n : nat) : range (Z.of_nat n) = map Z.of_nat (seq 0 n).
Proof. unfold range. now rewrite Nat2Z.id. Qed.

Lemma range_len {A : Type} (l : list A) :
  range (len l) = map Z.of_nat (seq 0 (List.length l)).
Proof. apply range_nat. Qed.

Lemma in_range (n i : Z) : In i (range n) <-> (0 <= i < n)%Z.
Proof.
  unfold range. rewrite in_map_iff. split.
  - intros (k & <- & Hk). apply in_seq in Hk. lia.
  - intros H. exists (Z.to_nat i). split; [lia|]. apply in_seq. lia.
Qed.

(** ** Loops *)

Lemma for_in_app {S X : Type} (xs ys : list X) (body : X -> M S unit) (s : S) :
  for_in (xs ++ ys) body s =
  match for_in xs body s with
  | (Ok _, s') => for_in ys body s'
  | (Err e, s') => (Err e, s')
  end.
Proof.
  revert s. induction xs as [|x xs IH]; intros s; simpl.
  - reflexivity.
  - unfold sbind. destruct (body x s) as [[[]|e] s']; auto.
Qed.

(** An invariant of the body holds after a loop that ends normally. *)
Lemma for_in_invariant {S X : Type} (P : S -> Prop) (xs : list X)
    (body : X -> M S unit) :
  (forall x s s', In x xs -> P s -> body x s = (Ok tt, s') -> P s') ->
  forall s s', P s -> for_in xs body s = (Ok tt, s') -> P s'.
Proof.
  induction xs as [|x xs IH]; intros Hbody s s' Hs; simpl.
  - unfold ret. intros [= <-]. exact Hs.
  - unfold sbind. destruct (body x s) as [[[]|e] s1] eqn:E; [|discriminate].
    apply IH.
    + intros y t t' Hy. apply Hbody. now right.
    + eapply Hbody; eauto. now left.
Qed.

(** A loop whose body always ends normally ends normally. *)
Lemma for_in_total {S X : Type} (P : S -> Prop) (xs : list X)
    (body : X -> M S unit) :
  (forall x s, In x xs -> P s -> exists s', body x s = (Ok tt, s') /\ P s') ->
  forall s, P s -> exists s', for_in xs body s = (Ok tt, s') /\ P s'.
Proof.
  induction xs as [|x xs IH]; intros Hbody s Hs; simpl.
  - exists s. now split.
  - unfold sbind.
    destruct (Hbody x s (or_introl eq_refl) Hs) as (s1 & E & Hs1).
    rewrite E. apply IH; auto.
    intros y t Hy. apply Hbody. now right.
Qed.

(** ** The atom assembler: atom identities *)

Lemma atoms_add_atom (m : Molecule) (a : Atom) :
  atoms (add_atom m a) = atoms m ++ [a].
Proof. reflexivity. Qed.

Lemma ids_from_snoc (id0 : Z) (l : list Atom) (a : Atom) :
  ids_from id0 l -> atom_id a = (id0 + len l)%Z -> ids_from id0 (l ++ [a]).
Proof.
  unfold ids_from, len. intros H Ha.
  rewrite map_app, length_app, H. simpl.
  rewrite seq_app, map_app. simpl. now rewrite Ha.
Qed.

Lemma map_seq_offset {B : Type} (f : nat -> B) (a n : nat) :
  map f (seq a n) = map (fun k => f (a + k)%nat) (seq 0 n).
Proof.
  revert a. induction n as [|n IH]; intros a; simpl.
  - reflexivity.
  - rewrite Nat.add_0_r. f_equal.
    rewrite IH, <- (seq_shift n 0), map_map. apply map_ext. intros k.
    f_equal. lia.
Qed.

Lemma ids_from_app (id0 : Z) (l1 l2 : list Atom) :
  ids_from id0 l1 -> ids_from (id0 + len l1) l2 -> ids_from id0 (l1 ++ l2).
Proof.
  unfold ids_from, len. intros H1 H2.
  rewrite map_app, length_app, H1, H2, seq_app, map_app. f_equal.
  simpl. rewrite (map_seq_offset _ (List.length l1)).
  apply map_ext. intros k. lia.
Qed.

Lemma place_atom_ids (strand : AtomicStructureStrand) (R : mat3)
    (D : ndarray1) (i : Z) (template : Atom) (id0 : Z) (st st' : Asm) :
  ids_invariant id0 st ->
  place_atom strand R D i template st = (Ok tt, st') ->
  ids_invariant id0 st'.
Proof.
  intros [H1 H2]. unfold place_atom, sbind, get, put, lift.
  destruct D as [d|]; simpl; [|discriminate].
  intros [= <-]. unfold ids_invariant. simpl. split.
  - apply ids_from_snoc; auto.
  - rewrite H2. unfold len. rewrite length_app. simpl. lia.
Qed.

Lemma create_atoms_for_base_ids (strand : AtomicStructureStrand)
    (fwd rev : dict (list Atom)) (Ry180 : mat3) (i id0 : Z) (st st' : Asm) :
  ids_invariant id0 st ->
  create_atoms_for_base strand fwd rev Ry180 i st = (Ok tt, st') ->
  ids_invariant id0 st'.
Proof.
  intros Hst. unfold create_atoms_for_base, sbind, lift.
  destruct (py_get (rotations strand) i) as [[Rb|]|e]; try discriminate.
  - destruct (py_get (strand_seq strand) i) as [letter|e]; [|discriminate].
    destruct (negb (dict_mem fwd (upper letter))).
    + unfold warn. intros [= <-]. exact Hst.
    + destruct (py_get (translations strand) i) as [D|e]; [|discriminate].
      destruct (py_get (is_main strand) i) as [main|e]; [|discriminate].
      destruct (if main then dict_item fwd (upper letter)
                else dict_item rev (upper letter)) as [tpl|e];
        [|discriminate].
      apply for_in_invariant; auto.
      intros a s s' _ Hs. now apply place_atom_ids.
  - unfold ret. intros [= <-]. exact Hst.
Qed.

Lemma create_atoms_from_strand_ids (base_conn : list DnaBase)
    (strand : AtomicStructureStrand) (fwd rev : dict (list Atom))
    (id0 id1 : Z) (log log' : list log_record) (mol : Molecule) :
  _create_atoms_from_strand base_conn strand fwd rev id0 log
  = (Ok (mol, id1), log') ->
  ids_from id0 (atoms mol) /\ id1 = (id0 + len (atoms mol))%Z.
Proof.
  unfold _create_atoms_from_strand.
  destruct (bind _ _) as [base|e]; [|discriminate].
  destruct (for_in _ _ _) as [[[]|e] st'] eqn:E; [|discriminate].
  intros [= <- <- _].
  eapply (for_in_invariant (ids_invariant id0)) in E; eauto.
  - intros x s s' _. apply create_atoms_for_base_ids.
  - unfold ids_invariant, ids_from, len. simpl. split; [reflexivity | lia].
Qed.

Lemma generate_atoms_loop_ids (base_conn : list DnaBase)
    (fwd rev : dict (list Atom)) (strands : list AtomicStructureStrand) :
  forall (id0 : Z) (acc mols : list Molecule) (log log' : list log_record),
    ids_from 1 (flat_map atoms acc) ->
    id0 = (1 + len (flat_map atoms acc))%Z ->
    generate_atoms_loop base_conn strands fwd rev id0 acc log
    = (Ok mols, log') ->
    ids_from 1 (flat_map atoms mols).
Proof.
  induction strands as [|s rest IH]; intros id0 acc mols log log' Hacc Hid;
    simpl.
  - unfold ret. intros [= <- _]. exact Hacc.
  - unfold sbind.
    destruct (_create_atoms_from_strand _ _ _ _ _ _) as [[[mol id1]|e] log1]
      eqn:E; [|discriminate].
    apply create_atoms_from_strand_ids in E as [H1 H2]. cbn [fst snd].
    apply IH.
    + rewrite flat_map_app. cbn [flat_map]. rewrite app_nil_r.
      apply ids_from_app; auto. now rewrite <- Hid.
    + rewrite flat_map_app. cbn [flat_map]. rewrite app_nil_r.
      unfold len in *. rewrite length_app. lia.
Qed.

(** C3.  The identities of the atoms of one run of [_generate_atoms], in the
    order of emission across all the strands, are 1, 2, 3, ...: strictly
    increasing, without duplicates and without gaps, from one counter that
    starts at 1 and is not reset between strands. *)
Theorem generate_atoms_ids_consecutive (pdb : string -> Res (list Atom))
    (base_conn : list DnaBase) (strands : list AtomicStructureStrand)
    (log log' : list log_record) (mols : list Molecule) :
  _generate_atoms pdb base_conn strands log = (Ok mols, log') ->
  map atom_id (flat_map atoms mols)
  = map Z.of_nat (seq 1 (List.length (flat_map atoms mols))).
Proof.
  unfold _generate_atoms, sbind, lift.
  destruct (_read_template pdb _) as [AT|e]; [|discriminate].
  destruct (_read_template pdb _) as [GC|e]; [|discriminate].
  destruct (_read_template pdb _) as [CG|e]; [|discriminate].
  destruct (_read_template pdb _) as [TA|e]; [|discriminate].
  intros H. apply generate_atoms_loop_ids in H.
  - unfold ids_from in H. rewrite H.
    rewrite (map_seq_offset _ 1). apply map_ext. intros k. lia.
  - reflexivity.
  - reflexivity.
Qed.

(** ** The atom assembler: what each base contributes *)

Lemma atoms_fold_add_atom (l : list Atom) (m : Molecule) :
  atoms (fold_left add_atom l m) = atoms m ++ l.
Proof.
  revert m. induction l as [|a l IH]; intros m; simpl.
  - now rewrite app_nil_r.
  - rewrite IH. simpl. now rewrite <- app_assoc.
Qed.

Lemma length_place_all (chain : string) (R : mat3) (D : vec3) (i : Z)
    (tpl : list Atom) :
  forall id, List.length (place_all chain R D i id tpl) = List.length tpl.
Proof. induction tpl as [|a t IH]; intros id; simpl; auto. Qed.

Lemma place_all_residue (chain : string) (R : mat3) (D : vec3) (i : Z)
    (tpl : list Atom) :
  forall id a, In a (place_all chain R D i id tpl) ->
               res_seq_num a = (i + 1)%Z.
Proof.
  induction tpl as [|t tpl IH]; intros id a; simpl.
  - tauto.
  - intros [<-|H]; [reflexivity|eauto].
Qed.

Lemma place_all_coords (chain : string) (R : mat3) (D : vec3) (i : Z)
    (tpl : list Atom) :
  forall id, map coords (place_all chain R D i id tpl)
             = map (fun a => vadd (mvec R (coords a)) D) tpl.
Proof. induction tpl as [|t tpl IH]; intros id; simpl; [|rewrite IH]; auto. Qed.

(** The loop over the atoms of a reference structure. *)
Lemma place_loop_inv (strand : AtomicStructureStrand) (R : mat3)
    (D : ndarray1) (i : Z) (tpl : list Atom) :
  forall st st',
    for_in tpl (place_atom strand R D i) st = (Ok tt, st') ->
    exists d, (D = Some d \/ tpl = []) /\
      st' = mkAsm (fold_left add_atom
                     (place_all (strand_chainID strand) R d i
                                (first_atomID_out st) tpl)
                     (molecule st))
                  (first_atomID_out st + len tpl) (asm_log st).
Proof.
  induction tpl as [|a tpl IH]; intros st st'; simpl.
  - unfold ret. intros [= <-]. exists zeros3. split; [now right|].
    destruct st. simpl. rewrite len_nil. f_equal. lia.
  - unfold sbind at 1. unfold place_atom, sbind, get, put, lift.
    destruct D as [d|]; simpl; [|discriminate].
    intros H. apply IH in H as (d' & [Hd|Ht] & ->); simpl.
    + injection Hd as <-. exists d. split; [now left|].
      rewrite len_cons. f_equal; try reflexivity; lia.
    + exists d. split; [now left|]. subst tpl.
      rewrite len_cons. f_equal; try reflexivity; lia.
Qed.

Lemma place_loop_total (strand : AtomicStructureStrand) (R : mat3)
    (d : vec3) (i : Z) (tpl : list Atom) :
  forall st, exists st',
    for_in tpl (place_atom strand R (Some d) i) st = (Ok tt, st').
Proof.
  induction tpl as [|a tpl IH]; intros st; simpl.
  - eexists. reflexivity.
  - unfold sbind at 1. unfold place_atom, sbind, get, put, lift. simpl.
    apply IH.
Qed.

(** The cases of the body of the loop over the bases, when it ends
    normally. *)
Lemma create_atoms_for_base_inv (strand : AtomicStructureStrand)
    (fwd rev : dict (list Atom)) (Ry180 : mat3) (i : Z) (st st' : Asm) :
  create_atoms_for_base strand fwd rev Ry180 i st = (Ok tt, st') ->
  exists strand_R, py_get (rotations strand) i = Ok strand_R /\
    match strand_R with
    | None => st' = st
    | Some Rb =>
        exists letter, py_get (strand_seq strand) i = Ok letter /\
          if dict_mem fwd (upper letter) then
            exists D main tpl d,
              py_get (translations strand) i = Ok D /\
              py_get (is_main strand) i = Ok main /\
              dict_item (if main then fwd else rev) (upper letter) = Ok tpl /\
              (D = Some d \/ tpl = []) /\
              st' = mkAsm (fold_left add_atom
                             (place_all (strand_chainID strand)
                                        (mmul Rb Ry180) d i
                                        (first_atomID_out st) tpl)
                             (molecule st))
                          (first_atomID_out st + len tpl) (asm_log st)
          else
            st' = mkAsm (molecule st) (first_atomID_out st)
                        (asm_log st ++ [WarnBaseNotFound i (upper letter)])
    end.
Proof.
  unfold create_atoms_for_base, sbind, lift.
  destruct (py_get (rotations strand) i) as [[Rb|]|e]; try discriminate.
  - intros H. eexists. split; [reflexivity|].
    destruct (py_get (strand_seq strand) i) as [letter|e]; [|discriminate].
    exists letter. split; [reflexivity|].
    destruct (dict_mem fwd (upper letter)); simpl in H.
    + destruct (py_get (translations strand) i) as [D|e]; [|discriminate].
      destruct (py_get (is_main strand) i) as [main|e]; [|discriminate].
      destruct (if main then dict_item fwd (upper letter)
                else dict_item rev (upper letter)) as [tpl|e] eqn:E;
        [|discriminate].
      apply place_loop_inv in H as (d & Hd & ->).
      exists D, main, tpl, d. repeat split; auto.
      now destruct main.
    + unfold warn in H. now injection H as <-.
  - unfold ret. intros [= <-]. eexists. split; reflexivity.
Qed.

(** What the body adds to the molecule. *)
Lemma create_atoms_for_base_adds (strand : AtomicStructureStrand)
    (fwd rev : dict (list Atom)) (Ry180 : mat3) (i : Z) (st st' : Asm) :
  create_atoms_for_base strand fwd rev Ry180 i st = (Ok tt, st') ->
  exists new,
    atoms (molecule st') = atoms (molecule st) ++ new /\
    (forall a, In a new -> res_seq_num a = (i + 1)%Z) /\
    (py_get (rotations strand) i = Ok None -> new = []) /\
    (List.length new <= templateAtomCount fwd rev)%nat.
Proof.
  intros H. apply create_atoms_for_base_inv in H as (sR & HR & H).
  destruct sR as [Rb|].
  - destruct H as (letter & Hl & H).
    destruct (dict_mem fwd (upper letter)).
    + destruct H as (D & main & tpl & d & HD & Hm & Ht & _ & ->). simpl.
      eexists. split; [apply atoms_fold_add_atom|]. repeat split.
      * apply place_all_residue.
      * rewrite HR. discriminate.
      * rewrite length_place_all.
        assert (Hmax : forall dd k v, dict_item dd k = Ok v ->
                  (List.length (v : list Atom) <= dict_max_len dd)%nat).
        { clear. intros dd k v. unfold dict_item.
          induction dd as [|[k' v'] dd IH]; simpl; [discriminate|].
          destruct (String.eqb k k').
          - intros [= <-]. lia.
          - intros Hv. specialize (IH Hv). lia. }
        unfold templateAtomCount. destruct main; apply Hmax in Ht; lia.
    + subst st'. simpl. exists []. rewrite app_nil_r.
      repeat split; simpl; auto; try tauto. lia.
  - subst st'. exists []. rewrite app_nil_r.
    repeat split; simpl; auto; try tauto. lia.
Qed.

Lemma residue_atoms_app (r : Z) (l1 l2 : list Atom) :
  residue_atoms r (l1 ++ l2) = residue_atoms r l1 ++ residue_atoms r l2.
Proof. apply filter_app. Qed.

Lemma residue_atoms_all (r : Z) (l : list Atom) :
  (forall a, In a l -> res_seq_num a = r) -> residue_atoms r l = l.
Proof.
  induction l as [|a l IH]; intros H; simpl; auto.
  rewrite (H a (or_introl eq_refl)), Z.eqb_refl. f_equal.
  apply IH. intros b Hb. apply H. now right.
Qed.

Lemma residue_atoms_none (r : Z) (l : list Atom) :
  (forall a, In a l -> res_seq_num a <> r) -> residue_atoms r l = [].
Proof.
  induction l as [|a l IH]; intros H; simpl; auto.
  destruct (Z.eqb_spec (res_seq_num a) r) as [E|E].
  - exfalso. apply (H a); auto. now left.
  - apply IH. intros b Hb. apply H. now right.
Qed.

Lemma filter_length_le {A : Type} (f : A -> bool) (l : list A) :
  (List.length (filter f l) <= List.length l)%nat.
Proof. induction l as [|a l IH]; simpl; [|destruct (f a); simpl]; lia. Qed.

Lemma filter_length_lt {A : Type} (f : A -> bool) (l : list A) (x : A) :
  In x l -> f x = false -> (List.length (filter f l) < List.length l)%nat.
Proof.
  induction l as [|a l IH]; simpl; [tauto|].
  intros [->|H] Hx.
  - rewrite Hx. pose proof (filter_length_le f l). lia.
  - specialize (IH H Hx). destruct (f a); simpl; lia.
Qed.

(** What the loop over the bases adds to the molecule and to the log. *)
Lemma create_atoms_loop_adds (strand : AtomicStructureStrand)
    (fwd rev : dict (list Atom)) (Ry180 : mat3) (xs : list Z) :
  forall st st',
    for_in xs (create_atoms_for_base strand fwd rev Ry180) st = (Ok tt, st') ->
    exists new w,
      atoms (molecule st') = atoms (molecule st) ++ new /\
      asm_log st' = asm_log st ++ w /\
      (forall a, In a new ->
         exists x, In x xs /\ res_seq_num a = (x + 1)%Z /\
                   has_frame strand x = true) /\
      (List.length new
       <= templateAtomCount fwd rev
          * List.length (filter (has_frame strand) xs))%nat.
Proof.
  induction xs as [|x xs IH]; intros st st'; simpl.
  - unfold ret. intros [= <-]. exists [], []. rewrite !app_nil_r.
    repeat split; auto; simpl; try tauto. lia.
  - unfold sbind.
    destruct (create_atoms_for_base strand fwd rev Ry180 x st)
      as [[[]|e] s1] eqn:E; [|discriminate].
    intros H. apply IH in H as (new2 & w2 & Ha2 & Hw2 & Hr2 & Hc2).
    pose proof (create_atoms_for_base_adds _ _ _ _ _ _ _ E)
      as (new1 & Ha1 & Hr1 & Hn1 & Hc1).
    assert (Hw1 : exists w1, asm_log s1 = asm_log st ++ w1).
    { apply create_atoms_for_base_inv in E as (sR & _ & E).
      destruct sR as [Rb|]; [|subst; exists []; now rewrite app_nil_r].
      destruct E as (letter & _ & E).
      destruct (dict_mem fwd (upper letter)).
      - destruct E as (? & ? & ? & ? & _ & _ & _ & _ & ->).
        exists []. now rewrite app_nil_r.
      - subst. eexists. reflexivity. }
    destruct Hw1 as (w1 & Hw1).
    exists (new1 ++ new2), (w1 ++ w2).
    rewrite Ha2, Ha1, Hw2, Hw1, !app_assoc. repeat split; auto.
    + intros a Ha. apply in_app_or in Ha as [Ha|Ha].
      * exists x. split; [now left|]. split; [now apply Hr1|].
        unfold has_frame.
        destruct (py_get (rotations strand) x) as [[Rb|]|e] eqn:ER; auto.
        -- rewrite Hn1 in Ha by reflexivity. destruct Ha.
        -- apply create_atoms_for_base_inv in E as (sR & HR & _).
           congruence.
      * destruct (Hr2 a Ha) as (y & Hy & H1 & H2). exists y. auto.
    + rewrite length_app.
      destruct (has_frame strand x) eqn:F; cbn [List.length].
      * rewrite Nat.mul_succ_r. lia.
      * assert (new1 = []) as ->.
        { apply Hn1. unfold has_frame in F.
          apply create_atoms_for_base_inv in E as (sR & HR & _).
          rewrite HR in *. now destruct sR. }
        simpl. lia.
Qed.

(** The loop over the bases ends normally when the arrays of the strand are
    well formed. *)
Lemma create_atoms_loop_total (strand : AtomicStructureStrand)
    (fwd rev : dict (list Atom)) (Ry180 : mat3) (xs : list Z) :
  wf_strand strand ->
  templates_paired fwd rev ->
  (forall x, In x xs -> (0 <= x < len (tour strand))%Z) ->
  forall st, exists st',
    for_in xs (create_atoms_for_base strand fwd rev Ry180) st = (Ok tt, st').
Proof.
  intros (Lr & Lt & Lm & Ls & Hfr) Hp Hxs st.
  destruct (for_in_total (fun _ => True) xs
              (create_atoms_for_base strand fwd rev Ry180)) with (s := st)
    as (st' & E & _); auto; [|eauto].
  clear st. intros x st Hx _. apply Hxs in Hx. unfold len in Hx.
  assert (Hk : x = Z.of_nat (Z.to_nat x)) by lia.
  assert (Hlt : (Z.to_nat x < List.length (tour strand))%nat) by lia.
  revert Hk Hlt. generalize (Z.to_nat x) as k. intros k -> Hlt.
  unfold create_atoms_for_base, sbind, lift.
  destruct (nth_error (rotations strand) k) as [sR|] eqn:ER;
    [|apply nth_error_None in ER; lia].
  rewrite (py_get_nat _ _ _ ER).
  destruct sR as [Rb|]; [|eexists; split; [reflexivity|auto]].
  destruct (nth_error (strand_seq strand) k) as [letter|] eqn:EL;
    [|apply nth_error_None in EL; lia].
  rewrite (py_get_nat _ _ _ EL).
  destruct (dict_mem fwd (upper letter)) eqn:EM; simpl;
    [|eexists; split; [reflexivity|auto]].
  destruct (Hfr k Rb ER) as (d & ED).
  rewrite (py_get_nat _ _ _ ED).
  destruct (nth_error (is_main strand) k) as [main|] eqn:EI;
    [|apply nth_error_None in EI; lia].
  rewrite (py_get_nat _ _ _ EI).
  assert (HT : exists tpl,
             (if main then dict_item fwd (upper letter)
              else dict_item rev (upper letter)) = Ok tpl).
  { destruct main.
    - unfold dict_item. unfold dict_mem in EM.
      destruct (dict_get fwd (upper letter)); [eauto|discriminate].
    - apply Hp in EM. unfold dict_item. unfold dict_mem in EM.
      destruct (dict_get rev (upper letter)); [eauto|discriminate]. }
  destruct HT as (tpl & ->).
  destruct (place_loop_total strand (mmul Rb Ry180) d (Z.of_nat k) tpl st)
    as (st' & E).
  exists st'. split; auto.
Qed.

Lemma create_atoms_from_strand_total (base_conn : list DnaBase)
    (strand : AtomicStructureStrand) (fwd rev : dict (list Atom))
    (id0 : Z) (log : list log_record) :
  wf_strand strand ->
  first_base_known base_conn strand ->
  templates_paired fwd rev ->
  exists mol id1 log',
    _create_atoms_from_strand base_conn strand fwd rev id0 log
    = (Ok (mol, id1), log').
Proof.
  intros Hwf (first & base & H1 & H2) Hp.
  unfold _create_atoms_from_strand. rewrite H1. simpl. rewrite H2.
  match goal with |- context [for_in ?xs ?b ?s] =>
    destruct (@create_atoms_loop_total strand fwd rev (_Ry 180) xs Hwf Hp)
      with (st := s) as (st' & E)
  end.
  - intros x. apply in_range.
  - rewrite E. eauto.
Qed.

(** The parts of the result of [_create_atoms_from_strand]. *)
Lemma create_atoms_from_strand_inv (base_conn : list DnaBase)
    (strand : AtomicStructureStrand) (fwd rev : dict (list Atom))
    (id0 id1 : Z) (log log' : list log_record) (mol : Molecule) :
  _create_atoms_from_strand base_conn strand fwd rev id0 log
  = (Ok (mol, id1), log') ->
  exists st',
    for_in (range (len (tour strand)))
           (create_atoms_for_base strand fwd rev (_Ry 180))
           (mkAsm (Molecule_init (strand_id strand)) id0 log) = (Ok tt, st') /\
    mol = molecule st' /\ id1 = first_atomID_out st' /\ log' = asm_log st'.
Proof.
  unfold _create_atoms_from_strand.
  destruct (bind _ _) as [base|e]; [|discriminate].
  destruct (for_in _ _ _) as [[[]|e] st'] eqn:E; [|discriminate].
  intros [= <- <- <-]. exists st'. auto.
Qed.

Lemma seq_split (k n : nat) :
  (k < n)%nat -> seq 0 n = seq 0 k ++ k :: seq (S k) (n - S k).
Proof.
  intros H. replace n with (k + S (n - S k))%nat at 1 by lia.
  rewrite seq_app. reflexivity.
Qed.

(** The loop over the bases, cut at the base [k]: the bases before it, the
    base itself, the bases after it. *)
Lemma create_atoms_loop_at (strand : AtomicStructureStrand)
    (fwd rev : dict (list Atom)) (Ry180 : mat3) (k : nat) (st st' : Asm) :
  (k < List.length (tour strand))%nat ->
  for_in (range (len (tour strand)))
         (create_atoms_for_base strand fwd rev Ry180) st = (Ok tt, st') ->
  exists s1 s2 before after w,
    create_atoms_for_base strand fwd rev Ry180 (Z.of_nat k) s1 = (Ok tt, s2) /\
    atoms (molecule s1) = atoms (molecule st) ++ before /\
    atoms (molecule st') = atoms (molecule s2) ++ after /\
    asm_log st' = asm_log s2 ++ w /\
    (forall a, In a before -> res_seq_num a <> (Z.of_nat k + 1)%Z) /\
    (forall a, In a after -> res_seq_num a <> (Z.of_nat k + 1)%Z).
Proof.
  intros Hk. rewrite range_len, (seq_split _ _ Hk), map_app, for_in_app.
  destruct (for_in (map Z.of_nat (seq 0 k)) _ st) as [[[]|e] s1] eqn:E1;
    [|discriminate].
  cbn [map for_in]. unfold sbind at 1.
  destruct (create_atoms_for_base strand fwd rev Ry180 (Z.of_nat k) s1)
    as [[[]|e] s2] eqn:E2; [|discriminate].
  intros E3.
  apply create_atoms_loop_adds in E1 as (before & w1 & Hb & _ & Hrb & _).
  apply create_atoms_loop_adds in E3 as (after & w & Ha & Hw & Hra & _).
  exists s1, s2, before, after, w. repeat split; auto.
  - intros a Hin. destruct (Hrb a Hin) as (x & Hx & -> & _).
    apply in_map_iff in Hx as (j & <- & Hj). apply in_seq in Hj. lia.
  - intros a Hin. destruct (Hra a Hin) as (x & Hx & -> & _).
    apply in_map_iff in Hx as (j & <- & Hj). apply in_seq in Hj. lia.
Qed.

(** C6.  For a base with a resolved frame and a known sequence letter, the
    atoms of its residue in the molecule of the strand are the atoms of the
    forward template of the letter when [is_main] is true and of the reverse
    template when it is false, each placed at
    [(baseRotation . Ry(180)) . templateCoordinate + baseTranslation]. *)
Theorem assembler_places_template (base_conn : list DnaBase)
    (strand : AtomicStructureStrand) (fwd rev : dict (list Atom))
    (id0 id1 : Z) (log log' : list log_record) (mol : Molecule)
    (k : nat) (Rb : mat3) (D : vec3) (letter : string) (main : bool) :
  _create_atoms_from_strand base_conn strand fwd rev id0 log
  = (Ok (mol, id1), log') ->
  (k < List.length (tour strand))%nat ->
  nth_error (rotations strand) k = Some (Some Rb) ->
  nth_error (translations strand) k = Some (Some D) ->
  nth_error (strand_seq strand) k = Some letter ->
  nth_error (is_main strand) k = Some main ->
  dict_mem fwd (upper letter) = true ->
  exists template id,
    dict_get (if main then fwd else rev) (upper letter) = Some template /\
    residue_atoms (Z.of_nat k + 1) (atoms mol)
    = place_all (strand_chainID strand) (mmul Rb (_Ry 180)) D (Z.of_nat k) id
                template /\
    map coords (residue_atoms (Z.of_nat k + 1) (atoms mol))
    = map (fun a => vadd (mvec (mmul Rb (_Ry 180)) (coords a)) D) template.
Proof.
  intros H Hk HR HD HL HM Hmem.
  apply create_atoms_from_strand_inv in H as (st' & E & -> & _ & _).
  apply create_atoms_loop_at with (k := k) in E
    as (s1 & s2 & before & after & w & E2 & Hb & Ha & _ & Hrb & Hra); auto.
  apply create_atoms_for_base_inv in E2 as (sR & HR' & E2).
  rewrite (py_get_nat _ _ _ HR) in HR'. injection HR' as <-.
  destruct E2 as (letter' & HL' & E2).
  rewrite (py_get_nat _ _ _ HL) in HL'. injection HL' as <-.
  rewrite Hmem in E2.
  destruct E2 as (D' & main' & tpl & d & HD' & HM' & Ht & Hd & ->).
  rewrite (py_get_nat _ _ _ HD) in HD'. injection HD' as <-.
  rewrite (py_get_nat _ _ _ HM) in HM'. injection HM' as <-.
  assert (Hpl : place_all (strand_chainID strand) (mmul Rb (_Ry 180)) d
                  (Z.of_nat k) (first_atomID_out s1) tpl
                = place_all (strand_chainID strand) (mmul Rb (_Ry 180)) D
                  (Z.of_nat k) (first_atomID_out s1) tpl).
  { destruct Hd as [[= <-]| ->]; reflexivity. }
  rewrite Hpl in Ha. clear Hpl Hd.
  exists tpl, (first_atomID_out s1).
  assert (Hres : residue_atoms (Z.of_nat k + 1) (atoms (molecule st'))
                 = place_all (strand_chainID strand) (mmul Rb (_Ry 180)) D
                             (Z.of_nat k) (first_atomID_out s1) tpl).
  { rewrite Ha. cbn [molecule]. rewrite atoms_fold_add_atom, Hb.
    simpl atoms. rewrite !residue_atoms_app.
    rewrite (residue_atoms_none _ _ Hrb), (residue_atoms_none _ _ Hra).
    rewrite app_nil_r. simpl.
    apply residue_atoms_all. apply place_all_residue. }
  split; [|split].
  - unfold dict_item in Ht.
    destruct (dict_get (if main then fwd else rev) (upper letter));
      congruence.
  - exact Hres.
  - rewrite Hres. apply place_all_coords.
Qed.

(** C8 (as amended).  A base with a resolved frame whose sequence letter
    does not map to a template contributes no atoms, the skip is logged, and
    the strand is generated all the same: the run does not abort. *)
Theorem unknown_letter_skipped_and_logged (base_conn : list DnaBase)
    (strand : AtomicStructureStrand) (fwd rev : dict (list Atom))
    (id0 : Z) (log : list log_record)
    (k : nat) (Rb : mat3) (letter : string) :
  wf_strand strand ->
  first_base_known base_conn strand ->
  templates_paired fwd rev ->
  nth_error (rotations strand) k = Some (Some Rb) ->
  nth_error (strand_seq strand) k = Some letter ->
  dict_mem fwd (upper letter) = false ->
  exists mol id1 log',
    _create_atoms_from_strand base_conn strand fwd rev id0 log
    = (Ok (mol, id1), log') /\
    residue_atoms (Z.of_nat k + 1) (atoms mol) = [] /\
    In (WarnBaseNotFound (Z.of_nat k) (upper letter)) log'.
Proof.
  intros Hwf Hfirst Hp HR HL Hmem.
  destruct (create_atoms_from_strand_total _ _ _ _ id0 log Hwf Hfirst Hp)
    as (mol & id1 & log' & H).
  exists mol, id1, log'. split; [exact H|].
  assert (Hk : (k < List.length (tour strand))%nat).
  { destruct Hwf as (Lr & _). rewrite <- Lr. apply nth_error_Some.
    congruence. }
  apply create_atoms_from_strand_inv in H as (st' & E & -> & _ & ->).
  apply create_atoms_loop_at with (k := k) in E
    as (s1 & s2 & before & after & w & E2 & Hb & Ha & Hw & Hrb & Hra); auto.
  apply create_atoms_for_base_inv in E2 as (sR & HR' & E2).
  rewrite (py_get_nat _ _ _ HR) in HR'. injection HR' as <-.
  destruct E2 as (letter' & HL' & E2).
  rewrite (py_get_nat _ _ _ HL) in HL'. injection HL' as <-.
  rewrite Hmem in E2. subst s2. simpl in *. split.
  - rewrite Ha, Hb. simpl. rewrite residue_atoms_app.
    now rewrite (residue_atoms_none _ _ Hrb), (residue_atoms_none _ _ Hra).
  - rewrite Hw. apply in_or_app. left. apply in_or_app. right. now left.
Qed.

(** ** Rotation matrices *)

Open Scope R_scope.

Lemma Rltb_true (x y : R) : Rltb x y = true <-> x < y.
Proof. unfold Rltb. destruct (Rlt_dec x y); split; auto; discriminate. Qed.

Lemma Rltb_false (x y : R) : Rltb x y = false <-> ~ x < y.
Proof. unfold Rltb. destruct (Rlt_dec x y); split; auto; try discriminate; tauto. Qed.

Lemma Rgtb_true (x y : R) : Rgtb x y = true <-> x > y.
Proof. unfold Rgtb. destruct (Rgt_dec x y); split; auto; discriminate. Qed.

Lemma Rgtb_false (x y : R) : Rgtb x y = false <-> ~ x > y.
Proof. unfold Rgtb. destruct (Rgt_dec x y); split; auto; try discriminate; tauto. Qed.

Lemma Rleb_true (x y : R) : Rleb x y = true <-> x <= y.
Proof. unfold Rleb. destruct (Rle_dec x y); split; auto; discriminate. Qed.

Lemma Rleb_false (x y : R) : Rleb x y = false <-> ~ x <= y.
Proof. unfold Rleb. destruct (Rle_dec x y); split; auto; try discriminate; tauto. Qed.

Lemma math_acos_ok (x : R) : -1 <= x <= 1 -> math_acos x = Ok (acos x).
Proof.
  intros [H1 H2]. unfold math_acos.
  apply Rleb_true in H1, H2. now rewrite H1, H2.
Qed.

Lemma math_acos_domain_error (x : R) :
  x < -1 \/ 1 < x -> math_acos x = Err ValueError.
Proof.
  intros H. unfold math_acos.
  destruct (Rleb (-1) x) eqn:E1; simpl; auto.
  destruct (Rleb x 1) eqn:E2; simpl; auto.
  apply Rleb_true in E1, E2. lra.
Qed.

Lemma mat3_eq (A B : mat3) :
  m00 A = m00 B -> m01 A = m01 B -> m02 A = m02 B ->
  m10 A = m10 B -> m11 A = m11 B -> m12 A = m12 B ->
  m20 A = m20 B -> m21 A = m21 B -> m22 A = m22 B -> A = B.
Proof. destruct A, B; simpl; intros; subst; reflexivity. Qed.

Lemma mmul_assoc (A B C : mat3) : mmul (mmul A B) C = mmul A (mmul B C).
Proof. apply mat3_eq; simpl; ring. Qed.

Lemma mmul_I3_l (A : mat3) : mmul I3 A = A.
Proof. apply mat3_eq; simpl; ring. Qed.

Lemma mmul_I3_r (A : mat3) : mmul A I3 = A.
Proof. apply mat3_eq; simpl; ring. Qed.

Lemma mtrans_mmul (A B : mat3) : mtrans (mmul A B) = mmul (mtrans B) (mtrans A).
Proof. apply mat3_eq; simpl; ring. Qed.

Lemma mtrans_mtrans (A : mat3) : mtrans (mtrans A) = A.
Proof. now destruct A. Qed.

Lemma mdet_mmul (A B : mat3) : mdet (mmul A B) = mdet A * mdet B.
Proof. unfold mdet; simpl; ring. Qed.

Lemma mdet_mtrans (A : mat3) : mdet (mtrans A) = mdet A.
Proof. unfold mdet; simpl; ring. Qed.

(** The equations of an orthonormal matrix of determinant 1, entry by
    entry. *)
Lemma is_rotation_eqs (a b c d e f g h i : R) :
  is_rotation (M3 a b c d e f g h i) ->
  a * a + b * b + c * c = 1 /\ d * d + e * e + f * f = 1 /\
  g * g + h * h + i * i = 1 /\
  a * d + b * e + c * f = 0 /\ a * g + b * h + c * i = 0 /\
  d * g + e * h + f * i = 0 /\
  a * (e * i - f * h) - b * (d * i - f * g) + c * (d * h - e * g) = 1.
Proof.
  intros [H1 H2]. unfold mmul, mtrans, I3 in H1. simpl in H1.
  injection H1 as E1 E2 E3 E4 E5 E6 E7 E8 E9.
  unfold mdet in H2. simpl in H2. repeat split; assumption.
Qed.

(** The transpose of a rotation is its inverse on both sides. *)
Lemma rotation_mtrans_l (A : mat3) :
  is_rotation A -> mmul (mtrans A) A = I3.
Proof.
  destruct A as [a b c d e f g h i]. intros H.
  apply is_rotation_eqs in H as (H1 & H2 & H3 & H4 & H5 & H6 & H7).
  apply mat3_eq; simpl; nsatz.
Qed.

Lemma is_rotation_mtrans (A : mat3) : is_rotation A -> is_rotation (mtrans A).
Proof.
  intros H. split.
  - rewrite mtrans_mtrans. now apply rotation_mtrans_l.
  - rewrite mdet_mtrans. apply H.
Qed.

Lemma is_rotation_mmul (A B : mat3) :
  is_rotation A -> is_rotation B -> is_rotation (mmul A B).
Proof.
  intros [HA1 HA2] [HB1 HB2]. split.
  - rewrite mtrans_mmul, mmul_assoc, <- (mmul_assoc B), HB1, mmul_I3_l.
    exact HA1.
  - rewrite mdet_mmul, HA2, HB2. ring.
Qed.

Lemma is_rotation_I3 : is_rotation I3.
Proof. split; [apply mat3_eq; simpl; ring | unfold mdet; simpl; ring]. Qed.

(** A rotation is its own matrix of cofactors, and its columns are
    orthonormal as its rows are. *)
Lemma is_rotation_cofactors (a b c d e f g h i : R) :
  is_rotation (M3 a b c d e f g h i) ->
  (e * i - f * h = a /\ f * g - d * i = b /\ d * h - e * g = c) /\
  (c * h - b * i = d /\ a * i - c * g = e /\ b * g - a * h = f) /\
  (b * f - c * e = g /\ c * d - a * f = h /\ a * e - b * d = i).
Proof.
  intros H.
  apply is_rotation_eqs in H as (H1 & H2 & H3 & H4 & H5 & H6 & H7).
  repeat split; nsatz.
Qed.

Lemma is_rotation_columns (a b c d e f g h i : R) :
  is_rotation (M3 a b c d e f g h i) ->
  a * a + d * d + g * g = 1 /\ b * b + e * e + h * h = 1 /\
  c * c + f * f + i * i = 1 /\
  a * b + d * e + g * h = 0 /\ a * c + d * f + g * i = 0 /\
  b * c + e * f + h * i = 0.
Proof.
  intros H.
  apply is_rotation_eqs in H as (H1 & H2 & H3 & H4 & H5 & H6 & H7).
  repeat split; nsatz.
Qed.

(** The squares of the differences that give the axis, by the diagonal. *)
Lemma rotation_axis_squares (a b c d e f g h i : R) :
  is_rotation (M3 a b c d e f g h i) ->
  (h - f) ^ 2 = (a + e + i + 1) * (2 * a - (a + e + i) + 1) /\
  (c - g) ^ 2 = (a + e + i + 1) * (2 * e - (a + e + i) + 1) /\
  (d - b) ^ 2 = (a + e + i + 1) * (2 * i - (a + e + i) + 1).
Proof.
  intros H.
  pose proof (is_rotation_eqs _ _ _ _ _ _ _ _ _ H)
    as (R0 & R1 & R2 & _ & _ & _ & _).
  pose proof (is_rotation_columns _ _ _ _ _ _ _ _ _ H)
    as (C0 & C1 & C2 & _ & _ & _).
  pose proof (is_rotation_cofactors _ _ _ _ _ _ _ _ _ H)
    as ((K00 & _ & _) & (_ & K11 & _) & (_ & _ & K22)).
  clear H. repeat split; lra.
Qed.

(** The trace of a rotation lies in [-1, 3]: the argument of the inverse
    cosine of [_vrrotmat2vec] is in its domain. *)
Lemma rotation_trace_bounds (A : mat3) :
  is_rotation A -> -1 <= mtrace A <= 3.
Proof.
  destruct A as [a b c d e f g h i]. intros H.
  pose proof (rotation_axis_squares _ _ _ _ _ _ _ _ _ H) as (S0 & S1 & S2).
  apply is_rotation_eqs in H as (H1 & H2 & H3 & H4 & H5 & H6 & H7).
  unfold mtrace. simpl.
  assert (Hid : (a + e + i + 1) * (3 - (a + e + i))
                = (h - f) ^ 2 + (c - g) ^ 2 + (d - b) ^ 2).
  { rewrite S0, S1, S2. ring. }
  assert (Ha : a <= 1) by nra.
  assert (He : e <= 1) by nra.
  assert (Hi : i <= 1) by nra.
  split; [|lra].
  destruct (Rle_dec (-1) (a + e + i)) as [|Hn]; auto.
  apply Rnot_le_lt in Hn.
  pose proof (pow2_ge_0 (h - f)). pose proof (pow2_ge_0 (c - g)).
  pose proof (pow2_ge_0 (d - b)).
  assert (Hp : 0 < 3 - (a + e + i)) by lra.
  assert (Hq : a + e + i + 1 < 0) by lra.
  pose proof (Rmult_lt_compat_r _ _ _ Hp Hq) as Hm.
  rewrite Rmult_0_l in Hm. lra.
Qed.

Lemma vrrotmat2vec3_ok (A : mat3) :
  is_rotation A -> exists axis angle, vrrotmat2vec3 A = Ok (axis, angle).
Proof.
  intros H. apply rotation_trace_bounds in H. unfold mtrace in H.
  unfold vrrotmat2vec3. rewrite math_acos_ok by lra. simpl.
  destruct (Rltb _ _); [eauto|]. destruct (Rltb _ _); eauto.
Qed.

(** The matrix of [_vrrotvec2mat] for a non-zero axis is a rotation. *)
Lemma vrrotvec2mat_rotation (axis : vec3) (theta : R) :
  vnorm axis <> 0 -> is_rotation (_vrrotvec2mat axis theta).
Proof.
  destruct axis as [x y z]. unfold vnorm. simpl. intros Hn.
  set (n := sqrt (x * x + y * y + z * z)) in *.
  assert (Hpos : 0 <= x * x + y * y + z * z) by nra.
  assert (Hn2 : n * n = x * x + y * y + z * z) by (apply sqrt_sqrt; exact Hpos).
  assert (Hu : (x / n) * (x / n) + (y / n) * (y / n) + (z / n) * (z / n) = 1).
  { replace (x / n * (x / n) + y / n * (y / n) + z / n * (z / n))
      with ((x * x + y * y + z * z) / (n * n)) by (field; exact Hn).
    rewrite <- Hn2. field. exact Hn. }
  pose proof (sin2_cos2 theta) as Hsc. unfold Rsqr in Hsc.
  unfold _vrrotvec2mat, vdiv, vnorm. simpl. fold n.
  generalize dependent (x / n). intros u.
  generalize dependent (y / n). intros v.
  generalize dependent (z / n). intros w Hu.
  generalize dependent (sin theta). intros s.
  generalize dependent (cos theta). intros c Hsc.
  split.
  - apply mat3_eq; simpl; nsatz.
  - unfold mdet. simpl. nsatz.
Qed.

Lemma vnorm_z_axis : vnorm (V3 0 0 1) = 1.
Proof.
  unfold vnorm. simpl.
  replace (0 * 0 + 0 * 0 + 1 * 1) with 1 by ring. apply sqrt_1.
Qed.

Lemma anchor_rotation_ok (Rb : mat3) (main : bool) :
  is_rotation Rb ->
  exists Rb', anchor_rotation (Some Rb) main = Ok (Some Rb') /\ is_rotation Rb'.
Proof.
  intros H. unfold anchor_rotation. destruct main; simpl.
  - eauto.
  - eexists. split; [reflexivity|].
    apply is_rotation_mmul; auto. apply vrrotvec2mat_rotation.
    rewrite vnorm_z_axis. lra.
Qed.

Close Scope R_scope.

(** ** The bulge interpolator: [_fit_R_d] *)

(** The loop of [_fit_R_d] over the indices [k], ..., [k + m - 1]: it
    writes the fitted frames at these indices and leaves the others. *)
Lemma fit_loop_spec (R_1 : mat3) (d_1 d_2 : vec3) (axis : vec3) (theta : R)
    (n : Z) (N m : nat) :
  forall (k : nat) (Rf : list mat3) (df : list vec3),
    List.length Rf = N -> List.length df = N -> (k + m <= N)%nat ->
    exists Rf' df',
      fold_res (map Z.of_nat (seq k m))
               (fit_body (Some R_1) (Some d_1) (Some d_2) axis theta n)
               (Rf, df) = Ok (Rf', df') /\
      List.length Rf' = N /\ List.length df' = N /\
      (forall j, (k <= j < k + m)%nat ->
         nth_error Rf' j
         = Some (fit_rotation R_1 axis theta n (Z.of_nat j + 1)) /\
         nth_error df' j
         = Some (fit_translation d_1 d_2 n (Z.of_nat j + 1))) /\
      (forall j, ~ (k <= j < k + m)%nat ->
         nth_error Rf' j = nth_error Rf j /\ nth_error df' j = nth_error df j).
Proof.
  induction m as [|m IH]; intros k Rf df LR Ld Hk.
  - exists Rf, df. simpl. repeat split; auto; lia.
  - cbn [seq map fold_res]. unfold fit_body at 1. cbn [np_dot bind fst snd].
    rewrite !py_set_nat by lia. cbn [bind].
    edestruct (IH (S k)) as (Rf' & df' & E & LR' & Ld' & Hin & Hout);
      [| | |rewrite E].
    + rewrite length_set_nth. exact LR.
    + rewrite length_set_nth. exact Ld.
    + lia.
    + exists Rf', df'. split; [reflexivity|]. split; [exact LR'|].
      split; [exact Ld'|]. split.
      * intros j Hj. destruct (Nat.eq_dec j k) as [->|Hne].
        -- destruct (Hout k) as [-> ->]; [lia|].
           rewrite !nth_error_set_nth_eq by lia. split; reflexivity.
        -- apply Hin. lia.
      * intros j Hj. destruct (Hout j) as [-> ->]; [lia|].
        rewrite !nth_error_set_nth_neq by lia. split; reflexivity.
Qed.

(** [_fit_R_d] between two rotations: the extraction of the three axes and
    angles succeeds and the loop fills every index. *)
Lemma fit_R_d_spec (R_1 R_2 : mat3) (d_1 d_2 : vec3) (n : nat) :
  is_rotation R_1 -> is_rotation R_2 ->
  exists axis theta R_fit d_fit,
    _vrrotmat2vec (Some (mmul R_2 (mtrans R_1))) = Ok (axis, theta) /\
    _fit_R_d (Some R_1) (Some d_1) (Some R_2) (Some d_2) (Z.of_nat n)
    = Ok (R_fit, d_fit) /\
    List.length R_fit = n /\ List.length d_fit = n /\
    forall j, (j < n)%nat ->
      nth_error R_fit j
      = Some (fit_rotation R_1 axis theta (Z.of_nat n) (Z.of_nat j + 1)) /\
      nth_error d_fit j
      = Some (fit_translation d_1 d_2 (Z.of_nat n) (Z.of_nat j + 1)).
Proof.
  intros H1 H2.
  destruct (vrrotmat2vec3_ok R_1 H1) as (axis1 & theta1 & E1).
  destruct (vrrotmat2vec3_ok R_2 H2) as (axis2 & theta2 & E2).
  destruct (vrrotmat2vec3_ok (mmul R_2 (mtrans R_1))) as (axis & theta & E).
  { apply is_rotation_mmul; auto. now apply is_rotation_mtrans. }
  exists axis, theta.
  destruct (fit_loop_spec R_1 d_1 d_2 axis theta (Z.of_nat n) n n 0
              (repeat zeros3x3 n) (repeat zeros3 n))
    as (Rf & df & EL & LR & Ld & Hin & _);
    try apply repeat_length; try lia.
  exists Rf, df. split; [exact E|]. split.
  - unfold _fit_R_d. cbn [np_dot np_T option_map bind _vrrotmat2vec].
    rewrite E1, E2, E. cbn [bind]. rewrite range_nat, Nat2Z.id. exact EL.
  - repeat split; auto; apply Hin; lia.
Qed.

(** C1.  For a single-stranded run of [n] bases between the anchor frames
    [(R1, d1)] and [(R2, d2)], [_fit_R_d] produces exactly [n] frames; the
    rotation of the j-th one (j = 1..n) is
    [_vrrotvec2mat(axis, theta*j/(n+1))] multiplied from the left onto [R1],
    with [(axis, theta)] extracted from [R2 . transpose(R1)], and its
    translation is [(d1*(n+1-j) + d2*j)/(n+1)]. *)
Theorem fit_R_d_interpolates (R1 R2 : mat3) (d1 d2 : vec3) (n : Z) :
  is_rotation R1 -> is_rotation R2 -> (0 <= n)%Z ->
  exists axis theta R_fit d_fit,
    _vrrotmat2vec (Some (mmul R2 (mtrans R1))) = Ok (axis, theta) /\
    _fit_R_d (Some R1) (Some d1) (Some R2) (Some d2) n = Ok (R_fit, d_fit) /\
    len R_fit = n /\ len d_fit = n /\
    forall j, (1 <= j <= n)%Z ->
      py_get R_fit (j - 1)
      = Ok (mmul (_vrrotvec2mat axis (theta * IZR j / IZR (n + 1))%R) R1) /\
      py_get d_fit (j - 1)
      = Ok (vdiv (vadd (vscale d1 (IZR (n + 1 - j))) (vscale d2 (IZR j)))
                 (IZR (n + 1))).
Proof.
  intros H1 H2 Hn.
  destruct (fit_R_d_spec R1 R2 d1 d2 (Z.to_nat n) H1 H2)
    as (axis & theta & Rf & df & E & EF & LR & Ld & Hj).
  rewrite Z2Nat.id in * by lia.
  exists axis, theta, Rf, df. repeat split; auto; try (unfold len; lia).
  - destruct (Hj (Z.to_nat (j - 1))) as [HR _]; [lia|].
    replace (j - 1)%Z with (Z.of_nat (Z.to_nat (j - 1))) at 1 by lia.
    rewrite (py_get_nat _ _ _ HR). unfold fit_rotation.
    now replace (Z.of_nat (Z.to_nat (j - 1)) + 1)%Z with j by lia.
  - destruct (Hj (Z.to_nat (j - 1))) as [_ Hd]; [lia|].
    replace (j - 1)%Z with (Z.of_nat (Z.to_nat (j - 1))) at 1 by lia.
    rewrite (py_get_nat _ _ _ Hd). unfold fit_translation.
    now replace (Z.of_nat (Z.to_nat (j - 1)) + 1)%Z with j by lia.
Qed.

(** ** The bulge interpolator: [_find_single_strands] *)

Create Rewrite HintDb listlen.
#[local] Hint Rewrite @length_app @repeat_length @length_set_nth
  @length_map @length_seq : listlen.

Ltac list_len :=
  autorewrite with listlen in *; cbn [List.length] in *;
  autorewrite with listlen in *; try lia.

Lemma set_nth_app {A : Type} (pre : list A) (x v : A) (tl : list A) :
  set_nth (pre ++ x :: tl) (List.length pre) v = pre ++ v :: tl.
Proof. induction pre as [|h pre IH]; simpl; [|rewrite IH]; reflexivity. Qed.

Lemma py_get_app {A : Type} (pre : list A) (x : A) (tl : list A) :
  py_get (pre ++ x :: tl) (Z.of_nat (List.length pre)) = Ok x.
Proof.
  apply py_get_nat. rewrite nth_error_app2, Nat.sub_diag by lia. reflexivity.
Qed.

Lemma py_set_app {A : Type} (pre : list A) (x v : A) (tl : list A) :
  py_set (pre ++ x :: tl) (Z.of_nat (List.length pre)) v = Ok (pre ++ v :: tl).
Proof.
  rewrite py_set_nat by (rewrite length_app; simpl; lia).
  now rewrite set_nth_app.
Qed.

Lemma py_set_last {A : Type} (l : list A) (x v : A) :
  py_set (l ++ [x]) (-1) v = Ok (l ++ [v]).
Proof.
  unfold py_set, py_index, len. rewrite length_app. cbn [List.length].
  change ((0 <=? -1)%Z) with false. cbn [andb].
  replace ((- Z.of_nat (List.length l + 1) <=? -1)%Z) with true
    by (symmetry; apply Z.leb_le; lia).
  change ((-1 <? 0)%Z) with true. cbn [andb bind].
  replace (Z.to_nat (Z.of_nat (List.length l + 1) + -1)) with (List.length l)
    by lia.
  now rewrite set_nth_app.
Qed.

Lemma positions_snoc (a b : nat) :
  positions a (S b) = positions a b ++ [Z.of_nat (a + b)].
Proof. unfold positions. now rewrite seq_S, map_app. Qed.

Lemma positions_cons (a b : nat) :
  positions a (S b) = Z.of_nat a :: positions (S a) b.
Proof. reflexivity. Qed.

Lemma in_positions (a b : nat) (k : nat) :
  In (Z.of_nat k) (positions a b) <-> (a <= k < a + b)%nat.
Proof.
  unfold positions. rewrite in_map_iff. split.
  - intros (j & Hj & Hin). apply in_seq in Hin. lia.
  - intros H. exists k. split; auto. apply in_seq. lia.
Qed.

Lemma repeat_snoc {A : Type} (x : A) (n : nat) :
  repeat x n ++ [x] = repeat x (S n).
Proof. induction n as [|n IH]; simpl; [|rewrite IH]; reflexivity. Qed.

(** A scan that starts on a visited base stops at once. *)
Lemma scan_3prime_stop (fuel : nat) (circ : bool) (n loop i : Z)
    (st : list bool * list (list Z)) :
  py_get (fst st) i = Ok true ->
  scan_3prime (S fuel) circ n loop i st = Ok st.
Proof. intros H. simpl. now rewrite H. Qed.

Lemma scan_5prime_stop (fuel : nat) (circ : bool) (n loop i : Z)
    (st : list bool * list (list Z)) :
  py_get (fst st) i = Ok true ->
  scan_5prime (S fuel) circ n loop i st = Ok st.
Proof. intros H. simpl. now rewrite H. Qed.

(** The scan in the 3' direction over a run of [b] unvisited bases that
    ends at a visited base or at the end of the strand: the bases are marked
    and their positions appended to the current region. *)
Lemma scan_3prime_run (circ : bool) (S0 : list (list Z)) (rest : list bool) :
  (rest = [] \/ exists rest', rest = true :: rest') ->
  forall (b : nat) (pre : list bool) (cur : list Z) (fuel : nat),
    (pre = [] \/ exists pre', pre = true :: pre') ->
    (S b < fuel)%nat ->
    scan_3prime fuel circ
      (Z.of_nat (List.length pre + S b + List.length rest)) (len S0)
      (Z.of_nat (List.length pre))
      (pre ++ repeat false (S b) ++ rest, S0 ++ [cur])
    = Ok (pre ++ repeat true (S b) ++ rest,
          S0 ++ [cur ++ positions (List.length pre) (S b)]).
Proof.
  intros Hrest. induction b as [|b IH]; intros pre cur fuel Hpre Hfuel.
  - destruct fuel as [|fuel]; [lia|].
    cbn [scan_3prime fst snd repeat app].
    rewrite py_get_app. cbn [bind]. rewrite py_set_app. cbn [bind].
    unfold len. rewrite py_get_app. cbn [bind]. rewrite py_set_app.
    cbn [bind positions seq map].
    destruct (Z.ltb_spec (Z.of_nat (List.length pre))
                (Z.of_nat (List.length pre + 1 + List.length rest) - 1)).
    + destruct Hrest as [->|(rest' & ->)]; [simpl in *; lia|].
      destruct fuel as [|fuel]; [lia|].
      rewrite scan_3prime_stop; [reflexivity|].
      cbn [fst]. replace (Z.of_nat (List.length pre) + 1)%Z
        with (Z.of_nat (List.length (pre ++ [true])))
        by (rewrite length_app; simpl; lia).
      replace (pre ++ true :: true :: rest')
        with ((pre ++ [true]) ++ true :: rest')
        by (now rewrite <- app_assoc).
      apply py_get_app.
    + destruct circ; [|reflexivity].
      destruct fuel as [|fuel]; [lia|].
      rewrite scan_3prime_stop; [reflexivity|].
      cbn [fst]. destruct Hpre as [->|(pre' & ->)]; reflexivity.
  - destruct fuel as [|fuel]; [lia|].
    cbn [scan_3prime fst snd]. cbn [repeat app].
    rewrite py_get_app. cbn [bind]. rewrite py_set_app. cbn [bind].
    unfold len. rewrite py_get_app. cbn [bind]. rewrite py_set_app.
    cbn [bind].
    destruct (Z.ltb_spec (Z.of_nat (List.length pre))
                (Z.of_nat (List.length pre + S (S b) + List.length rest) - 1));
      [|lia].
    specialize (IH (pre ++ [true]) (cur ++ [Z.of_nat (List.length pre)]) fuel).
    rewrite length_app in IH. cbn [List.length] in IH.
    replace (List.length pre + 1 + S b + List.length rest)%nat
      with (List.length pre + S (S b) + List.length rest)%nat in IH by lia.
    replace (Z.of_nat (List.length pre + 1))
      with (Z.of_nat (List.length pre) + 1)%Z in IH by lia.
    rewrite <- !app_assoc in IH. cbn [app] in IH. fold (len S0) in IH.
    unfold len in IH |- *. cbn [repeat app] in IH.
    rewrite IH.
    + rewrite (positions_cons (List.length pre) (S b)).
      replace (List.length pre + 1)%nat with (S (List.length pre)) by lia.
      reflexivity.
    + destruct Hpre as [->|(pre' & ->)]; right; eexists; reflexivity.
    + lia.
Qed.

(** The scan in the 5' direction from the first unvisited base: the base
    before it is visited (or, on a circular strand that starts unvisited,
    the last base is), so the scan marks the one base and stops. *)
Lemma scan_5prime_first (circ : bool) (S0 : list (list Z)) (cur : list Z)
    (pre tl : list bool) (fuel : nat) :
  (pre = [] \/ exists pre', pre = pre' ++ [true]) ->
  (circ = true -> pre = [] -> exists tl', tl = tl' ++ [true]) ->
  (2 <= fuel)%nat ->
  scan_5prime fuel circ (Z.of_nat (List.length pre + S (List.length tl)))
    (len S0) (Z.of_nat (List.length pre)) (pre ++ false :: tl, S0 ++ [cur])
  = Ok (pre ++ true :: tl, S0 ++ [cur ++ [Z.of_nat (List.length pre)]]).
Proof.
  intros Hpre Hc Hfuel. destruct fuel as [|fuel]; [lia|].
  cbn [scan_5prime fst snd].
  rewrite py_get_app. cbn [bind]. rewrite py_set_app. cbn [bind].
  unfold len. rewrite py_get_app. cbn [bind]. rewrite py_set_app.
  cbn [bind].
  destruct (Z.gtb_spec (Z.of_nat (List.length pre)) 0).
  - destruct Hpre as [->|(pre' & ->)]; [simpl in *; lia|].
    destruct fuel as [|fuel]; [lia|].
    rewrite scan_5prime_stop; [reflexivity|]. cbn [fst].
    rewrite <- app_assoc. cbn [app].
    replace (Z.of_nat (List.length (pre' ++ [true])) - 1)%Z
      with (Z.of_nat (List.length pre'))
      by (rewrite length_app; simpl List.length; lia).
    apply py_get_app.
  - destruct circ; [|reflexivity].
    assert (pre = []) as -> by (destruct pre; [auto|simpl in *; lia]).
    destruct (Hc eq_refl eq_refl) as (tl' & ->).
    destruct fuel as [|fuel]; [lia|].
    rewrite scan_5prime_stop; [reflexivity|]. cbn [fst app].
    replace (Z.of_nat (List.length (@nil bool)
                       + S (List.length (tl' ++ [true]))) - 1)%Z
      with (Z.of_nat (List.length (true :: tl')))
      by (rewrite length_app; simpl List.length; lia).
    change (true :: tl' ++ [true]) with ((true :: tl') ++ [true]).
    apply py_get_app.
Qed.

Lemma index_false_repeat (m : nat) (i : Z) :
  index_false (repeat true m) i = None.
Proof. revert i. induction m as [|m IH]; intros i; simpl; auto. Qed.

Lemma index_false_first (m : nat) (tl : list bool) (i : Z) :
  index_false (repeat true m ++ false :: tl) i = Some (i + Z.of_nat m)%Z.
Proof.
  revert i. induction m as [|m IH]; intros i; cbn [repeat app index_false].
  - f_equal. lia.
  - rewrite IH. f_equal. lia.
Qed.

(** A list of flags is all visited, or starts with visited flags followed by
    a run of unvisited ones that ends at a visited flag or at the end. *)
Lemma flags_decompose (l : list bool) :
  l = repeat true (List.length l) \/
  exists a b rest,
    l = repeat true a ++ repeat false (S b) ++ rest /\
    (rest = [] \/ exists rest', rest = true :: rest').
Proof.
  induction l as [|x l IH].
  - now left.
  - destruct x.
    + destruct IH as [IH|(a & b & rest & IH & Hr)].
      * left. simpl. now rewrite <- IH.
      * right. exists (S a), b, rest. split; auto. rewrite IH. reflexivity.
    + right. clear IH. induction l as [|y l IH].
      * exists 0%nat, 0%nat, []. split; auto.
      * destruct y.
        -- exists 0%nat, 0%nat, (true :: l). split; eauto.
        -- destruct IH as (a & b & rest & IH & Hr).
           destruct a as [|a]; [|discriminate].
           exists 0%nat, (S b), rest. split; auto.
           rewrite IH. reflexivity.
Qed.

Lemma nth_error_repeat_mid {A : Type} (X Y : list A) (v : A) (m j : nat) :
  (List.length X <= j < List.length X + m)%nat ->
  nth_error (X ++ repeat v m ++ Y) j = Some v.
Proof.
  intros H. rewrite nth_error_app2 by lia.
  rewrite nth_error_app1 by (rewrite repeat_length; lia).
  apply nth_error_repeat. lia.
Qed.

(** The loop of [_find_single_strands]: with the bases before [F ++ l]'s
    part [l] done, it returns maximal runs that cover the unvisited bases. *)
Lemma find_loop_spec (circ : bool) (vis0 : list bool) :
  (circ = true -> hd true vis0 = true \/ last vis0 true = true) ->
  forall (fuel : nat) (F l : list bool) (acc : list (list Z)),
    vis0 = F ++ l ->
    (List.length l < fuel)%nat ->
    (F = [] \/ l = [] \/ exists l', l = true :: l') ->
    (forall r, In r acc -> run_of vis0 r) ->
    (forall k, (k < List.length F)%nat -> nth_error vis0 k = Some false ->
               exists r, In r acc /\ In (Z.of_nat k) r) ->
    exists rs,
      find_loop fuel circ (len vis0) (len acc)
                (repeat true (List.length F) ++ l) acc = Ok rs /\
      (forall r, In r rs -> run_of vis0 r) /\
      (forall k, nth_error vis0 k = Some false ->
                 exists r, In r rs /\ In (Z.of_nat k) r).
Proof.
  intros Hcirc. induction fuel as [|fuel IH];
    intros F l acc Hvis Hfuel Hbound Hruns Hcover; [lia|].
  cbn [find_loop].
  destruct (flags_decompose l) as [Hall|(a & b & rest & Hl & Hrest)].
  - rewrite Hall, <- repeat_app, index_false_repeat.
    exists acc. split; [reflexivity|]. split; [exact Hruns|].
    intros k Hk. destruct (Nat.lt_ge_cases k (List.length F)) as [Hlt|Hge].
    + now apply Hcover.
    + exfalso. rewrite Hvis, nth_error_app2, Hall in Hk by lia.
      destruct (nth_error (repeat true (List.length l)) (k - List.length F))
        eqn:E; [|discriminate].
      apply nth_error_In, repeat_spec in E. congruence.
  - set (p := List.length F) in *. set (i0 := (p + a)%nat).
    assert (Hn : List.length vis0
                 = (i0 + S (List.length (repeat false b ++ rest)))%nat).
    { rewrite Hvis, Hl. unfold i0, p. clear. list_len. }
    assert (Ecur : repeat true p ++ l
                   = repeat true i0 ++ false :: repeat false b ++ rest).
    { rewrite Hl. unfold i0. rewrite repeat_app, <- !app_assoc. reflexivity. }
    rewrite Ecur, index_false_first, Z.add_0_l.
    assert (Lcur : List.length
                     (repeat true i0 ++ false :: repeat false b ++ rest)
                   = List.length vis0).
    { rewrite Hn. clear. list_len. }
    rewrite Lcur.
    pose proof (scan_5prime_first circ acc [] (repeat true i0)
                  (repeat false b ++ rest) (S (List.length vis0))) as E5.
    rewrite repeat_length, <- Hn in E5. fold (len vis0) in E5.
    rewrite E5; clear E5.
    2:{ destruct i0 as [|j]; [now left|right].
        exists (repeat true j). now rewrite repeat_snoc. }
    2:{ intros -> Hi0. apply (f_equal (@List.length bool)) in Hi0.
        rewrite repeat_length in Hi0. cbn [List.length] in Hi0.
        assert (p = 0%nat /\ a = 0%nat) as [Hp ->] by (unfold i0 in Hi0; lia).
        apply length_zero_iff_nil in Hp. subst F.
        cbn [app repeat] in Hl. rewrite Hvis, Hl in Hcirc.
        destruct (Hcirc eq_refl) as [Hh|Hlast]; [discriminate|].
        cbn [app] in Hlast.
        destruct (repeat false b ++ rest) as [|y tl] eqn:Etl;
          [discriminate|].
        exists (removelast (y :: tl)).
        rewrite (app_removelast_last true) at 1 by discriminate.
        f_equal. f_equal.
        change (last (false :: y :: tl) true) with (last (y :: tl) true)
          in Hlast. exact Hlast. }
    2:{ rewrite Hn. lia. }
    cbn [bind fst snd app]. rewrite py_set_last. cbn [bind].
    pose proof (py_set_app (repeat true i0) true false
                  (repeat false b ++ rest)) as Eset.
    rewrite repeat_length in Eset. rewrite Eset; clear Eset. cbn [bind].
    rewrite Lcur.
    pose proof (scan_3prime_run circ acc rest Hrest b (repeat true i0) []
                  (S (List.length vis0))) as E3.
    rewrite repeat_length in E3.
    replace (i0 + S b + List.length rest)%nat with (List.length vis0) in E3
      by (rewrite Hn, length_app, repeat_length; lia).
    cbn [app] in E3.
    change (false :: repeat false b ++ rest)
      with (repeat false (S b) ++ rest).
    fold (len vis0) in E3.
    rewrite E3; clear E3.
    2:{ destruct i0; [now left|right]. eexists. reflexivity. }
    2:{ rewrite Hn, length_app, repeat_length. lia. }
    cbn [bind fst snd app].
    set (run := positions i0 (S b)).
    assert (HF' : vis0 = (F ++ repeat true a ++ repeat false (S b)) ++ rest).
    { rewrite Hvis, Hl, <- !app_assoc. reflexivity. }
    assert (Hrun : run_of vis0 run).
    { exists i0, (S b). split; [lia|]. split.
      { rewrite Hn, length_app, repeat_length. lia. }
      split; [reflexivity|]. split; [|split].
      - intros j Hj. rewrite Hvis, Hl, app_assoc.
        apply nth_error_repeat_mid.
        rewrite length_app, repeat_length. fold p. unfold i0 in Hj. lia.
      - destruct a as [|a].
        + destruct Hbound as [HF|[Hl0|(l' & Hl')]].
          * left. subst F. unfold i0, p. reflexivity.
          * rewrite Hl0 in Hl. discriminate.
          * rewrite Hl' in Hl. discriminate.
        + right. rewrite Hvis, Hl.
          apply nth_error_repeat_mid. fold p. unfold i0. lia.
      - destruct Hrest as [->|(rest' & ->)].
        + left. rewrite Hn, app_nil_r, repeat_length. lia.
        + right. rewrite HF', nth_error_app2;
            rewrite !length_app, !repeat_length; fold p; unfold i0; [|lia].
          replace (p + a + S b - (p + (a + S b)))%nat with 0%nat by lia.
          reflexivity. }
    assert (P1 : (List.length rest < fuel)%nat).
    { rewrite Hl in Hfuel. clear - Hfuel. list_len. }
    assert (P2 : F ++ repeat true a ++ repeat false (S b) = [] \/ rest = [] \/
                 exists l', rest = true :: l').
    { destruct Hrest as [->|Hr]; auto. }
    assert (P3 : forall r, In r (acc ++ [run]) -> run_of vis0 r).
    { intros r Hr. apply in_app_or in Hr as [Hr|[<-|[]]]; auto. }
    assert (P4 : forall k,
               (k < List.length (F ++ repeat true a ++ repeat false (S b)))%nat ->
               nth_error vis0 k = Some false ->
               exists r, In r (acc ++ [run]) /\ In (Z.of_nat k) r).
    { intros k Hk Hfalse.
      rewrite !length_app, !repeat_length in Hk. fold p in Hk.
      destruct (Nat.lt_ge_cases k p) as [Hlt|Hge].
      - destruct (Hcover k Hlt Hfalse) as (r & Hr & Hin).
        exists r. split; auto. apply in_or_app. now left.
      - destruct (Nat.lt_ge_cases k i0) as [Hlt'|Hge'].
        + exfalso. rewrite Hvis, Hl in Hfalse.
          rewrite (nth_error_repeat_mid F _ true a k) in Hfalse
            by (fold p; unfold i0 in Hlt'; lia).
          discriminate.
        + exists run. split; [apply in_or_app; right; now left|].
          apply in_positions. unfold i0 in *. lia. }
    destruct (IH (F ++ repeat true a ++ repeat false (S b)) rest
                 (acc ++ [run]) HF' P1 P2 P3 P4) as (rs & E & Hrs & Hcov).
    exists rs. split; [|split; assumption].
    rewrite <- E. f_equal.
    + rewrite len_app, len_cons, len_nil. lia.
    + rewrite !length_app, !repeat_length. fold p. unfold i0.
      rewrite !repeat_app, <- !app_assoc. reflexivity.
Qed.

(** ** The bulge interpolator: [_generate_bulge_dof] *)

Lemma find_single_strands_spec (rots : list ndarray2) (circ : bool) :
  (circ = true ->
   hd true (visited_flags rots) = true \/
   last (visited_flags rots) true = true) ->
  exists rs,
    _find_single_strands rots circ = Ok rs /\
    (forall r, In r rs -> run_of (visited_flags rots) r) /\
    (forall k, nth_error (visited_flags rots) k = Some false ->
               exists r, In r rs /\ In (Z.of_nat k) r).
Proof.
  intros Hc.
  assert (P1 : (List.length (visited_flags rots) < S (List.length rots))%nat).
  { unfold visited_flags. rewrite length_map. lia. }
  assert (P3 : forall r : list Z, In r [] -> run_of (visited_flags rots) r).
  { intros r []. }
  assert (P4 : forall k, (k < List.length (@nil bool))%nat ->
             nth_error (visited_flags rots) k = Some false ->
             exists r : list Z, In r [] /\ In (Z.of_nat k) r).
  { simpl. intros k Hk. lia. }
  destruct (find_loop_spec circ (visited_flags rots) Hc
              (S (List.length rots)) [] (visited_flags rots) []
              eq_refl P1 (or_introl eq_refl) P3 P4)
    as (rs & E & H1 & H2).
  - exists rs. split; [|auto].
    unfold _find_single_strands. fold (visited_flags rots).
    cbn [List.length repeat app] in E. rewrite <- E. f_equal.
    unfold len, visited_flags. now rewrite length_map.
Qed.

Lemma nth_error_visited (rots : list ndarray2) (k : nat) :
  nth_error (visited_flags rots) k
  = option_map (fun rmat => negb (size_is_0 rmat)) (nth_error rots k).
Proof. unfold visited_flags. apply nth_error_map. Qed.

Lemma visited_true (rots : list ndarray2) (k : nat) :
  nth_error (visited_flags rots) k = Some true <-> resolved rots k.
Proof.
  rewrite nth_error_visited. unfold resolved.
  destruct (nth_error rots k) as [[Rb|]|]; simpl; split;
    try discriminate; eauto; intros (Rb' & H); discriminate.
Qed.

Lemma visited_false (rots : list ndarray2) (k : nat) :
  nth_error (visited_flags rots) k = Some false <-> unset rots k.
Proof.
  rewrite nth_error_visited. unfold unset.
  destruct (nth_error rots k) as [[Rb|]|]; simpl; split;
    try discriminate; auto.
Qed.

Lemma py_get_minus1 {A : Type} (r : list A) (d : A) :
  r <> [] -> py_get r (-1) = Ok (last r d).
Proof.
  intros H. rewrite (app_removelast_last d H) at 1. apply py_get_last.
Qed.

Lemma py_get_0 {A : Type} (x : A) (r : list A) : py_get (x :: r) 0 = Ok x.
Proof. reflexivity. Qed.

(** The loop that empties the regions with a free end. *)
Lemma remove_free_ends_loop (n : Z) (rs : list (list Z)) :
  (forall r, In r rs -> r <> []) ->
  forall tail,
    fold_res (rev (range (len rs))) (remove_free_end n) (rs ++ tail)
    = Ok (map (keep_anchored n) rs ++ tail).
Proof.
  induction rs as [|r rs IH] using rev_ind; intros Hne tail.
  - reflexivity.
  - rewrite range_len, length_app. cbn [List.length].
    rewrite Nat.add_1_r, seq_S, map_app, rev_app_distr.
    cbn [map rev app Nat.add]. cbn [fold_res]. unfold remove_free_end at 1.
    rewrite <- app_assoc. cbn [app]. rewrite py_get_app. cbn [bind].
    assert (Hr : r <> []) by (apply Hne, in_or_app; right; now left).
    destruct r as [|first r']; [congruence|].
    rewrite py_get_0. cbn [bind].
    rewrite (py_get_minus1 _ 0%Z) by discriminate.
    assert (E : (if (first =? 0)%Z then py_set (rs ++ (first :: r') :: tail)
                                          (Z.of_nat (List.length rs)) []
                 else x <- Ok (last (first :: r') 0%Z) ;;
                      if (x =? n - 1)%Z
                      then py_set (rs ++ (first :: r') :: tail)
                                  (Z.of_nat (List.length rs)) []
                      else Ok (rs ++ (first :: r') :: tail))
                = Ok (rs ++ keep_anchored n (first :: r') :: tail)).
    { unfold keep_anchored. destruct (first =? 0)%Z.
      - apply py_set_app.
      - cbn [bind]. destruct (last (first :: r') 0 =? n - 1)%Z.
        + apply py_set_app.
        + reflexivity. }
    rewrite E. cbn [bind]. rewrite <- range_len.
    rewrite (IH (fun r0 H => Hne r0 (in_or_app _ _ _ (or_introl H)))).
    rewrite map_app, <- app_assoc. reflexivity.
Qed.

Lemma remove_free_ends_spec (n : Z) (rs : list (list Z)) :
  (forall r, In r rs -> r <> []) ->
  remove_free_ends n rs = Ok (map (keep_anchored n) rs).
Proof.
  intros H. unfold remove_free_ends.
  rewrite <- (app_nil_r rs) at 2.
  rewrite (remove_free_ends_loop n rs H []). now rewrite app_nil_r.
Qed.

Lemma nth_error_positions (a b j : nat) :
  (j < b)%nat -> nth_error (positions a b) j = Some (Z.of_nat (a + j)).
Proof.
  intros H. unfold positions. rewrite nth_error_map.
  replace (nth_error (seq a b) j) with (Some (a + j)%nat); [reflexivity|].
  symmetry. revert a j H. induction b as [|b IH]; intros a j H; [lia|].
  destruct j as [|j]; simpl.
  - f_equal. lia.
  - rewrite IH by lia. f_equal. lia.
Qed.

Lemma len_positions (a b : nat) : len (positions a b) = Z.of_nat b.
Proof. unfold len, positions. now rewrite length_map, length_seq. Qed.

Lemma last_positions (a b : nat) :
  last (positions a (S b)) 0%Z = Z.of_nat (a + b).
Proof. now rewrite positions_snoc, last_last. Qed.

(** One turn of the loop that writes the fitted frames. *)
Lemma update_region_step (a b j : nat) (Rf : list mat3) (df : list vec3)
    (Rj : mat3) (dj : vec3) (dof : Dof) :
  (j < b)%nat ->
  (a + b <= List.length (dof_rotations dof))%nat ->
  (a + b <= List.length (dof_translations dof))%nat ->
  (a + b <= List.length (dof_is_main dof))%nat ->
  nth_error Rf j = Some Rj -> nth_error df j = Some dj ->
  update_region (positions a b) Rf df (Z.of_nat j) dof
  = (Ok tt, mkDof (set_nth (dof_rotations dof) (a + j) (Some Rj))
                  (set_nth (dof_translations dof) (a + j) (Some dj))
                  (set_nth (dof_is_main dof) (a + j) true)).
Proof.
  intros Hj Lr Lt Lm HR Hd. unfold update_region, sbind, lift, get, put.
  rewrite (py_get_nat _ _ _ (nth_error_positions a b j Hj)).
  rewrite py_set_nat by lia. cbn [dof_rotations dof_translations dof_is_main].
  rewrite (py_get_nat _ _ _ HR). rewrite py_set_nat by lia.
  cbn [dof_rotations dof_translations dof_is_main].
  rewrite (py_get_nat _ _ _ Hd). rewrite py_set_nat by lia.
  reflexivity.
Qed.

(** The loop that writes the fitted frames, over the indices [j0], ...,
    [j0 + m - 1] of the region. *)
Lemma update_loop_spec (a b : nat) (Rf : list mat3) (df : list vec3)
    (n m : nat) :
  List.length Rf = b -> List.length df = b -> (a + b <= n)%nat ->
  forall (j0 : nat) (dof : Dof),
    (j0 + m <= b)%nat ->
    List.length (dof_rotations dof) = n ->
    List.length (dof_translations dof) = n ->
    List.length (dof_is_main dof) = n ->
    exists dof',
      for_in (map Z.of_nat (seq j0 m)) (update_region (positions a b) Rf df)
             dof = (Ok tt, dof') /\
      List.length (dof_rotations dof') = n /\
      List.length (dof_translations dof') = n /\
      List.length (dof_is_main dof') = n /\
      (forall k, (a + j0 <= k < a + j0 + m)%nat ->
         (exists Rk, nth_error (dof_rotations dof') k = Some (Some Rk)) /\
         (exists dk, nth_error (dof_translations dof') k = Some (Some dk)) /\
         nth_error (dof_is_main dof') k = Some true) /\
      (forall k, ~ (a + j0 <= k < a + j0 + m)%nat ->
         nth_error (dof_rotations dof') k = nth_error (dof_rotations dof) k /\
         nth_error (dof_translations dof') k
         = nth_error (dof_translations dof) k /\
         nth_error (dof_is_main dof') k = nth_error (dof_is_main dof) k).
Proof.
  intros LR Ld Hab. induction m as [|m IH]; intros j0 dof Hj Lr Lt Lm.
  - exists dof. simpl. repeat split; auto; lia.
  - cbn [seq map for_in]. unfold sbind at 1.
    destruct (nth_error Rf j0) as [Rj|] eqn:ER;
      [|apply nth_error_None in ER; lia].
    destruct (nth_error df j0) as [dj|] eqn:Ed;
      [|apply nth_error_None in Ed; lia].
    rewrite (update_region_step a b j0 Rf df Rj dj dof) by (auto; lia).
    edestruct (IH (S j0)) as (dof' & E & Lr' & Lt' & Lm' & Hin & Hout);
      [| | | |rewrite E]; cbn [dof_rotations dof_translations dof_is_main];
      try (rewrite length_set_nth; assumption); try lia.
    exists dof'. split; [reflexivity|]. repeat split; auto.
    + destruct (Nat.eq_dec k (a + j0)) as [->|Hne].
      * destruct (Hout (a + j0)%nat) as (-> & _ & _); [lia|].
        cbn [dof_rotations]. rewrite nth_error_set_nth_eq by lia. eauto.
      * apply Hin. lia.
    + destruct (Nat.eq_dec k (a + j0)) as [->|Hne].
      * destruct (Hout (a + j0)%nat) as (_ & -> & _); [lia|].
        cbn [dof_translations]. rewrite nth_error_set_nth_eq by lia. eauto.
      * apply Hin. lia.
    + destruct (Nat.eq_dec k (a + j0)) as [->|Hne].
      * destruct (Hout (a + j0)%nat) as (_ & _ & ->); [lia|].
        cbn [dof_is_main]. rewrite nth_error_set_nth_eq by lia. eauto.
      * apply Hin. lia.
    + destruct (Hout k) as (-> & _ & _); [lia|].
      cbn [dof_rotations]. apply nth_error_set_nth_neq. lia.
    + destruct (Hout k) as (_ & -> & _); [lia|].
      cbn [dof_translations]. apply nth_error_set_nth_neq. lia.
    + destruct (Hout k) as (_ & _ & ->); [lia|].
      cbn [dof_is_main]. apply nth_error_set_nth_neq. lia.
Qed.

(** The frame of an anchor, read from arrays that extend well-formed ones. *)
Lemma anchor_frame (dof0 dof : Dof) (k : nat) :
  dof_wf dof0 -> dof_extends dof0 dof ->
  resolved (dof_rotations dof0) k ->
  exists Rb d main Rb',
    py_get (dof_rotations dof) (Z.of_nat k) = Ok (Some Rb) /\
    py_get (dof_translations dof) (Z.of_nat k) = Ok (Some d) /\
    py_get (dof_is_main dof) (Z.of_nat k) = Ok main /\
    anchor_rotation (Some Rb) main = Ok (Some Rb') /\
    is_rotation Rb'.
Proof.
  intros (Lt0 & Lm0 & Hwf) (Lr & Lt & Lm & Hkeep & _) (Rb & HRb).
  destruct (Hwf k Rb HRb) as (Hrot & d & Hd).
  destruct (Hkeep k Rb HRb) as (HR & HT & HM).
  assert (Hk : (k < List.length (dof_rotations dof0))%nat).
  { apply nth_error_Some. congruence. }
  destruct (nth_error (dof_is_main dof0) k) as [main|] eqn:EM;
    [|apply nth_error_None in EM; lia].
  destruct (anchor_rotation_ok Rb main Hrot) as (Rb' & EA & HA).
  exists Rb, d, main, Rb'.
  split; [now apply py_get_nat|].
  split; [apply py_get_nat; congruence|].
  split; [apply py_get_nat; congruence|].
  split; assumption.
Qed.

(** The frames fitted for an anchored region. *)
Lemma fit_region_ok (dof0 dof : Dof) (a b : nat) :
  dof_wf dof0 -> dof_extends dof0 dof ->
  (a + S b <= List.length (dof_rotations dof0))%nat ->
  resolved (dof_rotations dof0)
    (if (a =? 0)%nat then List.length (dof_rotations dof0) - 1 else a - 1) ->
  resolved (dof_rotations dof0)
    (if (a + S b =? List.length (dof_rotations dof0))%nat then 0
     else a + S b) ->
  exists Rf df,
    fit_region (len (dof_rotations dof0)) (positions a (S b)) dof
    = Ok (Rf, df) /\
    List.length Rf = S b /\ List.length df = S b.
Proof.
  intros Hwf Hext Hab H1 H2.
  destruct (anchor_frame dof0 dof _ Hwf Hext H1)
    as (R1 & d1 & m1 & R1' & ER1 & Ed1 & Em1 & EA1 & HR1).
  destruct (anchor_frame dof0 dof _ Hwf Hext H2)
    as (R2 & d2 & m2 & R2' & ER2 & Ed2 & Em2 & EA2 & HR2).
  destruct (fit_R_d_spec R1' R2' d1 d2 (S b) HR1 HR2)
    as (axis & theta & Rf & df & _ & EF & LR & Ld & _).
  exists Rf, df. split; [|auto].
  unfold fit_region. rewrite positions_cons at 1. rewrite py_get_0.
  cbn [bind].
  assert (E1 : (if (Z.of_nat a - 1 <? 0)%Z
                then (len (dof_rotations dof0) - 1)%Z
                else (Z.of_nat a - 1)%Z)
               = Z.of_nat (if (a =? 0)%nat
                           then List.length (dof_rotations dof0) - 1
                           else a - 1)).
  { unfold len. destruct (Nat.eqb_spec a 0), (Z.ltb_spec (Z.of_nat a - 1) 0);
      lia. }
  rewrite E1, ER1. cbn [bind]. rewrite Ed1. cbn [bind]. rewrite Em1.
  cbn [bind]. rewrite EA1. cbn [bind].
  rewrite (py_get_minus1 _ 0%Z) by discriminate. cbn [bind].
  rewrite last_positions.
  assert (E2 : (if (Z.of_nat (a + b) + 1 >? len (dof_rotations dof0) - 1)%Z
                then 0%Z else (Z.of_nat (a + b) + 1)%Z)
               = Z.of_nat (if (a + S b =? List.length (dof_rotations dof0))%nat
                           then 0 else a + S b)).
  { unfold len.
    destruct (Nat.eqb_spec (a + S b) (List.length (dof_rotations dof0))),
             (Z.gtb_spec (Z.of_nat (a + b) + 1)
                         (Z.of_nat (List.length (dof_rotations dof0)) - 1));
      lia. }
  rewrite E2, ER2. cbn [bind]. rewrite Ed2. cbn [bind]. rewrite Em2.
  cbn [bind]. rewrite EA2. cbn [bind]. rewrite len_positions. exact EF.
Qed.

(** The body of the loop over the regions, on an anchored region: it ends
    normally, every base of the region gets a frame, and nothing else
    changes. *)
Lemma process_region_spec (dof0 dof : Dof) (r : list Z) :
  dof_wf dof0 -> dof_extends dof0 dof ->
  anchored (dof_rotations dof0) r ->
  exists dof',
    process_region (len (dof_rotations dof0)) r dof = (Ok tt, dof') /\
    dof_extends dof0 dof' /\
    (forall k, In (Z.of_nat k) r -> resolved (dof_rotations dof') k) /\
    (forall k, ~ In (Z.of_nat k) r ->
       nth_error (dof_rotations dof') k = nth_error (dof_rotations dof) k).
Proof.
  intros Hwf Hext [->|(a & b & Hb & Hab & -> & Hun & H1 & H2)].
  - exists dof. split; [reflexivity|]. split; [exact Hext|].
    split; [intros k []|reflexivity].
  - destruct b as [|b]; [lia|].
    destruct (fit_region_ok dof0 dof a b Hwf Hext Hab H1 H2)
      as (Rf & df & EF & LR & Ld).
    pose proof Hext as (Lr & Lt & Lm & Hkeep & Htr).
    destruct (update_loop_spec a (S b) Rf df
                (List.length (dof_rotations dof0)) (S b) LR Ld Hab 0 dof)
      as (dof' & EU & Lr' & Lt' & Lm' & Hin & Hout); auto.
    exists dof'. split; [|split; [|split]].
    + unfold process_region. rewrite len_positions.
      replace ((Z.of_nat (S b) =? 0)%Z) with false
        by (symmetry; apply Z.eqb_neq; lia).
      unfold sbind, get, lift. rewrite EF. cbn [fst snd].
      rewrite range_nat. exact EU.
    + repeat split; auto.
      * destruct (Hkeep k Rb H) as (HR & _ & _).
        destruct (Hout k) as (-> & _ & _); auto.
        intros Hk. specialize (Hun k). unfold unset in Hun.
        rewrite Hun in H by lia. discriminate.
      * destruct (Hkeep k Rb H) as (_ & HT & _).
        destruct (Hout k) as (_ & -> & _); auto.
        intros Hk. specialize (Hun k). unfold unset in Hun.
        rewrite Hun in H by lia. discriminate.
      * destruct (Hkeep k Rb H) as (_ & _ & HM).
        destruct (Hout k) as (_ & _ & ->); auto.
        intros Hk. specialize (Hun k). unfold unset in Hun.
        rewrite Hun in H by lia. discriminate.
      * intros k Rb HRb.
        destruct (Nat.lt_ge_cases k a) as [Hlt|Hge].
        -- destruct (Hout k) as (E1 & E2 & _); [lia|].
           rewrite E1 in HRb. rewrite E2. eauto.
        -- destruct (Nat.lt_ge_cases k (a + S b)) as [Hlt'|Hge'].
           ++ destruct (Hin k) as (_ & Hd & _); [lia|]. exact Hd.
           ++ destruct (Hout k) as (E1 & E2 & _); [lia|].
              rewrite E1 in HRb. rewrite E2. eauto.
    + intros k Hk. apply in_positions in Hk.
      destruct (Hin k) as (HR & _ & _); [lia|]. exact HR.
    + intros k Hk. destruct (Hout k) as (E & _ & _); auto.
      intros Hk'. apply Hk, in_positions. lia.
Qed.

(** The loop over the regions, all anchored. *)
Lemma process_regions_spec (dof0 : Dof) (rs : list (list Z)) :
  dof_wf dof0 ->
  (forall r, In r rs -> anchored (dof_rotations dof0) r) ->
  forall dof,
    dof_extends dof0 dof ->
    exists dof',
      for_in rs (process_region (len (dof_rotations dof0))) dof
      = (Ok tt, dof') /\
      dof_extends dof0 dof' /\
      forall k, (k < List.length (dof_rotations dof0))%nat ->
        (unset (dof_rotations dof') k <->
         unset (dof_rotations dof) k /\
         forall r, In r rs -> ~ In (Z.of_nat k) r).
Proof.
  intros Hwf. induction rs as [|r rs IH]; intros Hrs dof Hext.
  - exists dof. split; [reflexivity|]. split; [exact Hext|].
    intros k _. simpl. tauto.
  - destruct (process_region_spec dof0 dof r Hwf Hext)
      as (dof1 & E1 & Hext1 & Hin1 & Hout1).
    { apply Hrs. now left. }
    destruct (IH (fun r0 H => Hrs r0 (or_intror H)) dof1 Hext1)
      as (dof' & E & Hext' & Hiff).
    exists dof'. split; [|split; [exact Hext'|]].
    + cbn [for_in]. unfold sbind. rewrite E1. exact E.
    + intros k Hk. rewrite (Hiff k Hk). split.
      * intros (Hu & Hrest).
        assert (Hnot : ~ In (Z.of_nat k) r).
        { intros Hin. destruct (Hin1 k Hin) as (Rb & HRb).
          unfold unset in Hu. congruence. }
        split.
        -- unfold unset in *. now rewrite <- (Hout1 k Hnot).
        -- intros r0 [<-|H0]; auto.
      * intros (Hu & Hall). split.
        -- unfold unset in *. rewrite (Hout1 k); auto. apply Hall. now left.
        -- intros r0 H0. apply Hall. now right.
Qed.

Lemma length_visited (rots : list ndarray2) :
  List.length (visited_flags rots) = List.length rots.
Proof. unfold visited_flags. apply length_map. Qed.

Lemma hd_visited (rots : list ndarray2) :
  resolved rots 0 -> hd true (visited_flags rots) = true.
Proof.
  intros (Rb & H). destruct rots as [|[x|] rots]; simpl in *; congruence.
Qed.

Lemma last_nth_error {A : Type} (l : list A) (x d : A) :
  nth_error l (List.length l - 1) = Some x -> last l d = x.
Proof.
  destruct l as [|y l] using rev_ind; [discriminate|].
  rewrite length_app, last_last. cbn [List.length].
  rewrite nth_error_app2 by lia.
  replace (List.length l + 1 - 1 - List.length l)%nat with 0%nat by lia.
  simpl. congruence.
Qed.

Lemma last_visited (rots : list ndarray2) :
  resolved rots (List.length rots - 1) ->
  last (visited_flags rots) true = true.
Proof.
  intros H. apply last_nth_error. rewrite length_visited.
  now apply visited_true.
Qed.

Lemma keep_anchored_positions (n a b : nat) :
  (a + S b <= n)%nat ->
  keep_anchored (Z.of_nat n) (positions a (S b))
  = if ((a =? 0) || (a + S b =? n))%nat then [] else positions a (S b).
Proof.
  intros H. unfold keep_anchored. rewrite last_positions.
  rewrite positions_cons at 1.
  destruct (Z.eqb_spec (Z.of_nat a) 0), (Nat.eqb_spec a 0); try lia; auto.
  cbn [orb].
  destruct (Z.eqb_spec (Z.of_nat (a + b)) (Z.of_nat n - 1)),
           (Nat.eqb_spec (a + S b) n); try lia; auto.
Qed.

Lemma dof_extends_refl (dof : Dof) : dof_wf dof -> dof_extends dof dof.
Proof.
  intros (Lt & Lm & H). repeat split; auto.
  intros k Rb HRb. now destruct (H k Rb HRb).
Qed.

(** [_generate_bulge_dof] on well-formed arrays.  On a strand that is not
    circular, and on a circular strand whose first or last base has a frame,
    it ends normally, keeps the frames that were set, and leaves without a
    frame exactly the bases of the runs that reach a free end. *)
Lemma generate_bulge_dof_spec (dof0 : Dof) (circ : bool) :
  dof_wf dof0 ->
  (circ = true ->
   resolved (dof_rotations dof0) 0 \/
   resolved (dof_rotations dof0) (List.length (dof_rotations dof0) - 1)) ->
  exists dof',
    _generate_bulge_dof circ dof0 = (Ok tt, dof') /\
    dof_extends dof0 dof' /\
    forall k, (k < List.length (dof_rotations dof0))%nat ->
      (unset (dof_rotations dof') k <->
       circ = false /\ at_free_end (dof_rotations dof0) k).
Proof.
  intros Hwf Hcirc. set (rots := dof_rotations dof0) in *.
  set (n := List.length rots) in *.
  destruct (find_single_strands_spec rots circ) as (rs & EF & Hruns & Hcov).
  { intros Hc. destruct (Hcirc Hc) as [H|H].
    - left. now apply hd_visited.
    - right. now apply last_visited. }
  set (rs' := if circ then rs else map (keep_anchored (Z.of_nat n)) rs).
  assert (Erm : (if negb circ then remove_free_ends (len rots) rs else Ok rs)
                = Ok rs').
  { unfold rs'. destruct circ; cbn [negb]; [reflexivity|].
    apply remove_free_ends_spec. intros r Hr.
    destruct (Hruns r Hr) as (a & [|b] & Hb & _ & -> & _); [lia|].
    discriminate. }
  (* what a run of the flags says about the rotations *)
  assert (Hrun : forall r, In r rs ->
            exists a b, (a + S b <= n)%nat /\ r = positions a (S b) /\
              (forall j, (a <= j < a + S b)%nat -> unset rots j) /\
              (a = 0%nat \/ resolved rots (a - 1)) /\
              ((a + S b)%nat = n \/ resolved rots (a + S b))).
  { intros r Hr.
    destruct (Hruns r Hr) as (a & [|b] & Hb & Hab & -> & Hf & Hl & Hr');
      [lia|].
    rewrite length_visited in Hab, Hr'. fold n in Hab, Hr'.
    exists a, b. repeat split; auto.
    - intros j Hj. now apply visited_false, Hf.
    - destruct Hl as [Hl|Hl]; [now left|right]. now apply visited_true.
    - destruct Hr' as [Hr'|Hr']; [now left|right]. now apply visited_true. }
  assert (Hanch : forall r, In r rs' -> anchored rots r).
  { intros r Hr. unfold rs' in Hr. destruct circ.
    - destruct (Hrun r Hr) as (a & b & Hab & -> & Hun & Hleft & Hright).
      right. exists a, (S b). fold n.
      split; [lia|]. split; [exact Hab|]. split; [reflexivity|].
      split; [exact Hun|]. split.
      + destruct (Nat.eqb_spec a 0) as [->|Hne].
        * destruct (Hcirc eq_refl) as [(Rb & H)|H]; auto.
          specialize (Hun 0%nat). unfold unset in Hun.
          fold rots in H. rewrite Hun in H by lia. discriminate.
        * destruct Hleft; [lia|assumption].
      + destruct (Nat.eqb_spec (a + S b) n) as [He|Hne].
        * destruct (Hcirc eq_refl) as [H|(Rb & H)]; auto.
          specialize (Hun (n - 1)%nat). unfold unset in Hun.
          fold rots n in H. rewrite Hun in H by lia. discriminate.
        * destruct Hright; [lia|assumption].
    - apply in_map_iff in Hr as (r0 & <- & Hr0).
      destruct (Hrun r0 Hr0) as (a & b & Hab & -> & Hun & Hleft & Hright).
      rewrite keep_anchored_positions by exact Hab.
      destruct (Nat.eqb_spec a 0) as [->|Hne]; cbn [orb]; [now left|].
      destruct (Nat.eqb_spec (a + S b) n) as [He|Hne']; [now left|].
      right. exists a, (S b). fold n.
      split; [lia|]. split; [exact Hab|]. split; [reflexivity|].
      split; [exact Hun|].
      destruct (Nat.eqb_spec a 0); [lia|].
      destruct (Nat.eqb_spec (a + S b) n); [lia|].
      split; [destruct Hleft|destruct Hright]; auto; lia. }
  destruct (process_regions_spec dof0 rs' Hwf Hanch dof0
              (dof_extends_refl dof0 Hwf)) as (dof' & EP & Hext & Hiff).
  exists dof'. split; [|split; [exact Hext|]].
  - unfold _generate_bulge_dof. fold rots. rewrite EF, Erm. exact EP.
  - intros k Hk. rewrite (Hiff k Hk). fold rots. split.
    + intros (Hu & Hall).
      destruct (Hcov k) as (r & Hr & Hin); [now apply visited_false|].
      destruct (Hrun r Hr) as (a & b & Hab & -> & Hun & Hleft & Hright).
      apply in_positions in Hin.
      unfold rs' in Hall. destruct circ.
      * exfalso. apply (Hall _ Hr). apply in_positions. exact Hin.
      * split; [reflexivity|].
        specialize (Hall _ (in_map (keep_anchored (Z.of_nat n)) _ _ Hr)).
        rewrite keep_anchored_positions in Hall by exact Hab.
        destruct (Nat.eqb_spec a 0) as [->|Hne]; cbn [orb] in Hall.
        -- left. intros j Hj. apply Hun. lia.
        -- destruct (Nat.eqb_spec (a + S b) n) as [He|Hne'].
           ++ right. fold n. intros j Hj. apply Hun. lia.
           ++ exfalso. apply Hall, in_positions. exact Hin.
    + intros (-> & Hfree).
      assert (Hu : unset rots k).
      { destruct Hfree as [H|H]; apply H; fold n; lia. }
      split; [exact Hu|]. intros r Hr Hin. unfold rs' in Hr.
      apply in_map_iff in Hr as (r0 & <- & Hr0).
      destruct (Hrun r0 Hr0) as (a & b & Hab & -> & Hun & Hleft & Hright).
      rewrite keep_anchored_positions in Hin by exact Hab.
      destruct (Nat.eqb_spec a 0) as [->|Hne]; cbn [orb] in Hin; [easy|].
      destruct (Nat.eqb_spec (a + S b) n) as [He|Hne']; [easy|].
      apply in_positions in Hin.
      destruct Hfree as [H|H].
      * destruct Hleft as [|(Rb & HRb)]; [lia|].
        specialize (H (a - 1)%nat). unfold unset in H.
        rewrite H in HRb by lia. discriminate.
      * destruct Hright as [|(Rb & HRb)]; [lia|].
        specialize (H (a + S b)%nat). unfold unset in H. fold n in H.
        rewrite H in HRb by lia. discriminate.
Qed.

(** C2, the claim as stated fails.  On a circular strand of three bases
    that is single-stranded throughout, the wrap-around finds no frame to
    anchor on: [_generate_bulge_dof] raises [ValueError] and every base is
    left without a frame. *)
Lemma bulge_circular_single_stranded_raises :
  _generate_bulge_dof true single_stranded_3
  = (Err ValueError, single_stranded_3) /\
  ~ (exists dof',
       _generate_bulge_dof true single_stranded_3 = (Ok tt, dof') /\
       forall k, (k < 3)%nat -> resolved (dof_rotations dof') k).
Proof.
  assert (E : _generate_bulge_dof true single_stranded_3
              = (Err ValueError, single_stranded_3)) by reflexivity.
  split; [exact E|]. intros (dof' & H & _). rewrite E in H. discriminate.
Qed.

(** C2 (as amended).  On a strand that is not circular, and on a circular
    strand whose first or last base has a frame, the interpolation ends
    normally and resolves every run of bases without frames, except the
    runs that reach a free end of a strand that is not circular: the bases
    left without a frame are exactly those. *)
Theorem bulge_resolves_anchored_runs (dof0 : Dof) (circ : bool) :
  dof_wf dof0 ->
  (circ = true ->
   resolved (dof_rotations dof0) 0 \/
   resolved (dof_rotations dof0) (List.length (dof_rotations dof0) - 1)) ->
  exists dof',
    _generate_bulge_dof circ dof0 = (Ok tt, dof') /\
    List.length (dof_rotations dof') = List.length (dof_rotations dof0) /\
    (forall k Rb, nth_error (dof_rotations dof0) k = Some (Some Rb) ->
                  nth_error (dof_rotations dof') k = Some (Some Rb)) /\
    forall k, (k < List.length (dof_rotations dof0))%nat ->
      (unset (dof_rotations dof') k <->
       circ = false /\ at_free_end (dof_rotations dof0) k).
Proof.
  intros Hwf Hc.
  destruct (generate_bulge_dof_spec dof0 circ Hwf Hc)
    as (dof' & E & (Lr & _ & _ & Hkeep & _) & Hiff).
  exists dof'. split; [exact E|]. split; [exact Lr|].
  split; [|exact Hiff].
  intros k Rb H. now destruct (Hkeep k Rb H).
Qed.

Lemma has_frame_unset (s : AtomicStructureStrand) (k : nat) :
  unset (rotations s) k -> has_frame s (Z.of_nat k) = false.
Proof.
  intros H. unfold has_frame. now rewrite (py_get_nat _ _ _ H).
Qed.

(** C7.  On a strand that is not circular with a base without a frame at
    tour position 0 or at the last tour position, the interpolation leaves
    the end positions that have no frame as they are, the atom assembler
    emits no atoms for them, and the number of atoms of the strand is
    strictly less than [templateAtomCount * baseCount]. *)
Theorem linear_free_ends_stay_unset (base_conn : list DnaBase)
    (s : AtomicStructureStrand) (fwd rev : dict (list Atom))
    (id0 : Z) (log : list log_record) (e : nat) :
  is_circular s = false ->
  dof_wf (dof_of s) ->
  List.length (rotations s) = List.length (tour s) ->
  first_base_known base_conn s ->
  templates_paired fwd rev ->
  (0 < templateAtomCount fwd rev)%nat ->
  (e = 0%nat \/ e = (List.length (tour s) - 1)%nat) ->
  unset (rotations s) e ->
  exists dof',
    _generate_bulge_dof (is_circular s) (dof_of s) = (Ok tt, dof') /\
    (forall k, (k = 0%nat \/ k = (List.length (tour s) - 1)%nat) ->
               unset (rotations s) k -> unset (dof_rotations dof') k) /\
    forall s',
      tour s' = tour s ->
      rotations s' = dof_rotations dof' ->
      translations s' = dof_translations dof' ->
      is_main s' = dof_is_main dof' ->
      List.length (strand_seq s') = List.length (tour s) ->
      exists mol id1 log',
        _create_atoms_from_strand base_conn s' fwd rev id0 log
        = (Ok (mol, id1), log') /\
        (forall k, (k = 0%nat \/ k = (List.length (tour s) - 1)%nat) ->
                   unset (rotations s) k ->
                   residue_atoms (Z.of_nat k + 1) (atoms mol) = []) /\
        (List.length (atoms mol)
         < templateAtomCount fwd rev * List.length (tour s))%nat.
Proof.
  intros Hlin Hwf Ln Hfirst Hp HM He Hue.
  assert (Hlt : (e < List.length (tour s))%nat).
  { rewrite <- Ln. apply nth_error_Some. unfold unset in Hue. congruence. }
  destruct (generate_bulge_dof_spec (dof_of s) false Hwf)
    as (dof' & E & (Lr & Lt & Lm & Hkeep & Htr) & Hiff); [discriminate|].
  cbn [dof_of dof_rotations] in *.
  assert (Hend : forall k,
             (k = 0%nat \/ k = (List.length (tour s) - 1)%nat) ->
             unset (rotations s) k -> unset (dof_rotations dof') k).
  { intros k Hk Hu.
    assert (Hkn : (k < List.length (rotations s))%nat).
    { apply nth_error_Some. unfold unset in Hu. congruence. }
    apply Hiff; auto. split; [reflexivity|].
    destruct Hk as [->| ->].
    - left. intros j Hj. now replace j with 0%nat by lia.
    - right. intros j Hj.
      now replace j with (List.length (tour s) - 1)%nat by lia. }
  exists dof'. rewrite Hlin. split; [exact E|]. split; [exact Hend|].
  intros s' Ht HR HT HI Ls.
  assert (Hwf' : wf_strand s').
  { unfold wf_strand. rewrite HR, HT, HI, Ht, Lr, Lt, Lm, Ls.
    repeat split; auto. }
  assert (Hfirst' : first_base_known base_conn s').
  { unfold first_base_known. now rewrite Ht. }
  destruct (create_atoms_from_strand_total base_conn s' fwd rev id0 log
              Hwf' Hfirst' Hp) as (mol & id1 & log' & EC).
  exists mol, id1, log'. split; [exact EC|].
  apply create_atoms_from_strand_inv in EC as (st' & EL & -> & _ & _).
  apply create_atoms_loop_adds in EL as (new & w & Ha & _ & Hres & Hcount).
  cbn [molecule Molecule_init atoms app] in Ha. rewrite Ha. split.
  - intros k Hk Hu. apply residue_atoms_none. intros a Hin Hr.
    destruct (Hres a Hin) as (x & Hx & Hrx & Hfx).
    assert (x = Z.of_nat k) by lia. subst x.
    rewrite has_frame_unset in Hfx; [discriminate|].
    rewrite HR. now apply Hend.
  - assert (Hf : (List.length (filter (has_frame s') (range (len (tour s'))))
                  < List.length (tour s))%nat).
    { rewrite Ht, range_len.
      replace (List.length (tour s))
        with (List.length (map Z.of_nat (seq 0 (List.length (tour s))))) at 2
        by (now rewrite length_map, length_seq).
      apply filter_length_lt with (x := Z.of_nat e).
      - apply in_map. apply in_seq. lia.
      - apply has_frame_unset. rewrite HR. now apply Hend. }
    apply Nat.le_lt_trans with (1 := Hcount).
    apply Nat.mul_lt_mono_pos_l; assumption.
Qed.

(** ** Rotation algebra: the domain of the inverse cosine *)

Open Scope R_scope.

(** C4, the claim as stated fails.  For a matrix whose value
    [(trace - 1) / 2] is above 1, [_vrrotmat2vec] does not clamp: the
    inverse cosine raises [ValueError], and nothing is returned. *)
Lemma vrrotmat2vec_trace_above_3_raises :
  1 < (mtrace trace_above_3 - 1) / 2 /\
  _vrrotmat2vec (Some trace_above_3) = Err ValueError /\
  ~ (exists axis angle, _vrrotmat2vec (Some trace_above_3) = Ok (axis, angle)).
Proof.
  assert (H : 1 < (1 + 1 + 1.000001 - 1) / 2) by lra.
  assert (E : _vrrotmat2vec (Some trace_above_3) = Err ValueError).
  { unfold _vrrotmat2vec, vrrotmat2vec3, trace_above_3. simpl.
    rewrite math_acos_domain_error by (right; exact H). reflexivity. }
  split; [exact H|]. split; [exact E|].
  intros (axis & angle & E'). rewrite E in E'. discriminate.
Qed.

(** C4 (as amended).  For every 3x3 matrix whose value [(trace - 1) / 2]
    lies outside [-1, 1], [_vrrotmat2vec] raises [ValueError]: the value is
    not clamped before the inverse cosine. *)
Theorem vrrotmat2vec_raises_outside_domain (M : mat3) :
  (m00 M + m11 M + m22 M - 1) / 2 < -1 \/ 1 < (m00 M + m11 M + m22 M - 1) / 2 ->
  _vrrotmat2vec (Some M) = Err ValueError.
Proof.
  intros H. unfold _vrrotmat2vec, vrrotmat2vec3.
  now rewrite math_acos_domain_error.
Qed.

Lemma vrrotmat2vec_raises_outside_domain_witness :
  ((m00 trace_above_3 + m11 trace_above_3 + m22 trace_above_3 - 1) / 2 < -1 \/
   1 < (m00 trace_above_3 + m11 trace_above_3 + m22 trace_above_3 - 1) / 2) /\
  _vrrotmat2vec (Some trace_above_3) = Err ValueError.
Proof.
  assert (H : (m00 trace_above_3 + m11 trace_above_3 + m22 trace_above_3 - 1)
              / 2 < -1 \/
              1 < (m00 trace_above_3 + m11 trace_above_3
                   + m22 trace_above_3 - 1) / 2).
  { right. unfold trace_above_3. simpl. lra. }
  split; [exact H|].
  exact (vrrotmat2vec_raises_outside_domain trace_above_3 H).
Defined.

Close Scope R_scope.

(** ** Rotation algebra: the round trip *)

Open Scope R_scope.

Lemma PI_gt_3 : 3 < PI.
Proof. pose proof PI2_3_2. lra. Qed.







Close Scope R_scope.

Open Scope R_scope.

(** The products of the differences that give the axis, by the sums of the
    entries across the diagonal. *)
Lemma rotation_axis_products (a b c d e f g h i : R) :
  is_rotation (M3 a b c d e f g h i) ->
  (h - f) * (c - g) = (a + e + i + 1) * (b + d) /\
  (h - f) * (d - b) = (a + e + i + 1) * (c + g) /\
  (c - g) * (d - b) = (a + e + i + 1) * (f + h).
Proof.
  intros H.
  pose proof (is_rotation_eqs _ _ _ _ _ _ _ _ _ H)
    as (_ & _ & _ & R01 & R02 & R12 & _).
  pose proof (is_rotation_columns _ _ _ _ _ _ _ _ _ H)
    as (_ & _ & _ & C01 & C02 & C12).
  pose proof (is_rotation_cofactors _ _ _ _ _ _ _ _ _ H)
    as ((_ & K01 & K02) & (K10 & _ & K12) & (K20 & K21 & _)).
  clear H. repeat split; lra.
Qed.

(** Rodrigues' formula gives back a matrix from the differences and sums of
    its entries across the diagonal. *)
Lemma rodrigues_rebuild (a b c d e f g h i k s : R) :
  s <> 0 -> s * s = 1 - k * k ->
  (h - f) * (h - f) = 4 * (1 + k) * (a - k) ->
  (c - g) * (c - g) = 4 * (1 + k) * (e - k) ->
  (d - b) * (d - b) = 4 * (1 + k) * (i - k) ->
  (h - f) * (c - g) = 2 * (1 + k) * (b + d) ->
  (h - f) * (d - b) = 2 * (1 + k) * (c + g) ->
  (c - g) * (d - b) = 2 * (1 + k) * (f + h) ->
  let x := (h - f) / (2 * s) in
  let y := (c - g) / (2 * s) in
  let z := (d - b) / (2 * s) in
  let t := 1 - k in
  M3 (t * x * x + k) (t * x * y - s * z) (t * x * z + s * y)
     (t * x * y + s * z) (t * y * y + k) (t * y * z - s * x)
     (t * x * z - s * y) (t * y * z + s * x) (t * z * z + k)
  = M3 a b c d e f g h i.
Proof.
  intros Hs Hs2 Sx Sy Sz Pxy Pxz Pyz x y z t.
  assert (H4 : 4 * (s * s) <> 0) by nra.
  assert (Exx : x * x = (h - f) * (h - f) / (4 * (s * s)))
    by (unfold x; field; exact Hs).
  assert (Eyy : y * y = (c - g) * (c - g) / (4 * (s * s)))
    by (unfold y; field; exact Hs).
  assert (Ezz : z * z = (d - b) * (d - b) / (4 * (s * s)))
    by (unfold z; field; exact Hs).
  assert (Exy : x * y = (h - f) * (c - g) / (4 * (s * s)))
    by (unfold x, y; field; exact Hs).
  assert (Exz : x * z = (h - f) * (d - b) / (4 * (s * s)))
    by (unfold x, z; field; exact Hs).
  assert (Eyz : y * z = (c - g) * (d - b) / (4 * (s * s)))
    by (unfold y, z; field; exact Hs).
  assert (Esx : s * x = (h - f) / 2) by (unfold x; field; exact Hs).
  assert (Esy : s * y = (c - g) / 2) by (unfold y; field; exact Hs).
  assert (Esz : s * z = (d - b) / 2) by (unfold z; field; exact Hs).
  assert (Hk : (1 - k) * (1 + k) = s * s) by lra.
  assert (D : forall u, (1 - k) * (4 * (1 + k) * u / (4 * (s * s))) = u).
  { intros u. rewrite <- Hk. field. split; nra. }
  assert (D2 : forall u, (1 - k) * (2 * (1 + k) * u / (4 * (s * s))) = u / 2).
  { intros u. rewrite <- Hk. field. split; nra. }
  unfold t. apply mat3_eq; cbn [m00 m01 m02 m10 m11 m12 m20 m21 m22];
    rewrite ?Rmult_assoc;
    rewrite ?Exx, ?Eyy, ?Ezz, ?Exy, ?Exz, ?Eyz, ?Esx, ?Esy, ?Esz;
    rewrite ?Sx, ?Sy, ?Sz, ?Pxy, ?Pxz, ?Pyz; rewrite ?D, ?D2; lra.
Qed.

Close Scope R_scope.

Open Scope R_scope.

(** A rotation by an angle below 0.0001 is within 0.0001 of the identity,
    entry by entry. *)
Lemma rotation_near_identity (a b c d e f g h i : R) :
  is_rotation (M3 a b c d e f g h i) ->
  Rabs (acos ((a + e + i - 1) / 2)) < 0.0001 ->
  (Rabs (a - 1) < 0.0001 /\ Rabs b < 0.0001 /\ Rabs c < 0.0001) /\
  (Rabs d < 0.0001 /\ Rabs (e - 1) < 0.0001 /\ Rabs f < 0.0001) /\
  (Rabs g < 0.0001 /\ Rabs h < 0.0001 /\ Rabs (i - 1) < 0.0001).
Proof.
  intros H Hth.
  pose proof (rotation_trace_bounds _ H) as Htr. unfold mtrace in Htr.
  simpl in Htr.
  pose proof (rotation_axis_squares _ _ _ _ _ _ _ _ _ H) as (S0 & S1 & S2).
  pose proof (is_rotation_eqs _ _ _ _ _ _ _ _ _ H)
    as (R0 & R1 & R2 & _ & _ & _ & _).
  clear H. set (k := (a + e + i - 1) / 2) in *.
  assert (Hk : -1 <= k <= 1) by (unfold k; lra).
  pose proof (acos_bound k) as Hb.
  set (th := acos k) in *.
  assert (Hth' : th < 0.0001).
  { apply Rabs_def2 in Hth. tauto. }
  pose proof PI_gt_3 as Hpi.
  assert (Hcos : cos th = k) by (apply cos_acos; exact Hk).
  assert (Hk0 : 0 <= k).
  { rewrite <- Hcos. apply cos_ge_0; lra. }
  assert (Hs0 : 0 <= sin th) by (apply sin_ge_0; lra).
  assert (Hsth : sin th <= th).
  { destruct (Req_dec th 0) as [E|E].
    - rewrite E, sin_0. lra.
    - left. apply sin_lt_x. lra. }
  pose proof (sin2_cos2 th) as Hsc. unfold Rsqr in Hsc. rewrite Hcos in Hsc.
  set (s := sin th) in *.
  assert (Hs : s < 0.0001) by lra.
  assert (Hss : s * s <= s) by nra.
  assert (H1k : 1 - k <= s * s) by nra.
  pose proof (pow2_ge_0 (h - f)) as Q0. pose proof (pow2_ge_0 (c - g)) as Q1.
  pose proof (pow2_ge_0 (d - b)) as Q2.
  assert (T : a + e + i + 1 = 2 * (1 + k)) by (unfold k; field).
  assert (Ha : k <= a).
  { rewrite S0, T in Q0.
    replace (2 * a - (a + e + i) + 1) with (2 * (a - k)) in Q0
      by (unfold k; field).
    nra. }
  assert (He : k <= e).
  { rewrite S1, T in Q1.
    replace (2 * e - (a + e + i) + 1) with (2 * (e - k)) in Q1
      by (unfold k; field).
    nra. }
  assert (Hi : k <= i).
  { rewrite S2, T in Q2.
    replace (2 * i - (a + e + i) + 1) with (2 * (i - k)) in Q2
      by (unfold k; field).
    nra. }
  assert (Ha1 : a <= 1) by nra.
  assert (He1 : e <= 1) by nra.
  assert (Hi1 : i <= 1) by nra.
  assert (Off : forall u v w, u * u + v * v + w * w = 1 -> k <= u ->
                              Rabs v < 0.0001).
  { intros u v w Hn Hu. apply Rabs_def1.
    - assert (v * v <= s * s) by nra. nra.
    - assert (v * v <= s * s) by nra. nra. }
  assert (Diag : forall u, k <= u -> u <= 1 -> Rabs (u - 1) < 0.0001).
  { intros u Hu Hu1. apply Rabs_def1; lra. }
  repeat split.
  - apply Diag; assumption.
  - apply (Off a b c); [lra|assumption].
  - apply (Off a c b); [lra|assumption].
  - apply (Off e d f); [lra|assumption].
  - apply Diag; assumption.
  - apply (Off e f d); [lra|assumption].
  - apply (Off i g h); [lra|assumption].
  - apply (Off i h g); [lra|assumption].
  - apply Diag; assumption.
Qed.


(** The round trip is exact for a rotation whose angle is away from 0 and
    from 180 degrees. *)
Lemma roundtrip_general (M : mat3) :
  is_rotation M ->
  0 < acos ((mtrace M - 1) / 2) < PI ->
  _vrrotvec2mat (axis_general M) (acos ((mtrace M - 1) / 2)) = M.
Proof.
  destruct M as [a b c d e f g h i]. intros H Hth.
  pose proof (rotation_trace_bounds _ H) as Htr.
  unfold mtrace in *. simpl in Htr, Hth |- *.
  pose proof (rotation_axis_squares _ _ _ _ _ _ _ _ _ H) as (S0 & S1 & S2).
  pose proof (rotation_axis_products _ _ _ _ _ _ _ _ _ H) as (P0 & P1 & P2).
  clear H. set (k := (a + e + i - 1) / 2) in *.
  assert (Hk : -1 <= k <= 1) by (unfold k; lra).
  set (th := acos k) in *.
  assert (Hcos : cos th = k) by (apply cos_acos; exact Hk).
  assert (Hs0 : 0 < sin th) by (apply sin_gt_0; lra).
  pose proof (sin2_cos2 th) as Hsc. unfold Rsqr in Hsc. rewrite Hcos in Hsc.
  set (s := sin th) in *.
  assert (T : a + e + i + 1 = 2 * (1 + k)) by (unfold k; field).
  assert (Sx : (h - f) * (h - f) = 4 * (1 + k) * (a - k)).
  { replace ((h - f) * (h - f)) with ((h - f) ^ 2) by ring. rewrite S0, T.
    unfold k. field. }
  assert (Sy : (c - g) * (c - g) = 4 * (1 + k) * (e - k)).
  { replace ((c - g) * (c - g)) with ((c - g) ^ 2) by ring. rewrite S1, T.
    unfold k. field. }
  assert (Sz : (d - b) * (d - b) = 4 * (1 + k) * (i - k)).
  { replace ((d - b) * (d - b)) with ((d - b) ^ 2) by ring. rewrite S2, T.
    unfold k. field. }
  assert (Pxy : (h - f) * (c - g) = 2 * (1 + k) * (b + d))
    by (rewrite P0, T; ring).
  assert (Pxz : (h - f) * (d - b) = 2 * (1 + k) * (c + g))
    by (rewrite P1, T; ring).
  assert (Pyz : (c - g) * (d - b) = 2 * (1 + k) * (f + h))
    by (rewrite P2, T; ring).
  assert (HN : (h - f) ^ 2 + (c - g) ^ 2 + (d - b) ^ 2 = (2 * s) * (2 * s)).
  { replace ((h - f) ^ 2) with ((h - f) * (h - f)) by ring.
    replace ((c - g) ^ 2) with ((c - g) * (c - g)) by ring.
    replace ((d - b) ^ 2) with ((d - b) * (d - b)) by ring.
    rewrite Sx, Sy, Sz.
    replace (4 * (1 + k) * (a - k) + 4 * (1 + k) * (e - k)
             + 4 * (1 + k) * (i - k))
      with (4 * (1 + k) * (a + e + i - 3 * k)) by ring.
    replace (a + e + i - 3 * k) with (1 - k) by (unfold k; field).
    nra. }
  assert (Hn : sqrt ((h - f) ^ 2 + (c - g) ^ 2 + (d - b) ^ 2) = 2 * s).
  { rewrite HN. apply sqrt_square. lra. }
  unfold axis_general. cbn [m00 m01 m02 m10 m11 m12 m20 m21 m22].
  rewrite Hn.
  assert (Hv : vnorm (V3 ((h - f) / (2 * s)) ((c - g) / (2 * s))
                         ((d - b) / (2 * s))) = 1).
  { unfold vnorm. cbn [vx vy vz].
    replace ((h - f) / (2 * s) * ((h - f) / (2 * s))
             + (c - g) / (2 * s) * ((c - g) / (2 * s))
             + (d - b) / (2 * s) * ((d - b) / (2 * s)))
      with (((h - f) ^ 2 + (c - g) ^ 2 + (d - b) ^ 2) / ((2 * s) * (2 * s)))
      by (field; lra).
    rewrite HN.
    replace (2 * s * (2 * s) / (2 * s * (2 * s))) with 1 by (field; lra).
    apply sqrt_1. }
  unfold _vrrotvec2mat. rewrite Hv. unfold vdiv. cbn [vx vy vz].
  fold s. rewrite Hcos.
  replace ((h - f) / (2 * s) / 1) with ((h - f) / (2 * s)) by (field; lra).
  replace ((c - g) / (2 * s) / 1) with ((c - g) / (2 * s)) by (field; lra).
  replace ((d - b) / (2 * s) / 1) with ((d - b) / (2 * s)) by (field; lra).
  apply rodrigues_rebuild; auto; lra.
Qed.

Close Scope R_scope.

Open Scope R_scope.




Close Scope R_scope.

Open Scope R_scope.



Close Scope R_scope.

(** ** generate_structure: the arrays of the DNA structure *)

Lemma set_nth_snoc_map {A : Type} (f : A -> A) (l : list A) (k : nat) (x : A) :
  nth_error l k = Some x ->
  set_nth (map f (firstn k l) ++ skipn k l) k (f x)
  = map f (firstn (S k) l) ++ skipn (S k) l.
Proof.
  revert k. induction l as [|h t IH]; intros [|k] H; simpl in *;
    try discriminate.
  - now injection H as ->.
  - f_equal. now apply IH.
Qed.

Lemma nth_error_map_firstn {A : Type} (f : A -> A) (l : list A) (k : nat) :
  nth_error (map f (firstn k l) ++ skipn k l) k = nth_error l k.
Proof.
  revert k. induction l as [|h t IH]; intros [|k]; simpl; auto.
Qed.

Lemma length_map_firstn {A : Type} (f : A -> A) (l : list A) (k : nat) :
  List.length (map f (firstn k l) ++ skipn k l) = List.length l.
Proof.
  rewrite length_app, length_map, <- length_app, firstn_skipn. reflexivity.
Qed.

(** The loop that converts the base node coordinates. *)
Lemma convert_loop_spec (self : AtomicStructure) (n : nat) :
  n <= List.length (helix_axis_coords (dna_structure self)) ->
  for_in (range (Z.of_nat n)) convert_base_node self
  = (Ok tt, set_base_nodes self
              (map to_angstroms
                   (firstn n (helix_axis_coords (dna_structure self)))
               ++ skipn n (helix_axis_coords (dna_structure self)))).
Proof.
  rewrite range_nat. induction n as [|n IH]; intros Hn.
  - simpl. unfold ret. destruct self as [[] ? ? ?]. reflexivity.
  - rewrite seq_S, map_app, for_in_app, IH by lia. cbn [map for_in Nat.add].
    unfold convert_base_node. unfold sbind, get, lift, put, ret.
    cbn [set_base_nodes dna_structure helix_axis_coords].
    destruct (nth_error (helix_axis_coords (dna_structure self)) n)
      as [v|] eqn:E; [|apply nth_error_None in E; lia].
    rewrite (py_get_nat _ _ v) by (now rewrite nth_error_map_firstn).
    rewrite py_set_nat by (rewrite length_map_firstn; lia).
    rewrite (set_nth_snoc_map _ _ _ _ E). reflexivity.
Qed.

(** The loop that reverses the coordinate frames. *)
Lemma reverse_loop_spec (self : AtomicStructure) (n : nat) :
  n <= List.length (helix_axis_frames (dna_structure self)) ->
  for_in (range (Z.of_nat n)) reverse_triad self
  = (Ok tt, set_triads self
              (map reverse_frames
                   (firstn n (helix_axis_frames (dna_structure self)))
               ++ skipn n (helix_axis_frames (dna_structure self)))).
Proof.
  rewrite range_nat. induction n as [|n IH]; intros Hn.
  - simpl. unfold ret. destruct self as [[] ? ? ?]. reflexivity.
  - rewrite seq_S, map_app, for_in_app, IH by lia. cbn [map for_in Nat.add].
    unfold reverse_triad. unfold sbind, get, lift, put, ret.
    cbn [set_triads dna_structure helix_axis_frames].
    destruct (nth_error (helix_axis_frames (dna_structure self)) n)
      as [v|] eqn:E; [|apply nth_error_None in E; lia].
    rewrite (py_get_nat _ _ v) by (now rewrite nth_error_map_firstn).
    rewrite py_set_nat by (rewrite length_map_firstn; lia).
    rewrite (set_nth_snoc_map _ _ _ _ E). reflexivity.
Qed.

Lemma keeps_sbind {A B : Type} (D : DnaStructure) (m : M AtomicStructure A)
    (k : A -> M AtomicStructure B) :
  keeps_dna D m -> (forall a, keeps_dna D (k a)) -> keeps_dna D (sbind m k).
Proof.
  intros Hm Hk s Hs. unfold sbind. specialize (Hm s Hs).
  destruct (m s) as [[a|e] s']; simpl in *; auto. now apply Hk.
Qed.

Lemma keeps_get_bind {B : Type} (D : DnaStructure)
    (k : AtomicStructure -> M AtomicStructure B) :
  (forall a, dna_structure a = D -> keeps_dna D (k a)) ->
  keeps_dna D (sbind get k).
Proof. intros Hk s Hs. unfold sbind, get. now apply Hk. Qed.

Lemma keeps_lift {A : Type} (D : DnaStructure) (r : Res A) :
  keeps_dna D (lift r).
Proof. intros s Hs. exact Hs. Qed.

Lemma keeps_ret {A : Type} (D : DnaStructure) (a : A) : keeps_dna D (ret a).
Proof. intros s Hs. exact Hs. Qed.

Lemma keeps_put (D : DnaStructure) (s' : AtomicStructure) :
  dna_structure s' = D -> keeps_dna D (put s').
Proof. intros H s _. exact H. Qed.

Lemma keeps_for_in {X : Type} (D : DnaStructure) (xs : list X)
    (body : X -> M AtomicStructure unit) :
  (forall x, keeps_dna D (body x)) -> keeps_dna D (for_in xs body).
Proof.
  intros Hb. induction xs as [|x xs IH]; simpl.
  - apply keeps_ret.
  - apply keeps_sbind; auto.
Qed.

Lemma keeps_update_strand (D : DnaStructure) (sidx : Z)
    (f : AtomicStructureStrand -> Res AtomicStructureStrand) :
  keeps_dna D (update_strand sidx f).
Proof.
  unfold update_strand. apply keeps_get_bind. intros a Ha.
  apply keeps_sbind; [apply keeps_lift|]. intros s1.
  apply keeps_sbind; [apply keeps_lift|]. intros s2.
  apply keeps_sbind; [apply keeps_lift|]. intros l.
  apply keeps_put. exact Ha.
Qed.

Lemma keeps_set_paired_base (D : DnaStructure) (i base_id : Z) (main : bool) :
  keeps_dna D (set_paired_base i base_id main).
Proof.
  unfold set_paired_base. apply keeps_get_bind. intros a Ha.
  repeat first
    [ apply keeps_update_strand
    | apply keeps_sbind; [first [apply keeps_lift|apply keeps_update_strand]|];
      intros ? ].
Qed.

Lemma keeps_set_strand_data (D : DnaStructure) (i : Z) :
  keeps_dna D (set_strand_data i).
Proof.
  unfold set_strand_data. apply keeps_get_bind. intros a Ha.
  apply keeps_sbind; [apply keeps_lift|]. intros ids.
  apply keeps_sbind; [apply keeps_set_paired_base|]. intros _.
  apply keeps_set_paired_base.
Qed.

Lemma keeps_create_bulges (D : DnaStructure) (k : Z) :
  keeps_dna D (create_bulges k).
Proof.
  unfold create_bulges. apply keeps_get_bind. intros a Ha.
  apply keeps_sbind; [apply keeps_lift|]. intros strand.
  destruct (_generate_bulge_dof _ _) as [r dof].
  apply keeps_sbind; [apply keeps_lift|]. intros l.
  apply keeps_sbind; [apply keeps_put; exact Ha|]. intros _.
  apply keeps_sbind; [apply keeps_lift|]. intros _.
  apply keeps_for_in. intros i. apply keeps_update_strand.
Qed.

(** After the three loops of the Frame Initializer, the rest of
    [generate_structure] leaves the arrays of the DNA structure alone. *)
Lemma generate_structure_dna (pdb : string -> Res (list Atom))
    (self : AtomicStructure) :
  let n := List.length (id_nt (dna_structure self)) in
  let d := dna_structure self in
  n <= List.length (helix_axis_coords d) ->
  n <= List.length (helix_axis_frames d) ->
  dna_structure (snd (generate_structure pdb self))
  = mkDnaStructure (base_connectivity d)
      (map to_angstroms (firstn n (helix_axis_coords d))
       ++ skipn n (helix_axis_coords d))
      (map reverse_frames (firstn n (helix_axis_frames d))
       ++ skipn n (helix_axis_frames d))
      (id_nt d) (dna_strands d).
Proof.
  intros n d Hc Ht.
  unfold generate_structure, init_frames.
  unfold sbind at 1. unfold sbind at 1. unfold get at 1.
  unfold sbind at 1. unfold len. fold n.
  rewrite convert_loop_spec by exact Hc.
  unfold sbind at 1.
  rewrite reverse_loop_spec by exact Ht.
  cbn [set_base_nodes set_triads dna_structure helix_axis_coords
       helix_axis_frames molecules strands logger base_connectivity id_nt
       dna_strands].
  fold d.
  match goal with
  | |- dna_structure (snd (match ?m ?s with _ => _ end)) = ?D =>
      assert (K1 : keeps_dna D m)
        by (apply keeps_for_in; intros i; apply keeps_set_strand_data);
      specialize (K1 s eq_refl); destruct (m s) as [[[]|e] s1]
  end; cbn [snd] in *; [|exact K1].
  match goal with
  | |- dna_structure (snd (?m s1)) = ?D => assert (K2 : keeps_dna D m)
  end; [|now apply K2].
  apply keeps_get_bind. intros a Ha.
  apply keeps_sbind.
  { apply keeps_for_in. intros i. apply keeps_create_bulges. }
  intros _. apply keeps_get_bind. intros b Hb.
  destruct (_generate_atoms _ _ _ _) as [r log].
  apply keeps_sbind; [apply keeps_put; exact Hb|]. intros _.
  apply keeps_sbind; [apply keeps_lift|]. intros mols.
  apply keeps_get_bind. intros c Hc'.
  apply keeps_sbind; [apply keeps_put; exact Hc'|]. intros _.
  apply keeps_ret.
Qed.

(** ** The Frame Initializer *)

Lemma py_index_length {A B : Type} (l : list A) (l' : list B) (i : Z) :
  List.length l = List.length l' -> py_index l i = py_index l' i.
Proof. intros H. unfold py_index, len. now rewrite H. Qed.

Lemma py_get_index {A : Type} (l : list A) (i : Z) (k : nat) (a : A) :
  py_index l i = Ok k -> nth_error l k = Some a -> py_get l i = Ok a.
Proof. intros H1 H2. unfold py_get. rewrite H1. simpl. now rewrite H2. Qed.

Lemma py_set_index {A : Type} (l : list A) (i : Z) (k : nat) (a : A) :
  py_index l i = Ok k -> py_set l i a = Ok (set_nth l k a).
Proof. intros H. unfold py_set. now rewrite H. Qed.

Lemma set_nth_set_nth {A : Type} (l : list A) (k : nat) (a b : A) :
  set_nth (set_nth l k a) k b = set_nth l k b.
Proof.
  revert k. induction l as [|h t IH]; intros [|k]; simpl; auto.
  now rewrite IH.
Qed.

Lemma update_strand_spec (sidxZ : Z) (sidx : nat)
    (f : AtomicStructureStrand -> Res AtomicStructureStrand)
    (self : AtomicStructure) (s s' : AtomicStructureStrand) :
  py_index (strands self) sidxZ = Ok sidx ->
  nth_error (strands self) sidx = Some s ->
  f s = Ok s' ->
  update_strand sidxZ f self
  = (Ok tt, set_strands self (set_nth (strands self) sidx s')).
Proof.
  intros H1 H2 H3. unfold update_strand. unfold sbind, get, lift, put.
  rewrite (py_get_index _ _ _ _ H1 H2), H3, (py_set_index _ _ _ _ H1).
  reflexivity.
Qed.

Lemma slot_of_inv (bc : list DnaBase) (strands : list AtomicStructureStrand)
    (base_id : Z) (sp : nat * nat) :
  slot_of bc strands base_id = Ok sp ->
  exists base strand pos,
    py_get bc base_id = Ok base /\
    py_index strands (base_strand base) = Ok (fst sp) /\
    nth_error strands (fst sp) = Some strand /\
    get_base_index strand base = Ok pos /\
    py_index (rotations strand) pos = Ok (snd sp).
Proof.
  unfold slot_of. destruct (py_get bc base_id) as [base|]; [|discriminate].
  cbn [bind].
  destruct (py_index strands (base_strand base)) as [sidx|] eqn:E1;
    [|discriminate].
  cbn [bind]. destruct (nth_error strands sidx) as [strand|] eqn:E2;
    [|discriminate].
  destruct (get_base_index strand base) as [pos|] eqn:E3; [|discriminate].
  cbn [bind].
  destruct (py_index (rotations strand) pos) as [pidx|] eqn:E4;
    [|discriminate].
  cbn [bind]. intros [= <-]. exists base, strand, pos.
  cbn [fst snd]. repeat split; assumption.
Qed.

Lemma slot_of_shape (bc : list DnaBase)
    (strands strands' : list AtomicStructureStrand) (base_id : Z) :
  shape strands = shape strands' ->
  slot_of bc strands base_id = slot_of bc strands' base_id.
Proof.
  intros H. unfold slot_of.
  destruct (py_get bc base_id) as [base|]; [|reflexivity]. cbn [bind].
  assert (L : List.length strands = List.length strands').
  { apply (f_equal (@List.length _)) in H. unfold shape in H.
    now rewrite !length_map in H. }
  rewrite (py_index_length strands strands' _ L).
  destruct (py_index strands' (base_strand base)) as [sidx|]; [|reflexivity].
  cbn [bind].
  assert (E : nth_error (shape strands) sidx = nth_error (shape strands') sidx)
    by (now rewrite H).
  unfold shape in E. rewrite !nth_error_map in E.
  destruct (nth_error strands sidx) as [s|],
           (nth_error strands' sidx) as [s'|]; try discriminate; auto.
  simpl in E. injection E as E1 E2.
  unfold get_base_index. rewrite E1.
  destruct (tour_position _ _ _) as [pos|]; [|reflexivity]. cbn [bind].
  now rewrite (py_index_length (rotations s) (rotations s') _ E2).
Qed.

Lemma shape_write_slot (sp : nat * nat) (main : bool) (letter : string)
    (R : mat3) (d : vec3) (strands : list AtomicStructureStrand) :
  shape (write_slot sp main letter R d strands) = shape strands.
Proof.
  unfold write_slot. destruct (nth_error strands (fst sp)) as [s|] eqn:E;
    [|reflexivity].
  unfold shape. revert E. generalize (fst sp) as k.
  induction strands as [|h t IH]; intros [|k] E; simpl in *;
    try discriminate.
  - injection E as ->. f_equal. f_equal. apply length_set_nth.
  - f_equal. now apply IH.
Qed.

Lemma parallel_write_slot (sp : nat * nat) (main : bool) (letter : string)
    (R : mat3) (d : vec3) (strands : list AtomicStructureStrand) :
  Forall arrays_parallel strands ->
  Forall arrays_parallel (write_slot sp main letter R d strands).
Proof.
  intros H. unfold write_slot.
  destruct (nth_error strands (fst sp)) as [s|] eqn:E; [|exact H].
  revert E. generalize (fst sp) as k.
  induction H as [|h t Hh Ht IH]; intros [|k] E; simpl in *;
    try discriminate.
  - injection E as ->. constructor; auto.
    destruct Hh as (H1 & H2 & H3). unfold arrays_parallel, write_base.
    simpl. now rewrite !length_set_nth.
  - constructor; auto.
Qed.

(** The frame at the slot that was written, and at the other slots. *)
Lemma frame_at_write_slot_eq (sp : nat * nat) (main : bool) (letter : string)
    (R : mat3) (d : vec3) (strands : list AtomicStructureStrand)
    (s : AtomicStructureStrand) :
  nth_error strands (fst sp) = Some s ->
  arrays_parallel s ->
  snd sp < List.length (rotations s) ->
  frame_at (write_slot sp main letter R d strands) sp
  = Some (Some R, Some d, main).
Proof.
  intros E (H1 & H2 & H3) Hp. unfold frame_at, write_slot. rewrite E.
  rewrite nth_error_set_nth_eq by (apply nth_error_Some; congruence).
  unfold write_base. simpl.
  rewrite !nth_error_set_nth_eq by lia. reflexivity.
Qed.

Lemma frame_at_write_slot_neq (sp sp' : nat * nat) (main : bool)
    (letter : string) (R : mat3) (d : vec3)
    (strands : list AtomicStructureStrand) :
  sp' <> sp ->
  frame_at (write_slot sp main letter R d strands) sp' = frame_at strands sp'.
Proof.
  intros Hne. unfold frame_at, write_slot.
  destruct (nth_error strands (fst sp)) as [s|] eqn:E; [|reflexivity].
  destruct (Nat.eq_dec (fst sp') (fst sp)) as [Ef|Ef].
  - rewrite Ef, E.
    rewrite nth_error_set_nth_eq by (apply nth_error_Some; congruence).
    assert (Hs : snd sp' <> snd sp).
    { intros Hs. apply Hne. destruct sp, sp'. simpl in *. congruence. }
    unfold write_base. simpl.
    rewrite !nth_error_set_nth_neq by exact Hs. reflexivity.
  - rewrite nth_error_set_nth_neq by exact Ef. reflexivity.
Qed.

(** The statements of the pairing loop for one base write its slot. *)
Lemma set_paired_base_spec (i : nat) (base_id : Z) (main : bool)
    (self : AtomicStructure) (sp : nat * nat) (T : mat3) (v : vec3) :
  slot_of (base_connectivity (dna_structure self)) (strands self) base_id
  = Ok sp ->
  Forall arrays_parallel (strands self) ->
  nth_error (helix_axis_frames (dna_structure self)) i = Some T ->
  nth_error (helix_axis_coords (dna_structure self)) i = Some v ->
  exists letter,
    set_paired_base (Z.of_nat i) base_id main self
    = (Ok tt, set_strands self
                (write_slot sp main letter (mmul T rot_mat) v (strands self))).
Proof.
  intros Hslot Hpar HT Hv.
  destruct (slot_of_inv _ _ _ _ Hslot)
    as (base & s & pos & Hb & Hsi & Hs & Hpos & Hpi).
  assert (Hps : arrays_parallel s).
  { rewrite Forall_forall in Hpar. apply Hpar.
    eapply nth_error_In; eauto. }
  destruct Hps as (P1 & P2 & P3).
  assert (Hlt : fst sp < List.length (strands self)).
  { apply nth_error_Some. congruence. }
  exists (base_seq base).
  unfold set_paired_base. unfold sbind at 1. unfold get at 1.
  unfold sbind at 1. unfold lift at 1. rewrite Hb.
  unfold sbind at 1. unfold lift at 1.
  rewrite (py_get_index _ _ _ _ Hsi Hs).
  unfold sbind at 1. unfold lift at 1. rewrite Hpos.
  (* is_main *)
  unfold sbind at 1.
  rewrite (update_strand_spec _ (fst sp) _ self s
             (set_is_main s (set_nth (is_main s) (snd sp) main)) Hsi Hs).
  2:{ rewrite (py_set_index _ _ (snd sp)); [reflexivity|].
      rewrite (py_index_length _ (rotations s)); auto. }
  set (s1 := set_is_main s (set_nth (is_main s) (snd sp) main)).
  set (self1 := set_strands self (set_nth (strands self) (fst sp) s1)).
  (* seq *)
  unfold sbind at 1.
  rewrite (update_strand_spec _ (fst sp) _ self1 s1
             (set_seq s1 (set_nth (strand_seq s1) (snd sp) (base_seq base)))).
  2:{ unfold self1. cbn [strands set_strands].
      rewrite (py_index_length _ (strands self)); auto.
      apply length_set_nth. }
  2:{ unfold self1. cbn [strands set_strands].
      now apply nth_error_set_nth_eq. }
  2:{ rewrite (py_set_index _ _ (snd sp)); [reflexivity|].
      unfold s1. cbn [strand_seq set_is_main].
      rewrite (py_index_length _ (rotations s)); auto. }
  set (s2 := set_seq s1 (set_nth (strand_seq s1) (snd sp) (base_seq base))).
  set (self2 := set_strands self1 (set_nth (strands self1) (fst sp) s2)).
  (* rotations *)
  unfold sbind at 1. unfold lift at 1. rewrite (py_get_nat _ _ _ HT).
  unfold sbind at 1.
  rewrite (update_strand_spec _ (fst sp) _ self2 s2
             (set_rotations s2 (set_nth (rotations s2) (snd sp)
                                        (Some (mmul T rot_mat))))).
  2:{ unfold self2, self1. cbn [strands set_strands].
      rewrite (py_index_length _ (strands self)); auto.
      now rewrite !length_set_nth. }
  2:{ unfold self2, self1. cbn [strands set_strands].
      apply nth_error_set_nth_eq. now rewrite length_set_nth. }
  2:{ rewrite (py_set_index _ _ (snd sp)); [reflexivity|]. exact Hpi. }
  set (s3 := set_rotations s2 (set_nth (rotations s2) (snd sp)
                                       (Some (mmul T rot_mat)))).
  set (self3 := set_strands self2 (set_nth (strands self2) (fst sp) s3)).
  (* translations *)
  unfold sbind at 1. unfold lift at 1. rewrite (py_get_nat _ _ _ Hv).
  rewrite (update_strand_spec _ (fst sp) _ self3 s3
             (set_translations s3 (set_nth (translations s3) (snd sp)
                                           (Some v)))).
  2:{ unfold self3, self2, self1. cbn [strands set_strands].
      rewrite (py_index_length _ (strands self)); auto.
      now rewrite !length_set_nth. }
  2:{ unfold self3, self2, self1. cbn [strands set_strands].
      apply nth_error_set_nth_eq. now rewrite !length_set_nth. }
  2:{ rewrite (py_set_index _ _ (snd sp)); [reflexivity|].
      unfold s3, s2, s1. cbn [translations set_rotations set_seq set_is_main].
      rewrite (py_index_length _ (rotations s)); auto. }
  f_equal. unfold self3, self2, self1. cbn [strands set_strands].
  rewrite !set_nth_set_nth. unfold write_slot. rewrite Hs.
  destruct self. reflexivity.
Qed.

Lemma set_strands_set_strands (self : AtomicStructure)
    (a b : list AtomicStructureStrand) :
  set_strands (set_strands self a) b = set_strands self b.
Proof. reflexivity. Qed.

(** The body of the pairing loop writes the two slots of the pair. *)
Lemma set_strand_data_spec (i : nat) (self : AtomicStructure) (ids : Z * Z)
    (sl : (nat * nat) * (nat * nat)) (T : mat3) (v : vec3) :
  nth_error (id_nt (dna_structure self)) i = Some ids ->
  slot_of (base_connectivity (dna_structure self)) (strands self) (fst ids)
  = Ok (fst sl) ->
  slot_of (base_connectivity (dna_structure self)) (strands self) (snd ids)
  = Ok (snd sl) ->
  Forall arrays_parallel (strands self) ->
  nth_error (helix_axis_frames (dna_structure self)) i = Some T ->
  nth_error (helix_axis_coords (dna_structure self)) i = Some v ->
  exists l1 l2,
    set_strand_data (Z.of_nat i) self
    = (Ok tt,
       set_strands self
         (write_slot (snd sl) false l2 (mmul T rot_mat) v
            (write_slot (fst sl) true l1 (mmul T rot_mat) v (strands self)))).
Proof.
  intros Hid H1 H2 Hpar HT Hv.
  destruct (set_paired_base_spec i (fst ids) true self (fst sl) T v
              H1 Hpar HT Hv) as (l1 & E1).
  set (self1 := set_strands self
                  (write_slot (fst sl) true l1 (mmul T rot_mat) v
                              (strands self))) in *.
  destruct (set_paired_base_spec i (snd ids) false self1 (snd sl) T v)
    as (l2 & E2); auto.
  { unfold self1. cbn [dna_structure strands set_strands].
    rewrite (slot_of_shape _ _ (strands self)); auto.
    apply shape_write_slot. }
  { unfold self1. cbn [strands set_strands]. now apply parallel_write_slot. }
  exists l1, l2. unfold set_strand_data. unfold sbind, get, lift.
  rewrite (py_get_nat _ _ _ Hid). fold self1 in E1.
  unfold sbind in E1, E2. rewrite E1, E2. reflexivity.
Qed.

Lemma firstn_snoc {A : Type} (l : list A) (k : nat) (x : A) :
  nth_error l k = Some x -> firstn (S k) l = firstn k l ++ [x].
Proof.
  revert k. induction l as [|h t IH]; intros [|k] H; simpl in *;
    try discriminate.
  - now injection H as ->.
  - f_equal. now apply IH.
Qed.

Lemma all_slots_snoc (slots : list ((nat * nat) * (nat * nat)))
    (sl : (nat * nat) * (nat * nat)) :
  all_slots (slots ++ [sl]) = all_slots slots ++ [fst sl; snd sl].
Proof. unfold all_slots. rewrite flat_map_app. simpl. reflexivity. Qed.

Lemma NoDup_app_l {A : Type} (l1 l2 : list A) :
  NoDup (l1 ++ l2) -> NoDup l1.
Proof.
  induction l1 as [|x l1 IH]; intros H; [constructor|].
  inversion H as [|? ? Hx Hn]; subst. constructor; auto.
  intros Hin. apply Hx. apply in_or_app. now left.
Qed.

(** The slots of a pair differ from each other and from the slots of the
    pairs before it. *)
Lemma slots_distinct (slots : list ((nat * nat) * (nat * nat))) (k : nat)
    (sl : (nat * nat) * (nat * nat)) :
  NoDup (all_slots slots) -> nth_error slots k = Some sl ->
  fst sl <> snd sl /\
  ~ In (fst sl) (all_slots (firstn k slots)) /\
  ~ In (snd sl) (all_slots (firstn k slots)).
Proof.
  intros Hnd Hk.
  assert (E : slots = firstn (S k) slots ++ skipn (S k) slots)
    by (symmetry; apply firstn_skipn).
  rewrite (firstn_snoc _ _ _ Hk) in E. rewrite E in Hnd.
  unfold all_slots in Hnd. rewrite flat_map_app in Hnd.
  apply NoDup_app_l in Hnd. fold (all_slots (firstn k slots ++ [sl])) in Hnd.
  rewrite all_slots_snoc in Hnd.
  generalize dependent (all_slots (firstn k slots)). intros pre Hnd.
  induction pre as [|x pre IH]; simpl in Hnd.
  - inversion Hnd as [|? ? Hx _]; subst. simpl in Hx. split; [|tauto].
    intros Heq. apply Hx. now left.
  - inversion Hnd as [|? ? Hx Hn]; subst.
    destruct (IH Hn) as (H1 & H2 & H3). split; [exact H1|].
    split; intros [->|Hin]; auto; apply Hx, in_or_app; right; simpl; auto.
Qed.

(** The pairing loop over the first [k] pairs. *)
Lemma pairing_loop_spec (self : AtomicStructure)
    (slots : list ((nat * nat) * (nat * nat))) :
  let d := dna_structure self in
  List.length slots = List.length (id_nt d) ->
  List.length (helix_axis_frames d) = List.length (id_nt d) ->
  List.length (helix_axis_coords d) = List.length (id_nt d) ->
  (forall i ids sl, nth_error (id_nt d) i = Some ids ->
     nth_error slots i = Some sl ->
     slot_of (base_connectivity d) (strands self) (fst ids) = Ok (fst sl) /\
     slot_of (base_connectivity d) (strands self) (snd ids) = Ok (snd sl)) ->
  NoDup (all_slots slots) ->
  Forall arrays_parallel (strands self) ->
  forall k, k <= List.length (id_nt d) ->
    exists strands_k,
      for_in (range (Z.of_nat k)) set_strand_data self
      = (Ok tt, set_strands self strands_k) /\
      shape strands_k = shape (strands self) /\
      Forall arrays_parallel strands_k /\
      (forall i sl T v, i < k ->
         nth_error slots i = Some sl ->
         nth_error (helix_axis_frames d) i = Some T ->
         nth_error (helix_axis_coords d) i = Some v ->
         frame_at strands_k (fst sl)
         = Some (Some (mmul T rot_mat), Some v, true) /\
         frame_at strands_k (snd sl)
         = Some (Some (mmul T rot_mat), Some v, false)) /\
      (forall sp, ~ In sp (all_slots (firstn k slots)) ->
         frame_at strands_k sp = frame_at (strands self) sp).
Proof.
  intros d Ls Lf Lc Hslots Hnd Hpar. induction k as [|k IH]; intros Hk.
  - exists (strands self). split; [|split; [|split; [|split]]]; auto.
    + simpl. unfold ret. now destruct self.
    + intros; lia.
  - destruct IH as (sk & E & Hsh & Hpk & Hfr & Hout); [lia|].
    destruct (nth_error (id_nt d) k) as [ids|] eqn:Eid;
      [|apply nth_error_None in Eid; lia].
    destruct (nth_error slots k) as [sl|] eqn:Esl;
      [|apply nth_error_None in Esl; lia].
    destruct (nth_error (helix_axis_frames d) k) as [T|] eqn:ET;
      [|apply nth_error_None in ET; lia].
    destruct (nth_error (helix_axis_coords d) k) as [v|] eqn:Ev;
      [|apply nth_error_None in Ev; lia].
    destruct (Hslots k ids sl Eid Esl) as (H1 & H2).
    destruct (slots_distinct slots k sl Hnd Esl) as (Hne & Hn1 & Hn2).
    assert (H1k : slot_of (base_connectivity d) sk (fst ids) = Ok (fst sl)).
    { now rewrite (slot_of_shape _ _ (strands self)). }
    assert (H2k : slot_of (base_connectivity d) sk (snd ids) = Ok (snd sl)).
    { now rewrite (slot_of_shape _ _ (strands self)). }
    destruct (set_strand_data_spec k (set_strands self sk) ids sl T v)
      as (l1 & l2 & E2); auto.
    set (w1 := write_slot (fst sl) true l1 (mmul T rot_mat) v sk) in *.
    set (w2 := write_slot (snd sl) false l2 (mmul T rot_mat) v w1) in *.
    cbn [strands set_strands] in E2. rewrite set_strands_set_strands in E2.
    exists w2. split; [|split; [|split; [|split]]].
    + rewrite range_nat, seq_S, map_app, for_in_app, <- range_nat, E.
      cbn [map for_in Nat.add]. unfold sbind. rewrite E2. reflexivity.
    + unfold w2, w1. now rewrite !shape_write_slot.
    + unfold w2, w1. now apply parallel_write_slot, parallel_write_slot.
    + intros i sl' T' v' Hi Hsl' HT' Hv'.
      destruct (Nat.eq_dec i k) as [->|Hik].
      * rewrite Esl in Hsl'. injection Hsl' as <-.
        rewrite ET in HT'. injection HT' as <-.
        rewrite Ev in Hv'. injection Hv' as <-.
        destruct (slot_of_inv _ _ _ _ H1k) as (b1 & s1 & p1 & _ & _ & Hs1 & _ & Hp1).
        assert (H2w : slot_of (base_connectivity d) w1 (snd ids)
                      = Ok (snd sl)).
        { rewrite (slot_of_shape _ _ sk); auto. apply shape_write_slot. }
        destruct (slot_of_inv _ _ _ _ H2w) as (b2 & s2 & p2 & _ & _ & Hs2 & _ & Hp2).
        split.
        -- unfold w2. rewrite frame_at_write_slot_neq by exact Hne.
           unfold w1. apply (frame_at_write_slot_eq _ _ _ _ _ _ s1); auto.
           ++ rewrite Forall_forall in Hpk. apply Hpk.
              eapply nth_error_In; eauto.
           ++ eapply py_index_bound; eauto.
        -- unfold w2. apply (frame_at_write_slot_eq _ _ _ _ _ _ s2); auto.
           ++ assert (Hpw : Forall arrays_parallel w1)
                by (now apply parallel_write_slot).
              rewrite Forall_forall in Hpw. apply Hpw.
              eapply nth_error_In; eauto.
           ++ eapply py_index_bound; eauto.
      * assert (Hi' : i < k) by lia.
        destruct (Hfr i sl' T' v' Hi' Hsl' HT' Hv') as (F1 & F2).
        assert (Hin1 : In (fst sl') (all_slots (firstn k slots))).
        { unfold all_slots. apply in_flat_map. exists sl'. split.
          - rewrite <- (firstn_skipn k slots) in Hsl'.
            rewrite nth_error_app1 in Hsl'
              by (rewrite length_firstn; lia).
            eapply nth_error_In; eauto.
          - now left. }
        assert (Hin2 : In (snd sl') (all_slots (firstn k slots))).
        { unfold all_slots. apply in_flat_map. exists sl'. split.
          - rewrite <- (firstn_skipn k slots) in Hsl'.
            rewrite nth_error_app1 in Hsl'
              by (rewrite length_firstn; lia).
            eapply nth_error_In; eauto.
          - right. now left. }
        split.
        -- unfold w2, w1. rewrite !frame_at_write_slot_neq; auto;
             intros Heq; rewrite Heq in Hin1; contradiction.
        -- unfold w2, w1. rewrite !frame_at_write_slot_neq; auto;
             intros Heq; rewrite Heq in Hin2; contradiction.
    + intros sp Hsp. rewrite (firstn_snoc _ _ _ Esl), all_slots_snoc in Hsp.
      unfold w2, w1. rewrite !frame_at_write_slot_neq.
      * apply Hout. intros Hin. apply Hsp, in_or_app. now left.
      * intros ->. apply Hsp, in_or_app. right. now left.
      * intros ->. apply Hsp, in_or_app. right. right. now left.
Qed.

Lemma init_strand_fresh (ds : DnaStrand) (s : AtomicStructureStrand) :
  AtomicStructureStrand_init ds = Ok s -> fresh_strand s.
Proof.
  unfold AtomicStructureStrand_init.
  destruct (py_get (dna_tour ds) 0) as [b|]; [|discriminate].
  cbn [bind]. intros [= <-]. unfold fresh_strand, arrays_parallel. simpl.
  rewrite !repeat_length. repeat split; auto; apply nth_error_repeat; auto.
Qed.

Lemma init_strand_data_fresh (l : list DnaStrand) :
  forall acc strands,
    Forall fresh_strand acc ->
    fold_res l (fun dna_strand strands =>
                  atomic_strand <- AtomicStructureStrand_init dna_strand ;;
                  Ok (strands ++ [atomic_strand])) acc = Ok strands ->
    Forall fresh_strand strands.
Proof.
  induction l as [|ds l IH]; intros acc strands Hacc; simpl.
  - now intros [= <-].
  - destruct (AtomicStructureStrand_init ds) as [s|] eqn:E; [|discriminate].
    cbn [bind]. apply IH. apply Forall_app. split; auto.
    constructor; [|constructor]. now apply init_strand_fresh in E.
Qed.

Lemma AtomicStructure_init_fresh (d : DnaStructure) (self : AtomicStructure) :
  AtomicStructure_init d = Ok self ->
  dna_structure self = d /\ Forall fresh_strand (strands self).
Proof.
  unfold AtomicStructure_init, _init_strand_data.
  destruct (fold_res _ _ _) as [ss|] eqn:E; [|discriminate].
  cbn [bind]. intros [= <-]. split; [reflexivity|].
  cbn [strands]. eapply init_strand_data_fresh; eauto.
Qed.

Lemma firstn_length_all {A : Type} (f : A -> A) (l : list A) (n : nat) :
  List.length l = n -> map f (firstn n l) ++ skipn n l = map f l.
Proof. intros <-. now rewrite firstn_all, skipn_all, app_nil_r. Qed.

(** The columns of a frame composed with [rot_mat]: the frame
    [e1 e2 e3] becomes [-e2 e3 -e1]. *)
Lemma rot_mat_columns (T : mat3) :
  mcol (mmul T rot_mat) 0 = vopp (mcol T 1) /\
  mcol (mmul T rot_mat) 1 = mcol T 2 /\
  mcol (mmul T rot_mat) 2 = vopp (mcol T 0).
Proof.
  destruct T. unfold mcol, vopp, mmul, rot_mat. simpl.
  repeat split; f_equal; ring.
Qed.

(** C5.  For every entry of the base-pairing table, the Frame Initializer
    gives both bases of the pair the same rotation (the triad with its
    frames 0 and 2 reversed, composed with the matrix that maps
    [e1 e2 e3] to [-e2 e3 -e1]) and the same translation (the axis
    coordinate times 10); the first base of the entry is marked
    [is_main = True] and its partner [is_main = False]; a base of no entry
    keeps rotation and translation unset. *)
Theorem frame_initializer_sets_pairs (d : DnaStructure)
    (self0 : AtomicStructure) (slots : list ((nat * nat) * (nat * nat))) :
  AtomicStructure_init d = Ok self0 ->
  List.length (helix_axis_coords d) = List.length (id_nt d) ->
  List.length (helix_axis_frames d) = List.length (id_nt d) ->
  List.length slots = List.length (id_nt d) ->
  (forall i ids sl, nth_error (id_nt d) i = Some ids ->
     nth_error slots i = Some sl ->
     slot_of (base_connectivity d) (strands self0) (fst ids) = Ok (fst sl) /\
     slot_of (base_connectivity d) (strands self0) (snd ids) = Ok (snd sl)) ->
  NoDup (all_slots slots) ->
  exists self1,
    init_frames self0 = (Ok tt, self1) /\
    (forall i sl T v,
       nth_error slots i = Some sl ->
       nth_error (helix_axis_frames d) i = Some T ->
       nth_error (helix_axis_coords d) i = Some v ->
       frame_at (strands self1) (fst sl)
       = Some (Some (mmul (reverse_frames T) rot_mat),
               Some (to_angstroms v), true) /\
       frame_at (strands self1) (snd sl)
       = Some (Some (mmul (reverse_frames T) rot_mat),
               Some (to_angstroms v), false)) /\
    (forall s p st,
       nth_error (strands self1) s = Some st ->
       p < List.length (rotations st) ->
       ~ In (s, p) (all_slots slots) ->
       nth_error (rotations st) p = Some None /\
       nth_error (translations st) p = Some None) /\
    (forall T,
       mcol (mmul T rot_mat) 0 = vopp (mcol T 1) /\
       mcol (mmul T rot_mat) 1 = mcol T 2 /\
       mcol (mmul T rot_mat) 2 = vopp (mcol T 0)).
Proof.
  intros Hinit Lc Lf Ls Hslots Hnd.
  destruct (AtomicStructure_init_fresh d self0 Hinit) as (Hd & Hfresh).
  set (n := List.length (id_nt d)) in *.
  set (self' := set_triads
                  (set_base_nodes self0 (map to_angstroms (helix_axis_coords d)))
                  (map reverse_frames (helix_axis_frames d))).
  assert (E12 : forall (k : M AtomicStructure unit),
            init_frames self0
            = for_in (range (Z.of_nat n)) set_strand_data self').
  { intros _. unfold init_frames, sbind, get, len. rewrite Hd. fold n.
    rewrite convert_loop_spec by (rewrite Hd; lia).
    rewrite reverse_loop_spec
      by (cbn [set_base_nodes dna_structure helix_axis_frames];
          rewrite Hd; lia).
    cbn [set_base_nodes dna_structure helix_axis_coords helix_axis_frames
         set_triads base_connectivity id_nt dna_strands molecules strands
         logger].
    rewrite Hd. rewrite (firstn_length_all _ _ _ Lc).
    rewrite (firstn_length_all _ _ _ Lf).
    unfold self', set_triads, set_base_nodes. cbn. rewrite Hd.
    reflexivity. }
  rewrite (E12 (ret tt)). clear E12.
  assert (Hd' : dna_structure self'
                = mkDnaStructure (base_connectivity d)
                    (map to_angstroms (helix_axis_coords d))
                    (map reverse_frames (helix_axis_frames d))
                    (id_nt d) (dna_strands d)).
  { unfold self'. cbn. now rewrite Hd. }
  assert (Hpar : Forall arrays_parallel (strands self')).
  { unfold self'. cbn. rewrite Forall_forall in *. intros s Hs.
    now destruct (Hfresh s Hs). }
  destruct (pairing_loop_spec self' slots) with (k := n)
    as (sk & E & Hsh & Hpk & Hfr & Hout); auto;
    try (rewrite Hd'; cbn [id_nt helix_axis_frames helix_axis_coords
                           base_connectivity]);
    try (rewrite length_map); auto.
  exists (set_strands self' sk). split; [exact E|]. split; [|split].
  - intros i sl T v Hsl HT Hv.
    assert (Hi : i < n).
    { rewrite <- Ls. apply nth_error_Some. congruence. }
    apply (Hfr i sl (reverse_frames T) (to_angstroms v) Hi Hsl);
      rewrite Hd'; cbn [helix_axis_frames helix_axis_coords];
      rewrite nth_error_map.
    + now rewrite HT.
    + now rewrite Hv.
  - intros s p st Hst Hp Hnot. cbn [strands set_strands] in Hst.
    assert (Hf : frame_at sk (s, p) = frame_at (strands self') (s, p)).
    { apply Hout. rewrite <- Ls, firstn_all. exact Hnot. }
    assert (Hst0 : exists st0, nth_error (strands self0) s = Some st0 /\
                     List.length (rotations st0) = List.length (rotations st)).
    { assert (Es : nth_error (shape sk) s = nth_error (shape (strands self')) s)
        by (now rewrite Hsh).
      unfold shape in Es. rewrite !nth_error_map, Hst in Es.
      unfold self' in Es. cbn [strands set_triads set_base_nodes] in Es.
      destruct (nth_error (strands self0) s) as [st0|]; [|discriminate].
      exists st0. split; auto. simpl in Es. congruence. }
    destruct Hst0 as (st0 & Hst0 & Hlen).
    assert (Hfr0 : fresh_strand st0).
    { rewrite Forall_forall in Hfresh. apply Hfresh.
      eapply nth_error_In; eauto. }
    destruct Hfr0 as ((P1 & P2 & P3) & Hnone).
    destruct (Hnone p) as (N1 & N2); [lia|].
    assert (Hpk' : arrays_parallel st).
    { rewrite Forall_forall in Hpk. apply Hpk. eapply nth_error_In; eauto. }
    destruct Hpk' as (Q1 & Q2 & Q3).
    unfold frame_at in Hf. cbn [fst snd] in Hf. rewrite Hst in Hf.
    unfold self' in Hf. cbn [strands set_triads set_base_nodes] in Hf.
    rewrite Hst0, N1, N2 in Hf.
    destruct (nth_error (is_main st0) p) as [m0|] eqn:EM;
      [|apply nth_error_None in EM; lia].
    destruct (nth_error (rotations st) p) as [R|] eqn:ER;
      [|apply nth_error_None in ER; lia].
    destruct (nth_error (translations st) p) as [t|] eqn:Et;
      [|apply nth_error_None in Et; lia].
    destruct (nth_error (is_main st) p) as [m|] eqn:Em;
      [|apply nth_error_None in Em; lia].
    injection Hf as -> -> _. split; reflexivity.
  - apply rot_mat_columns.
Qed.

(** C10.  [generate_structure] writes into the arrays of the DNA structure
    it was given: after one run every helix axis coordinate is multiplied
    by 10 and every triad has its columns 0 and 2 reversed, whatever the
    run returns; a second run on the same object starts from these arrays,
    so the coordinates end multiplied by 100 and the triads with their
    signs reversed twice. *)
Theorem generate_structure_mutates_input (pdb : string -> Res (list Atom))
    (self : AtomicStructure) :
  let d := dna_structure self in
  List.length (helix_axis_coords d) = List.length (id_nt d) ->
  List.length (helix_axis_frames d) = List.length (id_nt d) ->
  let self1 := snd (generate_structure pdb self) in
  let self2 := snd (generate_structure pdb self1) in
  helix_axis_coords (dna_structure self1)
  = map to_angstroms (helix_axis_coords d) /\
  helix_axis_frames (dna_structure self1)
  = map reverse_frames (helix_axis_frames d) /\
  helix_axis_coords (dna_structure self2)
  = map to_angstroms (map to_angstroms (helix_axis_coords d)) /\
  helix_axis_frames (dna_structure self2)
  = map reverse_frames (map reverse_frames (helix_axis_frames d)) /\
  map reverse_frames (map reverse_frames (helix_axis_frames d))
  = helix_axis_frames d.
Proof.
  intros d Lc Lf self1 self2.
  assert (E1 : dna_structure self1
               = mkDnaStructure (base_connectivity d)
                   (map to_angstroms (helix_axis_coords d))
                   (map reverse_frames (helix_axis_frames d))
                   (id_nt d) (dna_strands d)).
  { unfold self1. rewrite generate_structure_dna by (fold d; lia).
    fold d. rewrite (firstn_length_all _ _ _ Lc).
    rewrite (firstn_length_all _ _ _ Lf). reflexivity. }
  assert (E2 : dna_structure self2
               = mkDnaStructure (base_connectivity d)
                   (map to_angstroms (map to_angstroms (helix_axis_coords d)))
                   (map reverse_frames
                        (map reverse_frames (helix_axis_frames d)))
                   (id_nt d) (dna_strands d)).
  { unfold self2.
    rewrite generate_structure_dna
      by (rewrite E1; cbn [id_nt helix_axis_coords helix_axis_frames];
          rewrite length_map; lia).
    rewrite E1. cbn [id_nt helix_axis_coords helix_axis_frames
                     base_connectivity dna_strands].
    rewrite (firstn_length_all to_angstroms
               (map to_angstroms (helix_axis_coords d)))
      by (rewrite length_map; exact Lc).
    rewrite (firstn_length_all reverse_frames
               (map reverse_frames (helix_axis_frames d)))
      by (rewrite length_map; exact Lf).
    reflexivity. }
  rewrite E1, E2. cbn [helix_axis_coords helix_axis_frames].
  repeat split; auto.
  rewrite map_map. rewrite <- (map_id (helix_axis_frames d)) at 2.
  apply map_ext. intros [a b c e f g h i j]. unfold reverse_frames. simpl.
  f_equal; apply Ropp_involutive.
Qed.

(** ** The properties on the small design *)

Lemma sample_strand_wf : wf_strand sample_strand.
Proof.
  unfold wf_strand. repeat (split; [reflexivity|]).
  intros [|[|[|k]]] Rb H; simpl in H; try discriminate.
  - eexists. reflexivity.
  - eexists. reflexivity.
  - destruct k; discriminate.
Defined.

Lemma sample_first_base_known (s : AtomicStructureStrand) :
  tour s = [base1; base2; base3] ->
  first_base_known (base_connectivity sample_dna) s.
Proof.
  intros H. unfold first_base_known. rewrite H.
  exists base1, base1. split; reflexivity.
Defined.

Lemma sample_templates_paired : templates_paired sample_forward sample_reverse.
Proof.
  intros k H. unfold dict_mem in *. simpl in *.
  repeat match goal with
         | |- context [String.eqb ?a ?b] => destruct (String.eqb a b)
         | H : context [String.eqb ?a ?b] |- _ => destruct (String.eqb a b)
         end; try reflexivity; try discriminate.
Defined.

Lemma sample_dof_wf (rots : list ndarray2) (trs : list ndarray1)
    (mains : list bool) :
  List.length trs = List.length rots ->
  List.length mains = List.length rots ->
  (forall k Rb, nth_error rots k = Some (Some Rb) ->
     Rb = I3 /\ exists d, nth_error trs k = Some (Some d)) ->
  dof_wf (mkDof rots trs mains).
Proof.
  intros Lt Lm H. split; [exact Lt|]. split; [exact Lm|].
  intros k Rb Hk. destruct (H k Rb Hk) as [-> Hd].
  split; [exact is_rotation_I3|exact Hd].
Defined.

Lemma sample_bulge_wf : dof_wf sample_bulge.
Proof.
  apply sample_dof_wf; try reflexivity.
  intros [|[|[|k]]] Rb H; simpl in H; try discriminate.
  - injection H as <-. split; [reflexivity|]. eexists. reflexivity.
  - injection H as <-. split; [reflexivity|]. eexists. reflexivity.
  - destruct k; discriminate.
Defined.

Lemma sample_tail_wf : dof_wf (dof_of sample_tail_strand).
Proof.
  apply sample_dof_wf; try reflexivity.
  intros [|[|[|k]]] Rb H; simpl in H; try discriminate.
  - injection H as <-. split; [reflexivity|]. eexists. reflexivity.
  - injection H as <-. split; [reflexivity|]. eexists. reflexivity.
  - destruct k; discriminate.
Defined.

Lemma fit_R_d_interpolates_witness :
  is_rotation I3 /\ (0 <= 2)%Z /\
  exists axis theta R_fit d_fit,
    _vrrotmat2vec (Some (mmul I3 (mtrans I3))) = Ok (axis, theta) /\
    _fit_R_d (Some I3) (Some (V3 0 0 0)) (Some I3) (Some (V3 3 0 0)) 2
    = Ok (R_fit, d_fit) /\
    len R_fit = 2%Z /\ len d_fit = 2%Z /\
    forall j, (1 <= j <= 2)%Z ->
      py_get R_fit (j - 1)
      = Ok (mmul (_vrrotvec2mat axis (theta * IZR j / IZR (2 + 1))%R) I3) /\
      py_get d_fit (j - 1)
      = Ok (vdiv (vadd (vscale (V3 0 0 0) (IZR (2 + 1 - j)))
                       (vscale (V3 3 0 0) (IZR j)))
                 (IZR (2 + 1))).
Proof.
  assert (H : (0 <= 2)%Z) by lia.
  split; [exact is_rotation_I3|]. split; [exact H|].
  exact (fit_R_d_interpolates I3 I3 (V3 0 0 0) (V3 3 0 0) 2
           is_rotation_I3 is_rotation_I3 H).
Defined.

Lemma bulge_resolves_anchored_runs_witness :
  dof_wf sample_bulge /\
  resolved (dof_rotations sample_bulge) 0 /\
  exists dof',
    _generate_bulge_dof true sample_bulge = (Ok tt, dof') /\
    ~ unset (dof_rotations dof') 1.
Proof.
  assert (H0 : resolved (dof_rotations sample_bulge) 0).
  { exists I3. reflexivity. }
  split; [exact sample_bulge_wf|]. split; [exact H0|].
  destruct (bulge_resolves_anchored_runs sample_bulge true sample_bulge_wf
              (fun _ => or_introl H0)) as (dof' & E & _ & _ & Hiff).
  exists dof'. split; [exact E|].
  intros Hu. apply (Hiff 1%nat) in Hu.
  - destruct Hu as [Hc _]. discriminate.
  - simpl. lia.
Defined.

Lemma generate_atoms_ids_consecutive_witness :
  let mols := result_of [] (fst sample_generation) in
  sample_generation = (Ok mols, snd sample_generation) /\
  map atom_id (flat_map atoms mols)
  = map Z.of_nat (seq 1 (List.length (flat_map atoms mols))).
Proof.
  intros mols.
  assert (H : _generate_atoms sample_pdb (base_connectivity sample_dna)
                [sample_strand; sample_tail_strand] []
              = (Ok mols, snd sample_generation)) by reflexivity.
  split; [exact H|].
  exact (generate_atoms_ids_consecutive _ _ _ _ _ _ H).
Defined.

Lemma assembler_places_template_witness :
  let mol := fst (result_of (Molecule_init 0, 0%Z) (fst sample_assembly)) in
  let id1 := snd (result_of (Molecule_init 0, 0%Z) (fst sample_assembly)) in
  sample_assembly = (Ok (mol, id1), snd sample_assembly) /\
  dict_mem sample_forward (upper "a") = true /\
  exists template id,
    dict_get sample_forward (upper "a") = Some template /\
    residue_atoms 1 (atoms mol)
    = place_all (strand_chainID sample_strand) (mmul I3 (_Ry 180))
                (V3 1 2 3) 0 id template /\
    map coords (residue_atoms 1 (atoms mol))
    = map (fun a => vadd (mvec (mmul I3 (_Ry 180)) (coords a)) (V3 1 2 3))
          template.
Proof.
  intros mol id1.
  assert (H : _create_atoms_from_strand (base_connectivity sample_dna)
                sample_strand sample_forward sample_reverse 1 []
              = (Ok (mol, id1), snd sample_assembly)) by reflexivity.
  assert (Hk : (0 < List.length (tour sample_strand))%nat) by (simpl; lia).
  assert (Hm : dict_mem sample_forward (upper "a") = true) by reflexivity.
  split; [exact H|]. split; [exact Hm|].
  exact (assembler_places_template _ _ _ _ _ _ _ _ _ 0%nat I3 (V3 1 2 3)
           "a"%string true H Hk eq_refl eq_refl eq_refl eq_refl Hm).
Defined.

(** C8, the claim as stated fails.  The second base of [sample_strand] has
    no frame and the letter N, which maps to no template: the assembler
    skips it before it looks at the letter, and the log of the run has no
    record of it. *)
Lemma unset_base_unknown_letter_not_logged :
  nth_error (rotations sample_strand) 1 = Some None /\
  nth_error (strand_seq sample_strand) 1 = Some "N"%string /\
  dict_mem sample_forward (upper "N") = false /\
  exists mol id1 log',
    _create_atoms_from_strand (base_connectivity sample_dna) sample_strand
                              sample_forward sample_reverse 1 []
    = (Ok (mol, id1), log') /\
    residue_atoms 2 (atoms mol) = [] /\
    log' = [WarnBaseNotFound 2 "X"] /\
    forall name, ~ In (WarnBaseNotFound 1 name) log'.
Proof.
  repeat (split; [reflexivity|]).
  eexists. eexists. eexists. split; [reflexivity|].
  split; [reflexivity|]. split; [reflexivity|].
  intros name [H|[]]. discriminate.
Qed.

Lemma unknown_letter_skipped_and_logged_witness :
  wf_strand sample_strand /\
  dict_mem sample_forward (upper "X") = false /\
  exists mol id1 log',
    _create_atoms_from_strand (base_connectivity sample_dna) sample_strand
                              sample_forward sample_reverse 1 []
    = (Ok (mol, id1), log') /\
    residue_atoms (Z.of_nat 2 + 1) (atoms mol) = [] /\
    In (WarnBaseNotFound (Z.of_nat 2) (upper "X")) log'.
Proof.
  assert (Hm : dict_mem sample_forward (upper "X") = false) by reflexivity.
  split; [exact sample_strand_wf|]. split; [exact Hm|].
  exact (unknown_letter_skipped_and_logged (base_connectivity sample_dna)
           sample_strand sample_forward sample_reverse 1 [] 2%nat I3
           "X"%string sample_strand_wf
           (sample_first_base_known sample_strand eq_refl)
           sample_templates_paired eq_refl eq_refl Hm).
Defined.

Lemma linear_free_ends_stay_unset_witness :
  is_circular sample_tail_strand = false /\
  (0 < templateAtomCount sample_forward sample_reverse)%nat /\
  unset (rotations sample_tail_strand) 0 /\
  exists dof',
    _generate_bulge_dof (is_circular sample_tail_strand)
                        (dof_of sample_tail_strand) = (Ok tt, dof') /\
    unset (dof_rotations dof') 0.
Proof.
  assert (Hc : (0 < templateAtomCount sample_forward sample_reverse)%nat)
    by (vm_compute; lia).
  assert (Hu : unset (rotations sample_tail_strand) 0) by reflexivity.
  split; [reflexivity|]. split; [exact Hc|]. split; [exact Hu|].
  destruct (linear_free_ends_stay_unset (base_connectivity sample_dna)
              sample_tail_strand sample_forward sample_reverse 1 [] 0%nat
              eq_refl sample_tail_wf eq_refl
              (sample_first_base_known sample_tail_strand eq_refl)
              sample_templates_paired Hc (or_introl eq_refl) Hu)
    as (dof' & E & Hend & _).
  exists dof'. split; [exact E|].
  exact (Hend 0%nat (or_introl eq_refl) Hu).
Defined.

Lemma sample_slots_found (i : nat) (ids : Z * Z)
    (sl : (nat * nat) * (nat * nat)) :
  nth_error (id_nt sample_dna) i = Some ids ->
  nth_error sample_slots i = Some sl ->
  slot_of (base_connectivity sample_dna) (strands sample_self) (fst ids)
  = Ok (fst sl) /\
  slot_of (base_connectivity sample_dna) (strands sample_self) (snd ids)
  = Ok (snd sl).
Proof.
  destruct i as [|[|i]]; simpl; intros H1 H2; try discriminate.
  injection H1 as <-. injection H2 as <-. split; reflexivity.
Defined.

Lemma sample_slots_distinct : NoDup (all_slots sample_slots).
Proof.
  simpl. constructor.
  - intros [H|[]]. discriminate.
  - constructor; [intros []|constructor].
Defined.

Lemma frame_initializer_sets_pairs_witness :
  AtomicStructure_init sample_dna = Ok sample_self /\
  NoDup (all_slots sample_slots) /\
  exists self1,
    init_frames sample_self = (Ok tt, self1) /\
    frame_at (strands self1) (0%nat, 1%nat)
    = Some (Some (mmul (reverse_frames I3) rot_mat),
            Some (to_angstroms (V3 1 2 3)), true) /\
    frame_at (strands self1) (1%nat, 1%nat)
    = Some (Some (mmul (reverse_frames I3) rot_mat),
            Some (to_angstroms (V3 1 2 3)), false).
Proof.
  assert (Hi : AtomicStructure_init sample_dna = Ok sample_self)
    by reflexivity.
  split; [exact Hi|]. split; [exact sample_slots_distinct|].
  destruct (frame_initializer_sets_pairs sample_dna sample_self sample_slots
              Hi eq_refl eq_refl eq_refl sample_slots_found
              sample_slots_distinct) as (self1 & E & Hp & _).
  exists self1. split; [exact E|].
  exact (Hp 0%nat ((0, 1), (1, 1))%nat I3 (V3 1 2 3)
            eq_refl eq_refl eq_refl).
Defined.

Lemma generate_structure_mutates_input_witness :
  List.length (helix_axis_coords sample_dna) = List.length (id_nt sample_dna) /\
  helix_axis_coords
    (dna_structure (snd (generate_structure sample_pdb sample_self)))
  = map to_angstroms (helix_axis_coords sample_dna).
Proof.
  assert (Hc : List.length (helix_axis_coords (dna_structure sample_self))
               = List.length (id_nt (dna_structure sample_self)))
    by reflexivity.
  assert (Hf : List.length (helix_axis_frames (dna_structure sample_self))
               = List.length (id_nt (dna_structure sample_self)))
    by reflexivity.
  split; [reflexivity|].
  exact (proj1 (generate_structure_mutates_input sample_pdb sample_self
                  Hc Hf)).
Defined.

(** * Further properties of the code *)

(** ** utils.py: the rotations about the coordinate axes *)

Open Scope R_scope.

(** X1.  [_Rx(deg)] and [_Ry(deg)] are rotation matrices (orthonormal, of
    determinant +1) for every angle. *)
Theorem Rx_Ry_are_rotations (deg : R) :
  is_rotation (_Rx deg) /\ is_rotation (_Ry deg).
Proof.
  unfold _Rx, _Ry.
  pose proof (sin2_cos2 (PI * (deg / 180))) as H. unfold Rsqr in H.
  generalize dependent (sin (PI * (deg / 180))). intros s.
  generalize dependent (cos (PI * (deg / 180))). intros c H.
  split; split.
  - apply mat3_eq; simpl; nsatz.
  - unfold mdet. simpl. nsatz.
  - apply mat3_eq; simpl; nsatz.
  - unfold mdet. simpl. nsatz.
Qed.

(** X2.  Rotations about one coordinate axis compose by adding their
    angles, the angle 0 gives the identity, and the opposite angle gives
    the transpose, which is the inverse. *)
Theorem Rx_Ry_compose (a b : R) :
  mmul (_Rx a) (_Rx b) = _Rx (a + b) /\
  mmul (_Ry a) (_Ry b) = _Ry (a + b) /\
  _Rx 0 = I3 /\ _Ry 0 = I3 /\
  _Rx (- a) = mtrans (_Rx a) /\ _Ry (- a) = mtrans (_Ry a) /\
  mmul (_Rx a) (_Rx (- a)) = I3 /\ mmul (_Ry a) (_Ry (- a)) = I3.
Proof.
  assert (Hab : PI * ((a + b) / 180) = PI * (a / 180) + PI * (b / 180))
    by field.
  assert (Hn : PI * (- a / 180) = - (PI * (a / 180))) by field.
  assert (H0 : PI * (0 / 180) = 0) by field.
  pose proof (sin2_cos2 (PI * (a / 180))) as H. unfold Rsqr in H.
  unfold _Rx, _Ry.
  rewrite Hab, Hn, H0, cos_plus, sin_plus, cos_neg, sin_neg, cos_0, sin_0.
  generalize dependent (sin (PI * (a / 180))). intros sa.
  generalize dependent (cos (PI * (a / 180))). intros ca H.
  repeat split; apply mat3_eq; simpl; try ring; nsatz.
Qed.

Close Scope R_scope.

(** ** utils.py: [_vrrotvec2mat] *)

Open Scope R_scope.

(** The components of a non-zero axis divided by its norm are those of a
    unit vector. *)
Lemma unit_axis (x y z : R) :
  vnorm (V3 x y z) <> 0 ->
  let n := vnorm (V3 x y z) in
  (x / n) * (x / n) + (y / n) * (y / n) + (z / n) * (z / n) = 1 /\
  n * n = x * x + y * y + z * z /\ 0 < n.
Proof.
  unfold vnorm. cbn [vx vy vz]. intros Hn.
  set (n := sqrt (x * x + y * y + z * z)) in *.
  assert (Hpos : 0 <= x * x + y * y + z * z) by nra.
  assert (Hn2 : n * n = x * x + y * y + z * z) by (apply sqrt_sqrt; exact Hpos).
  assert (H0 : 0 <= n) by apply sqrt_pos.
  split; [|split; [exact Hn2|lra]].
  replace (x / n * (x / n) + y / n * (y / n) + z / n * (z / n))
    with ((x * x + y * y + z * z) / (n * n)) by (field; exact Hn).
  rewrite <- Hn2. field. exact Hn.
Qed.

(** A rotation about an axis leaves the axis fixed. *)
Lemma rodrigues_fixes_axis (axis : vec3) (theta : R) :
  vnorm axis <> 0 -> mvec (_vrrotvec2mat axis theta) axis = axis.
Proof.
  intros Hn. destruct axis as [x y z].
  destruct (unit_axis x y z Hn) as (Hu & _ & Hp).
  unfold _vrrotvec2mat, vdiv, mvec.
  cbn [vx vy vz m00 m01 m02 m10 m11 m12 m20 m21 m22].
  remember (vnorm (V3 x y z)) as n eqn:En. clear En.
  remember (x / n) as u eqn:Eu. remember (y / n) as v eqn:Ev.
  remember (z / n) as w eqn:Ew.
  assert (Ex : x = u * n) by (subst u; field; exact Hn).
  assert (Ey : y = v * n) by (subst v; field; exact Hn).
  assert (Ez : z = w * n) by (subst w; field; exact Hn).
  clear Eu Ev Ew Hn Hp.
  generalize (sin theta) (cos theta). intros s c.
  f_equal; nsatz.
Qed.

(** X3.  For a non-zero axis, [_vrrotvec2mat(axis, theta)] is a rotation
    matrix that leaves the axis fixed and whose trace is
    [1 + 2 cos(theta)]. *)
Theorem vrrotvec2mat_axis_fixed (axis : vec3) (theta : R) :
  vnorm axis <> 0 ->
  is_rotation (_vrrotvec2mat axis theta) /\
  mvec (_vrrotvec2mat axis theta) axis = axis /\
  mtrace (_vrrotvec2mat axis theta) = 1 + 2 * cos theta.
Proof.
  intros Hn. split; [apply vrrotvec2mat_rotation; exact Hn|].
  split; [apply rodrigues_fixes_axis; exact Hn|].
  destruct axis as [x y z].
  destruct (unit_axis x y z Hn) as (Hu & _ & _).
  unfold _vrrotvec2mat, vdiv, mtrace.
  cbn [vx vy vz m00 m11 m22].
  remember (vnorm (V3 x y z)) as n eqn:En. clear En Hn.
  generalize dependent (x / n). intros u.
  generalize dependent (y / n). intros v.
  generalize dependent (z / n). intros w Hu.
  generalize (sin theta) (cos theta). intros s c. nsatz.
Qed.

Lemma vrrotvec2mat_axis_fixed_witness :
  vnorm (V3 0 0 1) <> 0 /\
  mvec (_vrrotvec2mat (V3 0 0 1) 1) (V3 0 0 1) = V3 0 0 1.
Proof.
  assert (H : vnorm (V3 0 0 1) <> 0) by (rewrite vnorm_z_axis; lra).
  split; [exact H|].
  exact (proj1 (proj2 (vrrotvec2mat_axis_fixed (V3 0 0 1) 1 H))).
Defined.

Close Scope R_scope.

Open Scope R_scope.

Lemma vnorm_vscale (axis : vec3) (k : R) :
  0 < k -> vnorm (vscale axis k) = vnorm axis * k.
Proof.
  intros Hk. destruct axis as [x y z]. unfold vnorm, vscale.
  cbn [vx vy vz].
  replace (x * k * (x * k) + y * k * (y * k) + z * k * (z * k))
    with ((x * x + y * y + z * z) * (k * k)) by ring.
  rewrite sqrt_mult_alt by nra.
  rewrite sqrt_square by lra. reflexivity.
Qed.

Lemma vnorm_vopp (axis : vec3) : vnorm (vopp axis) = vnorm axis.
Proof.
  destruct axis as [x y z]. unfold vnorm, vopp. cbn [vx vy vz].
  f_equal. ring.
Qed.

(** X4.  [_vrrotvec2mat] depends on the direction of the axis only: an axis
    scaled by a positive factor gives the same matrix.  Reversing both the
    axis and the angle gives the same matrix too, and reversing the angle
    alone gives the transpose. *)
Theorem vrrotvec2mat_axis_direction (axis : vec3) (theta k : R) :
  vnorm axis <> 0 -> 0 < k ->
  _vrrotvec2mat (vscale axis k) theta = _vrrotvec2mat axis theta /\
  _vrrotvec2mat (vopp axis) (- theta) = _vrrotvec2mat axis theta /\
  _vrrotvec2mat axis (- theta) = mtrans (_vrrotvec2mat axis theta).
Proof.
  intros Hn Hk. unfold _vrrotvec2mat.
  rewrite vnorm_vscale by exact Hk. rewrite vnorm_vopp.
  rewrite sin_neg, cos_neg.
  destruct axis as [x y z]. unfold vdiv, vscale, vopp, mtrans.
  cbn [vx vy vz m00 m01 m02 m10 m11 m12 m20 m21 m22].
  remember (vnorm (V3 x y z)) as n eqn:En. clear En.
  replace (x * k / (n * k)) with (x / n) by (field; lra).
  replace (y * k / (n * k)) with (y / n) by (field; lra).
  replace (z * k / (n * k)) with (z / n) by (field; lra).
  replace (- x / n) with (- (x / n)) by (field; lra).
  replace (- y / n) with (- (y / n)) by (field; lra).
  replace (- z / n) with (- (z / n)) by (field; lra).
  generalize (x / n) (y / n) (z / n) (sin theta) (cos theta).
  intros u v w s c.
  split; [reflexivity|]. split; apply mat3_eq; simpl; ring.
Qed.

Lemma vrrotvec2mat_axis_direction_witness :
  vnorm (V3 0 0 1) <> 0 /\ 0 < 2 /\
  _vrrotvec2mat (vscale (V3 0 0 1) 2) 1 = _vrrotvec2mat (V3 0 0 1) 1.
Proof.
  assert (H : vnorm (V3 0 0 1) <> 0) by (rewrite vnorm_z_axis; lra).
  assert (H2 : 0 < 2) by lra.
  split; [exact H|]. split; [exact H2|].
  exact (proj1 (vrrotvec2mat_axis_direction (V3 0 0 1) 1 2 H H2)).
Defined.

Lemma rodrigues_angles_add (axis : vec3) (theta1 theta2 : R) :
  vnorm axis <> 0 ->
  mmul (_vrrotvec2mat axis theta1) (_vrrotvec2mat axis theta2)
  = _vrrotvec2mat axis (theta1 + theta2).
Proof.
  intros Hn. destruct axis as [x y z].
  destruct (unit_axis x y z Hn) as (Hu & _ & _).
  unfold _vrrotvec2mat, vdiv. cbn [vx vy vz].
  rewrite sin_plus, cos_plus.
  pose proof (sin2_cos2 theta1) as H1. pose proof (sin2_cos2 theta2) as H2.
  unfold Rsqr in H1, H2.
  remember (vnorm (V3 x y z)) as n eqn:En. clear En Hn.
  generalize dependent (x / n). intros u.
  generalize dependent (y / n). intros v.
  generalize dependent (z / n). intros w Hu.
  generalize dependent (sin theta1). intros s1.
  generalize dependent (cos theta1). intros c1 H1.
  generalize dependent (sin theta2). intros s2.
  generalize dependent (cos theta2). intros c2 H2.
  apply mat3_eq; simpl; nsatz.
Qed.

(** X5.  Two rotations about the same axis compose by adding their
    angles. *)
Theorem vrrotvec2mat_angles_add (axis : vec3) (theta1 theta2 : R) :
  vnorm axis <> 0 ->
  mmul (_vrrotvec2mat axis theta1) (_vrrotvec2mat axis theta2)
  = _vrrotvec2mat axis (theta1 + theta2) /\
  _vrrotvec2mat axis 0 = I3.
Proof.
  intros Hn. split; [apply rodrigues_angles_add; exact Hn|].
  unfold _vrrotvec2mat. rewrite sin_0, cos_0.
  apply mat3_eq; simpl; ring.
Qed.

Lemma vrrotvec2mat_angles_add_witness :
  vnorm (V3 0 0 1) <> 0 /\
  mmul (_vrrotvec2mat (V3 0 0 1) 1) (_vrrotvec2mat (V3 0 0 1) 2)
  = _vrrotvec2mat (V3 0 0 1) (1 + 2).
Proof.
  assert (H : vnorm (V3 0 0 1) <> 0) by (rewrite vnorm_z_axis; lra).
  split; [exact H|].
  exact (proj1 (vrrotvec2mat_angles_add (V3 0 0 1) 1 2 H)).
Defined.

(** X6.  The round trip in the other direction: for a non-zero axis and an
    angle in [0.0001, PI - 0.0001], [_vrrotmat2vec] gives back, from the
    matrix of [_vrrotvec2mat], the axis divided by its norm and the angle
    itself. *)
Theorem vrrotmat2vec_of_vrrotvec2mat (axis : vec3) (theta : R) :
  vnorm axis <> 0 -> 0.0001 <= theta -> theta <= PI - 0.0001 ->
  _vrrotmat2vec (Some (_vrrotvec2mat axis theta))
  = Ok (vdiv axis (vnorm axis), theta).
Proof.
  intros Hn Hlo Hhi. destruct axis as [x y z].
  destruct (unit_axis x y z Hn) as (Hu & _ & _).
  assert (Hs : 0 < sin theta) by (apply sin_gt_0; lra).
  pose proof (COS_bound theta) as Hc.
  unfold _vrrotmat2vec, vrrotmat2vec3, _vrrotvec2mat, vdiv.
  cbn [vx vy vz m00 m01 m02 m10 m11 m12 m20 m21 m22].
  remember (vnorm (V3 x y z)) as n eqn:En. clear En Hn.
  generalize dependent (x / n). intros u.
  generalize dependent (y / n). intros v.
  generalize dependent (z / n). intros w Hu.
  set (s := sin theta) in *. set (c := cos theta) in *.
  replace (((1 - c) * u * u + c + ((1 - c) * v * v + c)
            + ((1 - c) * w * w + c) - 1) / 2) with c by nra.
  rewrite math_acos_ok by lra. cbn [bind].
  unfold c. rewrite acos_cos by lra.
  replace (Rltb (Rabs theta) 0.0001) with false
    by (symmetry; apply Rltb_false; rewrite Rabs_pos_eq by lra; lra).
  replace (Rltb (Rabs (theta - PI)) 0.0001) with false
    by (symmetry; apply Rltb_false; rewrite Rabs_left by lra; lra).
  unfold axis_general.
  cbn [m00 m01 m02 m10 m11 m12 m20 m21 m22]. fold c.
  replace ((1 - c) * v * w + s * u - ((1 - c) * v * w - s * u))
    with (2 * s * u) by ring.
  replace ((1 - c) * u * w + s * v - ((1 - c) * u * w - s * v))
    with (2 * s * v) by ring.
  replace ((1 - c) * u * v + s * w - ((1 - c) * u * v - s * w))
    with (2 * s * w) by ring.
  replace ((2 * s * u) ^ 2 + (2 * s * v) ^ 2 + (2 * s * w) ^ 2)
    with ((2 * s) * (2 * s)) by nra.
  rewrite sqrt_square by lra.
  replace (2 * s * u / (2 * s)) with u by (field; lra).
  replace (2 * s * v / (2 * s)) with v by (field; lra).
  replace (2 * s * w / (2 * s)) with w by (field; lra).
  reflexivity.
Qed.

Lemma vrrotmat2vec_of_vrrotvec2mat_witness :
  vnorm (V3 0 0 1) <> 0 /\ 0.0001 <= 1 /\ 1 <= PI - 0.0001 /\
  _vrrotmat2vec (Some (_vrrotvec2mat (V3 0 0 1) 1))
  = Ok (vdiv (V3 0 0 1) (vnorm (V3 0 0 1)), 1).
Proof.
  assert (H : vnorm (V3 0 0 1) <> 0) by (rewrite vnorm_z_axis; lra).
  assert (H1 : 0.0001 <= 1) by lra.
  assert (H2 : 1 <= PI - 0.0001) by (pose proof PI_gt_3; lra).
  split; [exact H|]. split; [exact H1|]. split; [exact H2|].
  exact (vrrotmat2vec_of_vrrotvec2mat (V3 0 0 1) 1 H H1 H2).
Defined.

Close Scope R_scope.

(** ** utils.py: [_vrrotmat2vec] *)

Open Scope R_scope.

(** The axis of the branch for a non-singular angle is a unit vector. *)
Lemma axis_general_unit (M : mat3) :
  is_rotation M ->
  0 < acos ((mtrace M - 1) / 2) < PI ->
  vnorm (axis_general M) = 1.
Proof.
  destruct M as [a b c d e f g h i]. intros H Hth.
  pose proof (rotation_trace_bounds _ H) as Htr.
  pose proof (rotation_axis_squares _ _ _ _ _ _ _ _ _ H) as (S0 & S1 & S2).
  unfold mtrace in *. simpl in Htr, Hth.
  assert (Hlt : a + e + i < 3).
  { destruct (Rlt_dec (a + e + i) 3) as [|Hn]; auto. exfalso.
    replace ((a + e + i - 1) / 2) with 1 in Hth by lra.
    rewrite acos_1 in Hth. lra. }
  assert (Hgt : -1 < a + e + i).
  { destruct (Rlt_dec (-1) (a + e + i)) as [|Hn]; auto. exfalso.
    replace ((a + e + i - 1) / 2) with (- (1)) in Hth by lra.
    rewrite acos_opp, acos_1 in Hth. lra. }
  assert (HN : (h - f) ^ 2 + (c - g) ^ 2 + (d - b) ^ 2
               = (a + e + i + 1) * (3 - (a + e + i))).
  { rewrite S0, S1, S2. ring. }
  assert (Hpos : 0 < (h - f) ^ 2 + (c - g) ^ 2 + (d - b) ^ 2).
  { rewrite HN. apply Rmult_lt_0_compat; lra. }
  unfold axis_general, vnorm.
  cbn [vx vy vz m00 m01 m02 m10 m11 m12 m20 m21 m22].
  set (N := sqrt ((h - f) ^ 2 + (c - g) ^ 2 + (d - b) ^ 2)).
  assert (HNN : N * N = (h - f) ^ 2 + (c - g) ^ 2 + (d - b) ^ 2)
    by (apply sqrt_sqrt; lra).
  assert (HN0 : N <> 0).
  { assert (0 < N) by (apply sqrt_lt_R0; exact Hpos). lra. }
  replace ((h - f) / N * ((h - f) / N) + (c - g) / N * ((c - g) / N)
           + (d - b) / N * ((d - b) / N))
    with (((h - f) ^ 2 + (c - g) ^ 2 + (d - b) ^ 2) / (N * N))
    by (field; exact HN0).
  rewrite <- HNN.
  replace (N * N / (N * N)) with 1 by (field; exact HN0).
  apply sqrt_1.
Qed.

(** For a unit axis the matrix of the self-check is the matrix of
    [_vrrotvec2mat]. *)
Lemma check_matrix_unit (axis : vec3) (angle : R) :
  vnorm axis = 1 -> check_matrix axis angle = _vrrotvec2mat axis angle.
Proof.
  intros H. unfold check_matrix, _vrrotvec2mat. rewrite H.
  destruct axis as [x y z]. unfold vdiv. cbn [vx vy vz].
  apply mat3_eq; simpl; field.
Qed.

(** X7.  For every rotation matrix [_vrrotmat2vec] returns normally, with
    an angle in [0, PI]; when the angle is in [0.0001, PI - 0.0001] the axis
    is a unit vector that the matrix leaves fixed, and the cosine of the
    angle is [(trace - 1) / 2]. *)
Theorem vrrotmat2vec_axis_and_angle (M : mat3) :
  is_rotation M ->
  exists axis angle,
    _vrrotmat2vec (Some M) = Ok (axis, angle) /\
    0 <= angle <= PI /\
    (0.0001 <= angle <= PI - 0.0001 ->
     vnorm axis = 1 /\ mvec M axis = axis /\
     cos angle = (mtrace M - 1) / 2).
Proof.
  intros H.
  pose proof (rotation_trace_bounds _ H) as Htr.
  pose proof (acos_bound ((mtrace M - 1) / 2)) as Hb.
  pose proof PI_gt_3 as HPI.
  unfold _vrrotmat2vec, vrrotmat2vec3. fold (mtrace M).
  rewrite math_acos_ok by lra. cbn [bind].
  set (th := acos ((mtrace M - 1) / 2)) in *.
  destruct (Rltb (Rabs th) 0.0001) eqn:E0.
  - exists (V3 1 0 0), 0. split; [reflexivity|]. split; [lra|]. lra.
  - apply Rltb_false in E0. rewrite Rabs_pos_eq in E0 by lra.
    destruct (Rltb (Rabs (th - PI)) 0.0001) eqn:E1.
    + apply Rltb_true in E1. rewrite Rabs_left1 in E1 by lra.
      exists (axis_at_pi M), th. split; [reflexivity|].
      split; [lra|]. lra.
    + apply Rltb_false in E1. rewrite Rabs_left1 in E1 by lra.
      exists (axis_general M), th. split; [reflexivity|].
      split; [lra|]. intros _.
      assert (Hth : 0 < th < PI) by lra.
      pose proof (axis_general_unit M H Hth) as Hu.
      split; [exact Hu|]. split.
      * rewrite <- (roundtrip_general M H Hth) at 1.
        apply rodrigues_fixes_axis. fold th. rewrite Hu. lra.
      * unfold th. apply cos_acos. lra.
Qed.

Lemma vrrotmat2vec_axis_and_angle_witness :
  is_rotation I3 /\
  exists axis angle,
    _vrrotmat2vec (Some I3) = Ok (axis, angle) /\ 0 <= angle <= PI.
Proof.
  split; [exact is_rotation_I3|].
  destruct (vrrotmat2vec_axis_and_angle I3 is_rotation_I3)
    as (axis & angle & E & Hb & _).
  exists axis, angle. split; [exact E|exact Hb].
Defined.

Lemma check_warnings_nil (M : mat3) (axis : vec3) (angle : R) :
  (forall i j,
     Rabs (mentry M i j - mentry (check_matrix axis angle) i j) <= 0.0001) ->
  check_warnings M axis angle = [].
Proof.
  intros H. unfold check_warnings. cbn [flat_map app].
  assert (G : forall i j,
            Rgtb (Rabs (mentry M i j - mentry (check_matrix axis angle) i j))
                 0.0001 = false).
  { intros i j. apply Rgtb_false. specialize (H i j). lra. }
  rewrite !G. reflexivity.
Qed.

(** X8.  The self-check at the end of [_vrrotmat2vec] prints no warning for
    a rotation matrix whose angle is not within 0.0001 of 180 degrees: the
    matrix rebuilt from the extracted axis and angle is within 0.0001 of the
    input in every entry. *)
Theorem vrrotmat2vec_self_check_silent (M : mat3) :
  is_rotation M ->
  ~ Rabs (acos ((mtrace M - 1) / 2) - PI) < 0.0001 ->
  exists axis angle,
    _vrrotmat2vec (Some M) = Ok (axis, angle) /\
    check_warnings M axis angle = [].
Proof.
  intros H Hpi.
  pose proof (rotation_trace_bounds _ H) as Htr.
  pose proof (acos_bound ((mtrace M - 1) / 2)) as Hb.
  unfold _vrrotmat2vec, vrrotmat2vec3. fold (mtrace M).
  rewrite math_acos_ok by lra. cbn [bind].
  set (th := acos ((mtrace M - 1) / 2)) in *.
  destruct (Rltb (Rabs th) 0.0001) eqn:E0.
  - apply Rltb_true in E0.
    exists (V3 1 0 0), 0. split; [reflexivity|].
    apply check_warnings_nil.
    assert (EI : check_matrix (V3 1 0 0) 0 = I3).
    { unfold check_matrix. cbn [vx vy vz]. rewrite sin_0, cos_0.
      apply mat3_eq; simpl; ring. }
    rewrite EI.
    destruct M as [a b c d e f g h i]. unfold th, mtrace in E0.
    simpl in E0.
    destruct (rotation_near_identity _ _ _ _ _ _ _ _ _ H E0)
      as ((A & B & C) & (D & E & F) & (G & K & I)).
    assert (Z0 : forall u, u - 0 = u) by (intros; ring).
    intros [|[|x]] [|[|y]]; simpl; rewrite ?Z0; lra.
  - apply Rltb_false in E0.
    replace (Rltb (Rabs (th - PI)) 0.0001) with false
      by (symmetry; apply Rltb_false; exact Hpi).
    exists (axis_general M), th. split; [reflexivity|].
    assert (Hth : 0 < th < PI).
    { split.
      - destruct (Rlt_dec 0 th) as [|Hn]; auto.
        exfalso. apply E0. rewrite Rabs_pos_eq by lra. lra.
      - destruct (Rlt_dec th PI) as [|Hn]; auto.
        exfalso. apply Hpi. replace th with PI by lra.
        replace (PI - PI) with 0 by ring. rewrite Rabs_R0. lra. }
    apply check_warnings_nil.
    rewrite check_matrix_unit by (apply axis_general_unit; auto).
    unfold th. rewrite roundtrip_general by auto.
    intros i j. replace (mentry M i j - mentry M i j) with 0 by ring.
    rewrite Rabs_R0. lra.
Qed.

Lemma vrrotmat2vec_self_check_silent_witness :
  is_rotation I3 /\
  ~ Rabs (acos ((mtrace I3 - 1) / 2) - PI) < 0.0001 /\
  exists axis angle,
    _vrrotmat2vec (Some I3) = Ok (axis, angle) /\
    check_warnings I3 axis angle = [].
Proof.
  assert (H : ~ Rabs (acos ((mtrace I3 - 1) / 2) - PI) < 0.0001).
  { unfold mtrace, I3. simpl.
    replace ((1 + 1 + 1 - 1) / 2) with 1 by field.
    rewrite acos_1. replace (0 - PI) with (- PI) by ring.
    rewrite Rabs_Ropp. pose proof PI_gt_3.
    rewrite Rabs_pos_eq by lra. lra. }
  split; [exact is_rotation_I3|]. split; [exact H|].
  exact (vrrotmat2vec_self_check_silent I3 is_rotation_I3 H).
Defined.

Close Scope R_scope.

(** ** atomic_types.py *)

Lemma existsb_eqb_In (c : string) (s : list string) :
  existsb (String.eqb c) s = true <-> In c s.
Proof.
  rewrite existsb_exists. split.
  - intros (x & Hx & E). apply String.eqb_eq in E. now subst.
  - intros H. exists c. split; [exact H|apply String.eqb_refl].
Qed.

Lemma chains_index_add_atom (m : Molecule) (a : Atom) :
  chains_index m -> chains_index (add_atom m a).
Proof.
  intros [Hnd Hin]. unfold chains_index, add_atom, set_add. cbn [chains atoms].
  destruct (existsb (String.eqb (chainID a)) (chains m)) eqn:E.
  - apply existsb_eqb_In in E. split; [exact Hnd|].
    intros c. rewrite Hin. split.
    + intros (b & Hb & Hc). exists b. split; [|exact Hc].
      apply in_or_app. now left.
    + intros (b & Hb & Hc). apply in_app_or in Hb as [Hb|[<-|[]]].
      * now exists b.
      * subst c. now apply Hin.
  - assert (Hn : ~ In (chainID a) (chains m)).
    { intros H. apply existsb_eqb_In in H. congruence. }
    split.
    + apply NoDup_app; [exact Hnd|repeat constructor; simpl; tauto|].
      intros x Hx [<-|[]]. contradiction.
    + intros c. rewrite in_app_iff, Hin. split.
      * intros [(b & Hb & Hc)|[<-|[]]].
        -- exists b. split; [|exact Hc]. apply in_or_app. now left.
        -- exists a. split; [|reflexivity]. apply in_or_app. right. now left.
      * intros (b & Hb & Hc). apply in_app_or in Hb as [Hb|[<-|[]]].
        -- left. now exists b.
        -- right. now left.
Qed.

Lemma fold_add_atom_spec (l : list Atom) :
  forall m,
    atoms (fold_left add_atom l m) = atoms m ++ l /\
    mol_id (fold_left add_atom l m) = mol_id m /\
    (chains_index m -> chains_index (fold_left add_atom l m)).
Proof.
  induction l as [|a l IH]; intros m; simpl.
  - rewrite app_nil_r. auto.
  - destruct (IH (add_atom m a)) as (H1 & H2 & H3).
    split; [|split].
    + rewrite H1. simpl. now rewrite <- app_assoc.
    + rewrite H2. reflexivity.
    + intros H. apply H3. now apply chains_index_add_atom.
Qed.

Lemma chains_index_init (model_id : Z) : chains_index (Molecule_init model_id).
Proof.
  split; [constructor|]. simpl. intros c. split; [tauto|].
  intros (a & [] & _).
Qed.

(** X9.  A molecule built from [Molecule(id)] by [add_atom] holds the atoms
    in the order they were added, keeps its identity, and its [chains] hold
    exactly the chain identifiers of its atoms, each once. *)
Theorem add_atom_chains (model_id : Z) (l : list Atom) :
  let m := fold_left add_atom l (Molecule_init model_id) in
  atoms m = l /\ mol_id m = model_id /\ chains_index m.
Proof.
  intros m. destruct (fold_add_atom_spec l (Molecule_init model_id))
    as (H1 & H2 & H3).
  split; [exact H1|]. split; [exact H2|]. apply H3, chains_index_init.
Qed.

(** ** atomic_structure.py: the constructors *)

(** [AtomicStructureStrand.__init__] raises [IndexError] on a strand whose
    tour is empty, and makes an initial strand of any other. *)
Lemma strand_init_cases (strand : DnaStrand) :
  (dna_tour strand = [] ->
   AtomicStructureStrand_init strand = Err IndexError) /\
  (dna_tour strand <> [] ->
   exists s,
     AtomicStructureStrand_init strand = Ok s /\
     dna_strand s = strand /\ initial_strand s).
Proof.
  unfold AtomicStructureStrand_init. split.
  - intros ->. reflexivity.
  - destruct (dna_tour strand) as [|first rest] eqn:Et; [congruence|].
    intros _. rewrite py_get_0. cbn [bind].
    eexists. split; [reflexivity|]. split; [reflexivity|].
    unfold initial_strand.
    cbn [dna_strand tour rotations translations is_main strand_seq
         is_circular]. rewrite Et. repeat split.
Qed.

Lemma init_strand_data_spec (l : list DnaStrand) :
  forall acc,
    (Forall (fun ds => dna_tour ds <> []) l ->
     exists ss,
       fold_res l (fun dna_strand strands =>
                     atomic_strand <- AtomicStructureStrand_init dna_strand ;;
                     Ok (strands ++ [atomic_strand])) acc = Ok (acc ++ ss) /\
       map dna_strand ss = l /\ Forall initial_strand ss) /\
    (Exists (fun ds => dna_tour ds = []) l ->
     fold_res l (fun dna_strand strands =>
                   atomic_strand <- AtomicStructureStrand_init dna_strand ;;
                   Ok (strands ++ [atomic_strand])) acc = Err IndexError).
Proof.
  induction l as [|ds l IH]; intros acc; split.
  - intros _. exists []. simpl. rewrite app_nil_r. auto.
  - intros H. inversion H.
  - intros H. inversion H as [|? ? Hds Hl]; subst.
    destruct (proj2 (strand_init_cases ds) Hds) as (s0 & E0 & Hd & Hi).
    cbn [fold_res]. rewrite E0. cbn [bind].
    destruct (proj1 (IH (acc ++ [s0])) Hl) as (ss & E & Hm & Hf).
    exists (s0 :: ss). split; [|split].
    + rewrite E. now rewrite <- app_assoc.
    + simpl. now rewrite Hm, Hd.
    + constructor; assumption.
  - intros H. cbn [fold_res].
    destruct (dna_tour ds) as [|first rest] eqn:Et.
    + rewrite (proj1 (strand_init_cases ds) Et). reflexivity.
    + inversion H as [? ? Hds|? ? Hl]; subst; [congruence|].
      destruct (proj2 (strand_init_cases ds)) as (s0 & E0 & _);
        [congruence|].
      rewrite E0. cbn [bind]. apply (proj2 (IH _)). exact Hl.
Qed.

(** X10.  [AtomicStructure.__init__] raises [IndexError] when some strand
    of the DNA structure has an empty tour.  Otherwise it makes one atomic
    strand for each strand of the DNA structure, in the same order, each
    with the tour of its DNA strand and arrays as long as the tour that hold
    no frame, [False] and the letter N; it makes no molecule. *)
Theorem structure_init_strands (d : DnaStructure) :
  (Forall (fun ds => dna_tour ds <> []) (dna_strands d) ->
   exists self,
     AtomicStructure_init d = Ok self /\
     dna_structure self = d /\ molecules self = [] /\ logger self = [] /\
     map dna_strand (strands self) = dna_strands d /\
     Forall initial_strand (strands self)) /\
  (Exists (fun ds => dna_tour ds = []) (dna_strands d) ->
   AtomicStructure_init d = Err IndexError).
Proof.
  unfold AtomicStructure_init, _init_strand_data.
  destruct (init_strand_data_spec (dna_strands d) []) as [H1 H2]. split.
  - intros H. destruct (H1 H) as (ss & E & Hm & Hf). rewrite E.
    cbn [bind app].
    eexists. split; [reflexivity|]. repeat split; assumption.
  - intros H. rewrite (H2 H). reflexivity.
Qed.

Lemma structure_init_strands_witness :
  Forall (fun ds => dna_tour ds <> []) (dna_strands sample_dna) /\
  exists self,
    AtomicStructure_init sample_dna = Ok self /\
    map dna_strand (strands self) = dna_strands sample_dna.
Proof.
  assert (H : Forall (fun ds => dna_tour ds <> []) (dna_strands sample_dna)).
  { repeat constructor; discriminate. }
  split; [exact H|].
  destruct (proj1 (structure_init_strands sample_dna) H)
    as (self & E & _ & _ & _ & Hm & _).
  exists self. split; [exact E|exact Hm].
Defined.

(** ** atomic_structure.py: the template structures *)

Open Scope R_scope.

(** The rotation that [_read_template] applies to the template atoms turns
    [(x, y, z)] to [(y, z, x)]. *)
Lemma template_rotation :
  mmul (_Ry (-90)) (_Rx (-90)) = M3 0 1 0 0 0 1 1 0 0.
Proof.
  unfold _Ry, _Rx.
  replace (PI * (-90 / 180)) with (- (PI / 2)) by field.
  rewrite cos_neg, sin_neg, cos_PI2, sin_PI2.
  apply mat3_eq; simpl; ring.
Qed.

Lemma Ry_180 : _Ry 180 = M3 (-1) 0 0 0 1 0 0 0 (-1).
Proof.
  unfold _Ry. replace (PI * (180 / 180)) with PI by field.
  rewrite cos_PI, sin_PI. apply mat3_eq; simpl; ring.
Qed.

Lemma mvec_template_rotation (v : vec3) :
  mvec (M3 0 1 0 0 0 1 1 0 0) v = V3 (vy v) (vz v) (vx v).
Proof. destruct v as [x y z]. unfold mvec. simpl. f_equal; ring. Qed.

Close Scope R_scope.

Lemma read_template_atom_cases (a : Atom) (acc : list Atom * list Atom) :
  read_template_atom (mmul (_Ry (-90)) (_Rx (-90))) a acc
  = (fst acc ++ (if is_forward_template a then [template_atom a] else []),
     snd acc ++ (if is_reverse_template a then [template_atom a] else [])).
Proof.
  unfold read_template_atom, is_forward_template, is_reverse_template.
  rewrite template_rotation.
  destruct (String.eqb_spec (chainID a) "S") as [ES|ES]; cbn [andb].
  - assert (EA : String.eqb (chainID a) "A" = false)
      by (rewrite ES; reflexivity).
    rewrite EA. cbn [andb].
    destruct (res_seq_num a =? 2)%Z.
    + cbn [fst snd]. rewrite app_nil_r. f_equal. f_equal.
      unfold template_atom, set_chainID, set_coords, set_res_seq_num,
        set_atom_id. simpl. now rewrite mvec_template_rotation.
    + rewrite !app_nil_r. now destruct acc.
  - destruct (String.eqb_spec (chainID a) "A") as [EA|EA]; cbn [andb].
    + destruct (res_seq_num a =? 2)%Z.
      * cbn [fst snd]. rewrite app_nil_r. f_equal. f_equal.
        unfold template_atom, set_chainID, set_coords, set_res_seq_num,
          set_atom_id. simpl. now rewrite mvec_template_rotation, EA.
      * rewrite !app_nil_r. now destruct acc.
    + rewrite !app_nil_r. now destruct acc.
Qed.

(** X11.  [_read_template] keeps, in the order of the file, the atoms of
    residue 2 of chain S as the forward structure and those of chain A as
    the reverse structure, and drops every other atom.  Each atom kept has
    the serial number -1, the residue number -1 and the chain A, and its
    coordinates [(x, y, z)] are turned to [(y, z, x)]; its name, residue
    name and element are those of the file.  An exception of the reader is
    passed on. *)
Theorem read_template_structures (pdb : string -> Res (list Atom))
    (infile_name : string) :
  _read_template pdb infile_name
  = match pdb infile_name with
    | Ok template_atoms =>
        Ok (map template_atom (filter is_forward_template template_atoms),
            map template_atom (filter is_reverse_template template_atoms))
    | Err e => Err e
    end.
Proof.
  unfold _read_template. destruct (pdb infile_name) as [l|e]; [|reflexivity].
  cbn [bind]. f_equal.
  assert (G : forall l acc,
            fold_left (fun acc atom =>
                         read_template_atom (mmul (_Ry (-90)) (_Rx (-90)))
                                            atom acc) l acc
            = (fst acc ++ map template_atom (filter is_forward_template l),
               snd acc ++ map template_atom (filter is_reverse_template l))).
  { clear. induction l as [|a l IH]; intros acc; cbn [fold_left filter map].
    - rewrite !app_nil_r. now destruct acc.
    - rewrite IH, read_template_atom_cases. cbn [fst snd].
      destruct (is_forward_template a), (is_reverse_template a);
        cbn [map]; rewrite <- !app_assoc; reflexivity. }
  rewrite G. reflexivity.
Qed.

Open Scope R_scope.

(** The three constant rotations between a template file and the frame of a
    paired base cancel. *)
Lemma constant_rotations_cancel :
  mmul (mmul rot_mat (_Ry 180)) (mmul (_Ry (-90)) (_Rx (-90))) = I3.
Proof.
  rewrite template_rotation, Ry_180. unfold rot_mat.
  apply mat3_eq; simpl; ring.
Qed.

(** X12.  The constant rotations of the three steps cancel: a template atom
    read by [_read_template] and placed by the assembler on a base whose
    rotation is a triad composed with [rot_mat], as the Frame Initializer
    sets it, ends at the triad applied to the coordinates of the atom in
    the file, plus the translation of the base. *)
Theorem template_atom_placed_by_triad (strand : AtomicStructureStrand)
    (T : mat3) (D : vec3) (i : Z) (a : Atom) (st : Asm) :
  is_forward_template a || is_reverse_template a = true ->
  exists a' b,
    read_template_atom (mmul (_Ry (-90)) (_Rx (-90))) a ([], [])
    = (if is_forward_template a then ([a'], []) else ([], [a'])) /\
    place_atom strand (mmul (mmul T rot_mat) (_Ry 180)) (Some D) i a' st
    = (Ok tt, mkAsm (add_atom (molecule st) b) (first_atomID_out st + 1)
                    (asm_log st)) /\
    coords b = vadd (mvec T (coords a)) D /\
    atom_name b = atom_name a /\ res_name b = res_name a /\
    element b = element a /\
    atom_id b = first_atomID_out st /\ res_seq_num b = (i + 1)%Z /\
    chainID b = strand_chainID strand.
Proof.
  intros H.
  assert (E : mvec (mmul (mmul T rot_mat) (_Ry 180))
                   (V3 (vy (coords a)) (vz (coords a)) (vx (coords a)))
              = mvec T (coords a)).
  { rewrite Ry_180. destruct T, (coords a). unfold mvec, mmul, rot_mat.
    simpl. f_equal; ring. }
  exists (template_atom a),
    (mkAtom (first_atomID_out st) (atom_name a) (res_name a)
            (strand_chainID strand) (i + 1)
            (vadd (mvec T (coords a)) D) (element a)).
  split; [|split].
  - rewrite read_template_atom_cases. cbn [fst snd app].
    assert (Hex : is_forward_template a = true ->
                  is_reverse_template a = false).
    { unfold is_forward_template, is_reverse_template.
      intros F. apply andb_prop in F as [F _].
      apply String.eqb_eq in F. now rewrite F. }
    destruct (is_forward_template a).
    + now rewrite Hex.
    + cbn [orb] in H. now rewrite H.
  - unfold place_atom, sbind, get, put, lift, np_add, dupe, set_atom_id,
      set_chainID, set_res_seq_num, set_coords, template_atom.
    cbn [coords atom_id atom_name res_name chainID res_seq_num element
         molecule first_atomID_out asm_log vx vy vz].
    rewrite E. reflexivity.
  - repeat split.
Qed.

Lemma template_atom_placed_by_triad_witness :
  let a := mkAtom 1 "P" "DA" "S" 2 (V3 1 2 3) "P" in
  is_forward_template a || is_reverse_template a = true /\
  exists a' b,
    read_template_atom (mmul (_Ry (-90)) (_Rx (-90))) a ([], [])
    = ([a'], []) /\
    place_atom sample_strand (mmul (mmul I3 rot_mat) (_Ry 180))
               (Some (V3 0 0 0)) 0 a'
               (mkAsm (Molecule_init 0) 1 [])
    = (Ok tt, mkAsm (add_atom (Molecule_init 0) b) (1 + 1) []) /\
    coords b = vadd (mvec I3 (V3 1 2 3)) (V3 0 0 0).
Proof.
  intros a.
  assert (H : is_forward_template a || is_reverse_template a = true)
    by reflexivity.
  split; [exact H|].
  destruct (template_atom_placed_by_triad sample_strand I3 (V3 0 0 0) 0 a
              (mkAsm (Molecule_init 0) 1 []) H)
    as (a' & b & E1 & E2 & E3 & _).
  exists a', b. split; [exact E1|]. split; [exact E2|exact E3].
Defined.

Close Scope R_scope.

(** ** atomic_structure.py: the molecules of the atom assembler *)

Lemma residues_sorted_app (l new : list Atom) (b b' : Z) :
  residues_sorted l ->
  (forall a, In a l -> (res_seq_num a <= b)%Z) ->
  (forall a, In a new -> res_seq_num a = b') ->
  (b <= b')%Z ->
  residues_sorted (l ++ new).
Proof.
  intros Hs Hl Hn Hb l1 l2 E a1 a2 H1 H2.
  apply app_eq_app in E as (l0 & [[-> ->]|[-> ->]]).
  - apply in_app_or in H2 as [H2|H2].
    + apply (Hs l1 l0 eq_refl); auto.
    + rewrite (Hn a2 H2).
      specialize (Hl a1 (in_or_app _ _ _ (or_introl H1))). lia.
  - rewrite (Hn a2 (in_or_app _ _ _ (or_intror H2))).
    apply in_app_or in H1 as [H1|H1].
    + specialize (Hl a1 H1). lia.
    + rewrite (Hn a1 (in_or_app _ _ _ (or_introl H1))). lia.
Qed.

Lemma place_all_chain (chain : string) (R : mat3) (D : vec3) (i : Z)
    (tpl : list Atom) :
  forall id a, In a (place_all chain R D i id tpl) -> chainID a = chain.
Proof.
  induction tpl as [|t tpl IH]; intros id a; simpl.
  - tauto.
  - intros [<-|H]; [reflexivity|eauto].
Qed.

(** What the loop over the bases keeps, up to the base numbered [b]. *)
Lemma create_atoms_loop_wf (strand : AtomicStructureStrand)
    (fwd rev : dict (list Atom)) (Ry180 : mat3) :
  forall (n a : nat) (st st' : Asm),
    for_in (map Z.of_nat (seq a n))
           (create_atoms_for_base strand fwd rev Ry180) st = (Ok tt, st') ->
    mol_id (molecule st) = strand_id strand ->
    chains_index (molecule st) ->
    (forall x, In x (atoms (molecule st)) ->
       chainID x = strand_chainID strand /\
       (1 <= res_seq_num x <= Z.of_nat a)%Z) ->
    residues_sorted (atoms (molecule st)) ->
    mol_id (molecule st') = strand_id strand /\
    chains_index (molecule st') /\
    (forall x, In x (atoms (molecule st')) ->
       chainID x = strand_chainID strand /\
       (1 <= res_seq_num x <= Z.of_nat (a + n))%Z) /\
    residues_sorted (atoms (molecule st')).
Proof.
  induction n as [|n IH]; intros a st st'; cbn [seq map for_in].
  - unfold ret. intros [= <-] H1 H2 H3 H4. rewrite Nat.add_0_r. auto.
  - unfold sbind.
    destruct (create_atoms_for_base strand fwd rev Ry180 (Z.of_nat a) st)
      as [[[]|e] s1] eqn:E; [|discriminate].
    intros H H1 H2 H3 H4.
    assert (G : mol_id (molecule s1) = strand_id strand /\
                chains_index (molecule s1) /\
                (forall x, In x (atoms (molecule s1)) ->
                   chainID x = strand_chainID strand /\
                   (1 <= res_seq_num x <= Z.of_nat (S a))%Z) /\
                residues_sorted (atoms (molecule s1))).
    { apply create_atoms_for_base_inv in E as (sR & _ & E).
      assert (Hold : forall x, In x (atoms (molecule st)) ->
                chainID x = strand_chainID strand /\
                (1 <= res_seq_num x <= Z.of_nat (S a))%Z).
      { intros x Hx. destruct (H3 x Hx). split; [auto|lia]. }
      destruct sR as [Rb|]; [|subst; auto].
      destruct E as (letter & _ & E).
      destruct (dict_mem fwd (upper letter)); [|subst; auto].
      destruct E as (D & main & tpl & d & _ & _ & _ & _ & ->).
      cbn [molecule].
      match goal with |- context [fold_left add_atom ?l ?m] =>
        destruct (fold_add_atom_spec l m) as (F1 & F2 & F3);
        set (new := l) in *
      end.
      rewrite F1, F2. split; [exact H1|]. split; [auto|]. split.
      - intros x Hx. apply in_app_or in Hx as [Hx|Hx]; [auto|].
        split; [eapply place_all_chain; eauto|].
        rewrite (place_all_residue _ _ _ _ _ _ _ Hx). lia.
      - apply residues_sorted_app with (b := Z.of_nat a)
                                       (b' := (Z.of_nat a + 1)%Z); auto.
        + intros x Hx. destruct (H3 x Hx). lia.
        + intros x Hx. eapply place_all_residue; eauto.
        + lia. }
    destruct G as (G1 & G2 & G3 & G4).
    replace (a + S n)%nat with (S a + n)%nat by lia.
    apply (IH (S a) s1 st'); auto.
Qed.

Lemma create_atoms_run_wf (strand : AtomicStructureStrand)
    (fwd rev : dict (list Atom)) (id0 : Z) (log : list log_record)
    (st' : Asm) :
  for_in (range (len (tour strand)))
         (create_atoms_for_base strand fwd rev (_Ry 180))
         (mkAsm (Molecule_init (strand_id strand)) id0 log) = (Ok tt, st') ->
  molecule_of strand (molecule st') /\
  first_atomID_out st' = (id0 + len (atoms (molecule st')))%Z /\
  ids_from id0 (atoms (molecule st')) /\
  exists w, asm_log st' = log ++ w.
Proof.
  intros E. split; [|split; [|split]].
  - rewrite range_len in E.
    apply create_atoms_loop_wf in E as (H1 & H2 & H3 & H4).
    + unfold molecule_of. unfold len. auto.
    + reflexivity.
    + apply chains_index_init.
    + intros x [].
    + intros l1 l2 El. simpl in El.
      symmetry in El. apply app_eq_nil in El as [-> ->]. intros a1 a2 [].
  - eapply (for_in_invariant (ids_invariant id0)) in E.
    + apply E.
    + intros x s s' _. apply create_atoms_for_base_ids.
    + unfold ids_invariant, ids_from, len. simpl. split; [reflexivity|lia].
  - eapply (for_in_invariant (ids_invariant id0)) in E.
    + apply E.
    + intros x s s' _. apply create_atoms_for_base_ids.
    + unfold ids_invariant, ids_from, len. simpl. split; [reflexivity|lia].
  - apply create_atoms_loop_adds in E as (new & w & _ & Hw & _).
    exists w. exact Hw.
Qed.

(** X13.  The molecule that [_create_atoms_from_strand] returns for a
    strand has the identity of the strand; every atom carries the chain
    identifier of the strand and a residue number between 1 and the number
    of bases, and the residue numbers never decrease along the atoms; the
    [chains] of the molecule hold the chain identifiers of its atoms.  The
    serial number returned is the one received plus the number of atoms,
    and the log is only added to. *)
Theorem assembler_molecule_well_formed (base_conn : list DnaBase)
    (strand : AtomicStructureStrand) (fwd rev : dict (list Atom))
    (id0 id1 : Z) (log log' : list log_record) (mol : Molecule) :
  _create_atoms_from_strand base_conn strand fwd rev id0 log
  = (Ok (mol, id1), log') ->
  molecule_of strand mol /\
  id1 = (id0 + len (atoms mol))%Z /\
  exists w, log' = log ++ w.
Proof.
  intros H.
  apply create_atoms_from_strand_inv in H as (st' & E & -> & -> & ->).
  apply create_atoms_run_wf in E as (H1 & H2 & _ & H4). auto.
Qed.

Lemma assembler_molecule_well_formed_witness :
  let mol := fst (result_of (Molecule_init 0, 0%Z) (fst sample_assembly)) in
  let id1 := snd (result_of (Molecule_init 0, 0%Z) (fst sample_assembly)) in
  sample_assembly = (Ok (mol, id1), snd sample_assembly) /\
  molecule_of sample_strand mol.
Proof.
  intros mol id1.
  assert (H : _create_atoms_from_strand (base_connectivity sample_dna)
                sample_strand sample_forward sample_reverse 1 []
              = (Ok (mol, id1), snd sample_assembly)) by reflexivity.
  split; [exact H|].
  exact (proj1 (assembler_molecule_well_formed _ _ _ _ _ _ _ _ _ H)).
Defined.

(** ** atomic_structure.py: [_generate_atoms] and the single-strand path *)

Lemma create_atoms_from_strand_ss_inv (strand : AtomicStructureStrand)
    (fwd rev : dict (list Atom))
    (id0 id1 : Z) (log log' : list log_record) (mol : Molecule) :
  _create_atoms_from_strand_ss strand fwd rev id0 log
  = (Ok (mol, id1), log') ->
  exists st',
    for_in (range (len (tour strand)))
           (create_atoms_for_base strand fwd rev (_Ry 180))
           (mkAsm (Molecule_init (strand_id strand)) id0 log) = (Ok tt, st') /\
    mol = molecule st' /\ id1 = first_atomID_out st' /\ log' = asm_log st'.
Proof.
  unfold _create_atoms_from_strand_ss.
  destruct (py_get _ _) as [base|e]; [|discriminate].
  destruct (for_in _ _ _) as [[[]|e] st'] eqn:E; [|discriminate].
  intros [= <- <- <-]. exists st'. auto.
Qed.

Lemma create_atoms_from_strand_agree (base_conn : list DnaBase)
    (strand : AtomicStructureStrand) (fwd rev : dict (list Atom))
    (id0 : Z) (log : list log_record) :
  first_base_known base_conn strand ->
  _create_atoms_from_strand base_conn strand fwd rev id0 log
  = _create_atoms_from_strand_ss strand fwd rev id0 log.
Proof.
  intros (first & base & H1 & H2).
  unfold _create_atoms_from_strand, _create_atoms_from_strand_ss.
  rewrite H1. cbn [bind]. rewrite H2. reflexivity.
Qed.

Lemma generate_atoms_loop_agree (base_conn : list DnaBase)
    (fwd rev : dict (list Atom)) (strands : list AtomicStructureStrand) :
  Forall (first_base_known base_conn) strands ->
  forall id0 acc log,
    generate_atoms_loop base_conn strands fwd rev id0 acc log
    = generate_atoms_loop_ss strands fwd rev id0 acc log.
Proof.
  induction 1 as [|s rest Hs _ IH]; intros id0 acc log; simpl; auto.
  unfold sbind. rewrite (create_atoms_from_strand_agree _ _ _ _ _ _ Hs).
  destruct (_create_atoms_from_strand_ss _ _ _ _ _) as [[r|e] log1]; auto.
Qed.

(** X14.  Where the first base of every tour is found in the base
    connectivity, the single-strand path makes the same molecules as the
    paired path: [_create_atoms_from_strand_ss] and
    [_create_atoms_from_strand] return the same molecule, serial number and
    log (or the same exception), and so do [_generate_atoms_ss] and
    [_generate_atoms].  Where the first base of a tour is not found, the
    paired path raises before it makes an atom. *)
Theorem single_strand_path_agrees (pdb : string -> Res (list Atom))
    (base_conn : list DnaBase) (strands : list AtomicStructureStrand)
    (log : list log_record) :
  Forall (first_base_known base_conn) strands ->
  (forall strand fwd rev id0,
     In strand strands ->
     _create_atoms_from_strand base_conn strand fwd rev id0 log
     = _create_atoms_from_strand_ss strand fwd rev id0 log) /\
  _generate_atoms pdb base_conn strands log
  = _generate_atoms_ss pdb strands log /\
  (forall strand fwd rev id0 first e,
     py_get (tour strand) 0 = Ok first ->
     py_get base_conn (base_id first - 1) = Err e ->
     _create_atoms_from_strand base_conn strand fwd rev id0 log
     = (Err e, log)).
Proof.
  intros H. split; [|split].
  - intros strand fwd rev id0 Hin. apply create_atoms_from_strand_agree.
    rewrite Forall_forall in H. auto.
  - unfold _generate_atoms, _generate_atoms_ss, sbind, lift.
    destruct (_read_template pdb _) as [AT|e]; [|reflexivity].
    destruct (_read_template pdb _) as [GC|e]; [|reflexivity].
    destruct (_read_template pdb _) as [CG|e]; [|reflexivity].
    destruct (_read_template pdb _) as [TA|e]; [|reflexivity].
    apply generate_atoms_loop_agree. exact H.
  - intros strand fwd rev id0 first e H1 H2.
    unfold _create_atoms_from_strand. rewrite H1. cbn [bind].
    now rewrite H2.
Qed.

Lemma single_strand_path_agrees_witness :
  Forall (first_base_known (base_connectivity sample_dna))
         [sample_strand; sample_tail_strand] /\
  _generate_atoms sample_pdb (base_connectivity sample_dna)
                  [sample_strand; sample_tail_strand] []
  = _generate_atoms_ss sample_pdb [sample_strand; sample_tail_strand] [].
Proof.
  assert (H : Forall (first_base_known (base_connectivity sample_dna))
                     [sample_strand; sample_tail_strand]).
  { repeat constructor; apply sample_first_base_known; reflexivity. }
  split; [exact H|].
  exact (proj1 (proj2 (single_strand_path_agrees sample_pdb _ _ [] H))).
Defined.

Lemma generate_atoms_loop_ss_spec (fwd rev : dict (list Atom))
    (strands : list AtomicStructureStrand) :
  forall (id0 : Z) (acc mols : list Molecule) (log log' : list log_record),
    ids_from 1 (flat_map atoms acc) ->
    id0 = (1 + len (flat_map atoms acc))%Z ->
    generate_atoms_loop_ss strands fwd rev id0 acc log = (Ok mols, log') ->
    ids_from 1 (flat_map atoms mols) /\
    (exists new, mols = acc ++ new /\ Forall2 molecule_of strands new) /\
    exists w, log' = log ++ w.
Proof.
  induction strands as [|s rest IH]; intros id0 acc mols log log' Hacc Hid;
    simpl.
  - unfold ret. intros [= <- <-]. split; [exact Hacc|]. split.
    + exists []. rewrite app_nil_r. split; [reflexivity|constructor].
    + exists []. now rewrite app_nil_r.
  - unfold sbind.
    destruct (_create_atoms_from_strand_ss _ _ _ _ _) as [[[mol id1]|e] log1]
      eqn:E; [|discriminate].
    apply create_atoms_from_strand_ss_inv in E as (st' & E & -> & -> & ->).
    apply create_atoms_run_wf in E as (H1 & H2 & H3 & (w1 & H4)).
    cbn [fst snd]. intros H.
    apply IH in H as (G1 & (new & -> & G2) & (w2 & ->)).
    + split; [exact G1|]. split.
      * exists (molecule st' :: new). rewrite <- app_assoc. split; auto.
      * exists (w1 ++ w2). rewrite H4. now rewrite app_assoc.
    + rewrite flat_map_app. cbn [flat_map]. rewrite app_nil_r.
      apply ids_from_app; auto. now rewrite <- Hid.
    + rewrite flat_map_app. cbn [flat_map]. rewrite app_nil_r. rewrite H2.
      unfold len in *. rewrite length_app. lia.
Qed.

(** X15.  A run of [_generate_atoms_ss] that returns gives one molecule for
    each strand, in the order of the strands, each as the assembler makes it
    of its strand; across the molecules the serial numbers of the atoms are
    1, 2, 3, ... in order; and the log is only added to. *)
Theorem generate_atoms_ss_molecules (pdb : string -> Res (list Atom))
    (strands : list AtomicStructureStrand)
    (log log' : list log_record) (mols : list Molecule) :
  _generate_atoms_ss pdb strands log = (Ok mols, log') ->
  Forall2 molecule_of strands mols /\
  map atom_id (flat_map atoms mols)
  = map Z.of_nat (seq 1 (List.length (flat_map atoms mols))) /\
  exists w, log' = log ++ w.
Proof.
  unfold _generate_atoms_ss, sbind, lift.
  destruct (_read_template pdb _) as [AT|e]; [|discriminate].
  destruct (_read_template pdb _) as [GC|e]; [|discriminate].
  destruct (_read_template pdb _) as [CG|e]; [|discriminate].
  destruct (_read_template pdb _) as [TA|e]; [|discriminate].
  intros H. apply generate_atoms_loop_ss_spec in H
    as (G1 & (new & -> & G2) & G3); try reflexivity.
  split; [exact G2|]. split; [|exact G3].
  unfold ids_from in G1. rewrite G1.
  rewrite (map_seq_offset _ 1). apply map_ext. intros k. lia.
Qed.

Lemma generate_atoms_ss_molecules_witness :
  let r := _generate_atoms_ss sample_pdb [sample_strand; sample_tail_strand]
                              [] in
  let mols := result_of [] (fst r) in
  r = (Ok mols, snd r) /\
  Forall2 molecule_of [sample_strand; sample_tail_strand] mols.
Proof.
  intros r mols.
  assert (H : _generate_atoms_ss sample_pdb
                [sample_strand; sample_tail_strand] []
              = (Ok mols, snd r)) by reflexivity.
  split; [exact H|].
  exact (proj1 (generate_atoms_ss_molecules _ _ _ _ _ H)).
Defined.

Lemma generate_atoms_loop_molecules (base_conn : list DnaBase)
    (fwd rev : dict (list Atom)) (strands : list AtomicStructureStrand) :
  forall (id0 : Z) (acc mols : list Molecule) (log log' : list log_record),
    generate_atoms_loop base_conn strands fwd rev id0 acc log
    = (Ok mols, log') ->
    (exists new, mols = acc ++ new /\ Forall2 molecule_of strands new) /\
    exists w, log' = log ++ w.
Proof.
  induction strands as [|s rest IH]; intros id0 acc mols log log'; simpl.
  - unfold ret. intros [= <- <-]. split.
    + exists []. rewrite app_nil_r. split; [reflexivity|constructor].
    + exists []. now rewrite app_nil_r.
  - unfold sbind.
    destruct (_create_atoms_from_strand _ _ _ _ _ _)
      as [[[mol id1]|e] log1] eqn:E; [|discriminate].
    apply create_atoms_from_strand_inv in E as (st' & E & -> & -> & ->).
    apply create_atoms_run_wf in E as (H1 & _ & _ & (w1 & H4)).
    cbn [fst snd]. intros H.
    apply IH in H as ((new & -> & G2) & (w2 & ->)). split.
    + exists (molecule st' :: new). rewrite <- app_assoc. split; auto.
    + exists (w1 ++ w2). rewrite H4. now rewrite app_assoc.
Qed.

Lemma read_template_error (pdb : string -> Res (list Atom)) (name : string)
    (e : exn) :
  pdb name = Err e -> _read_template pdb name = Err e.
Proof. intros H. unfold _read_template. now rewrite H. Qed.

(** X16.  A run of [_generate_atoms] that returns gives one molecule for
    each strand, in the order of the strands, each as the assembler makes it
    of its strand, and the log is only added to.  When one of the four
    template files cannot be read, the run raises before it looks at a
    strand, and the log is as it was. *)
Theorem generate_atoms_molecules (pdb : string -> Res (list Atom))
    (base_conn : list DnaBase) (strands : list AtomicStructureStrand)
    (log : list log_record) :
  (forall mols log',
     _generate_atoms pdb base_conn strands log = (Ok mols, log') ->
     Forall2 molecule_of strands mols /\ exists w, log' = log ++ w) /\
  (forall name e,
     In name [TEMPLATE_PDB_STRUCTURE_FILE_A; TEMPLATE_PDB_STRUCTURE_FILE_G;
              TEMPLATE_PDB_STRUCTURE_FILE_C; TEMPLATE_PDB_STRUCTURE_FILE_T] ->
     pdb name = Err e ->
     exists e', _generate_atoms pdb base_conn strands log = (Err e', log)).
Proof.
  split.
  - intros mols log'. unfold _generate_atoms, sbind, lift.
    destruct (_read_template pdb _) as [AT|e]; [|discriminate].
    destruct (_read_template pdb _) as [GC|e]; [|discriminate].
    destruct (_read_template pdb _) as [CG|e]; [|discriminate].
    destruct (_read_template pdb _) as [TA|e]; [|discriminate].
    intros H. apply generate_atoms_loop_molecules in H
      as ((new & -> & H) & Hw).
    split; [exact H|exact Hw].
  - intros name e Hin He. apply read_template_error in He.
    unfold _generate_atoms, sbind, lift.
    destruct (_read_template pdb TEMPLATE_PDB_STRUCTURE_FILE_A)
      as [AT|eA] eqn:EA; [|eauto].
    destruct (_read_template pdb TEMPLATE_PDB_STRUCTURE_FILE_G)
      as [GC|eG] eqn:EG; [|eauto].
    destruct (_read_template pdb TEMPLATE_PDB_STRUCTURE_FILE_C)
      as [CG|eC] eqn:EC; [|eauto].
    destruct (_read_template pdb TEMPLATE_PDB_STRUCTURE_FILE_T)
      as [TA|eT] eqn:ET; [|eauto].
    exfalso. destruct Hin as [<-|[<-|[<-|[<-|[]]]]]; congruence.
Qed.

Lemma generate_atoms_molecules_witness :
  let mols := result_of [] (fst sample_generation) in
  sample_generation = (Ok mols, snd sample_generation) /\
  Forall2 molecule_of [sample_strand; sample_tail_strand] mols.
Proof.
  intros mols.
  assert (H : _generate_atoms sample_pdb (base_connectivity sample_dna)
                [sample_strand; sample_tail_strand] []
              = (Ok mols, snd sample_generation)) by reflexivity.
  split; [exact H|].
  exact (proj1 (proj1 (generate_atoms_molecules _ _ _ _) _ _ H)).
Defined.

(** ** atomic_structure.py: [get_extent] *)

Open Scope R_scope.

Lemma tight_bounds_first (f : Atom -> R) (a : Atom) :
  tight_bounds f (f a) (f a) [a].
Proof.
  repeat split.
  - destruct H as [<-|[]]. lra.
  - destruct H as [<-|[]]. lra.
  - exists a. split; [now left|reflexivity].
  - exists a. split; [now left|reflexivity].
Qed.

Lemma tight_bounds_next (f : Atom -> R) (lo hi : R) (seen : list Atom)
    (a : Atom) :
  tight_bounds f lo hi seen ->
  tight_bounds f (fst (extent_bound (f a) lo hi))
               (snd (extent_bound (f a) lo hi)) (seen ++ [a]).
Proof.
  intros (Hall & (a1 & In1 & E1) & (a2 & In2 & E2)).
  assert (Hle : lo <= hi) by (destruct (Hall a1 In1); lra).
  unfold extent_bound.
  destruct (Rltb (f a) lo) eqn:L; [|destruct (Rgtb (f a) hi) eqn:G];
    cbn [fst snd].
  - apply Rltb_true in L. split; [|split].
    + intros x Hx. apply in_app_or in Hx as [Hx|[<-|[]]].
      * destruct (Hall x Hx). lra.
      * lra.
    + exists a. split; [apply in_or_app; right; now left|reflexivity].
    + exists a2. split; [apply in_or_app; now left|exact E2].
  - apply Rgtb_true in G. split; [|split].
    + intros x Hx. apply in_app_or in Hx as [Hx|[<-|[]]].
      * destruct (Hall x Hx). lra.
      * lra.
    + exists a1. split; [apply in_or_app; now left|exact E1].
    + exists a. split; [apply in_or_app; right; now left|reflexivity].
  - apply Rltb_false in L. apply Rgtb_false in G. split; [|split].
    + intros x Hx. apply in_app_or in Hx as [Hx|[<-|[]]].
      * now apply Hall.
      * lra.
    + exists a1. split; [apply in_or_app; now left|exact E1].
    + exists a2. split; [apply in_or_app; now left|exact E2].
Qed.

Close Scope R_scope.

Lemma extent_atom_spec (e : Extent) (seen : list Atom) (a : Atom) :
  extent_spec e seen -> extent_spec (extent_atom e a) (seen ++ [a]).
Proof.
  intros [Hn H]. unfold extent_atom. destruct seen as [|s t].
  - subst e. cbn [num_atoms Z.eqb app]. split; [reflexivity|].
    cbn [xmin xmax ymin ymax zmin zmax].
    split; [|split].
    + apply (tight_bounds_first (fun a => vx (coords a))).
    + apply (tight_bounds_first (fun a => vy (coords a))).
    + apply (tight_bounds_first (fun a => vz (coords a))).
  - assert (Hz : (num_atoms e =? 0)%Z = false).
    { apply Z.eqb_neq. rewrite Hn, len_cons. pose proof (len_nonneg t). lia. }
    rewrite Hz. split.
    + cbn [num_atoms]. rewrite Hn. unfold len. rewrite length_app.
      simpl List.length. lia.
    + destruct H as (Hx & Hy & Hzz).
      change ((s :: t) ++ [a]) with (s :: (t ++ [a])).
      cbn [xmin xmax ymin ymax zmin zmax].
      change (s :: (t ++ [a])) with ((s :: t) ++ [a]).
      split; [|split].
      * apply (tight_bounds_next (fun a => vx (coords a))). exact Hx.
      * apply (tight_bounds_next (fun a => vy (coords a))). exact Hy.
      * apply (tight_bounds_next (fun a => vz (coords a))). exact Hzz.
Qed.

Lemma extent_atoms_spec (l : list Atom) :
  forall e seen, extent_spec e seen ->
                 extent_spec (fold_left extent_atom l e) (seen ++ l).
Proof.
  induction l as [|a l IH]; intros e seen H; simpl.
  - now rewrite app_nil_r.
  - replace (seen ++ a :: l) with ((seen ++ [a]) ++ l)
      by (now rewrite <- app_assoc).
    apply IH. now apply extent_atom_spec.
Qed.

Lemma extent_of_spec (mols : list Molecule) :
  extent_spec (extent_of mols) (flat_map atoms mols).
Proof.
  unfold extent_of.
  assert (G : forall mols e seen,
            extent_spec e seen ->
            extent_spec
              (fold_left (fun e molecule =>
                            fold_left extent_atom (atoms molecule) e) mols e)
              (seen ++ flat_map atoms mols)).
  { clear. induction mols as [|m mols IH]; intros e seen H; simpl.
    - now rewrite app_nil_r.
    - rewrite app_assoc. apply IH. now apply extent_atoms_spec. }
  apply (G mols _ []). split; reflexivity.
Qed.

Lemma generate_structure_molecules (pdb : string -> Res (list Atom))
    (self s' : AtomicStructure) (mols : list Molecule) :
  generate_structure pdb self = (Ok mols, s') -> molecules s' = mols.
Proof.
  unfold generate_structure, sbind, get, put, ret, lift.
  destruct (init_frames self) as [[[]|e] s1]; [|discriminate].
  destruct (for_in _ _ s1) as [[[]|e] s2]; [|discriminate].
  destruct (_generate_atoms _ _ _ _) as [[r|e] log]; [|discriminate].
  intros [= <- <-]. reflexivity.
Qed.

Lemma get_extent_cached (pdb : string -> Res (list Atom))
    (self : AtomicStructure) :
  molecules self <> [] ->
  get_extent pdb self
  = (let e := extent_of (molecules self) in
     Ok (xmin e, xmax e, ymin e, ymax e, zmin e, zmax e), self).
Proof.
  intros H. unfold get_extent, sbind, get, ret.
  assert (Hz : (len (molecules self) =? 0)%Z = false).
  { apply Z.eqb_neq. destruct (molecules self); [congruence|].
    rewrite len_cons. pose proof (len_nonneg l). lia. }
  rewrite Hz. reflexivity.
Qed.

(** X17.  On an object that has molecules, [get_extent] returns without
    changing the object, and the six numbers it returns are the extent of
    the atoms of all the molecules: each coordinate of each atom lies
    between its two bounds, and each bound is the coordinate of some atom.
    With molecules that hold no atom at all, the six numbers are 0. *)
Theorem get_extent_bounds_atoms (pdb : string -> Res (list Atom))
    (self : AtomicStructure) :
  molecules self <> [] ->
  exists e,
    get_extent pdb self
    = (Ok (xmin e, xmax e, ymin e, ymax e, zmin e, zmax e), self) /\
    extent_spec e (flat_map atoms (molecules self)).
Proof.
  intros H. exists (extent_of (molecules self)).
  split; [apply get_extent_cached; exact H|apply extent_of_spec].
Qed.

(** X18.  On an object without molecules, [get_extent] runs
    [generate_structure] first: an exception of the generation is the
    result of [get_extent], with the object as the generation left it;
    otherwise the numbers returned are the extent of the atoms generated,
    and the molecules stay in the object, so that a second call, when there
    is at least one molecule, returns the same numbers and changes
    nothing. *)
Theorem get_extent_generates_once (pdb : string -> Res (list Atom))
    (self : AtomicStructure) :
  molecules self = [] ->
  (forall err s', generate_structure pdb self = (Err err, s') ->
                  get_extent pdb self = (Err err, s')) /\
  (forall mols s', generate_structure pdb self = (Ok mols, s') ->
     exists e,
       get_extent pdb self
       = (Ok (xmin e, xmax e, ymin e, ymax e, zmin e, zmax e), s') /\
       molecules s' = mols /\
       extent_spec e (flat_map atoms mols) /\
       (mols <> [] ->
        get_extent pdb s'
        = (Ok (xmin e, xmax e, ymin e, ymax e, zmin e, zmax e), s'))).
Proof.
  intros H. split.
  - intros err s' E. unfold get_extent, sbind, get, ret.
    rewrite H. cbn [len]. change (len (@nil Molecule) =? 0)%Z with true.
    cbn iota. unfold sbind. now rewrite E.
  - intros mols s' E.
    pose proof (generate_structure_molecules _ _ _ _ E) as Hm.
    exists (extent_of mols). split; [|split; [exact Hm|split]].
    + unfold get_extent, sbind, get, ret.
      rewrite H. change (len (@nil Molecule) =? 0)%Z with true.
      cbn iota. unfold sbind. rewrite E, Hm. reflexivity.
    + apply extent_of_spec.
    + intros Hne. rewrite get_extent_cached by (rewrite Hm; exact Hne).
      now rewrite Hm.
Qed.

Lemma get_extent_bounds_atoms_witness :
  molecules sample_generated <> [] /\
  exists e,
    get_extent sample_pdb sample_generated
    = (Ok (xmin e, xmax e, ymin e, ymax e, zmin e, zmax e),
       sample_generated) /\
    extent_spec e (flat_map atoms (molecules sample_generated)).
Proof.
  assert (H : molecules sample_generated <> []) by discriminate.
  split; [exact H|].
  exact (get_extent_bounds_atoms sample_pdb sample_generated H).
Defined.

Lemma get_extent_generates_once_witness :
  molecules sample_self = [] /\
  forall err s', generate_structure sample_pdb sample_self = (Err err, s') ->
                 get_extent sample_pdb sample_self = (Err err, s').
Proof.
  assert (H : molecules sample_self = []) by reflexivity.
  split; [exact H|].
  exact (proj1 (get_extent_generates_once sample_pdb sample_self H)).
Defined.

(** ** atomic_structure.py: [_find_single_strands] on every strand *)

Lemma unvisited_set_true (vis : list bool) (k : nat) :
  nth_error vis k = Some false ->
  S (unvisited (set_nth vis k true)) = unvisited vis.
Proof.
  unfold unvisited. revert k.
  induction vis as [|b vis IH]; intros [|k]; simpl; try discriminate.
  - intros [= ->]. reflexivity.
  - intros H. destruct b; simpl; rewrite <- (IH k H); reflexivity.
Qed.

Lemma unvisited_le_length (vis : list bool) :
  (unvisited vis <= List.length vis)%nat.
Proof. unfold unvisited. apply filter_length_le. Qed.

Lemma visits_more_refl (vis : list bool) : visits_more vis vis.
Proof. split; auto. Qed.

Lemma visits_more_trans (v1 v2 v3 : list bool) :
  visits_more v1 v2 -> visits_more v2 v3 -> visits_more v1 v3.
Proof. intros [L1 H1] [L2 H2]. split; [congruence|auto]. Qed.

Lemma visits_more_set_true (vis : list bool) (k : nat) :
  visits_more vis (set_nth vis k true).
Proof.
  split; [apply length_set_nth|]. intros j Hj.
  destruct (Nat.eq_dec j k) as [->|Hne].
  - apply nth_error_set_nth_eq. apply nth_error_Some. congruence.
  - rewrite nth_error_set_nth_neq by auto. exact Hj.
Qed.

(** With more bases visited, fewer are left; strictly fewer when some base
    is newly visited. *)
Lemma visits_more_unvisited (vis : list bool) :
  forall vis', visits_more vis vis' ->
    (unvisited vis' <= unvisited vis)%nat /\
    (forall k, nth_error vis k = Some false ->
               nth_error vis' k = Some true ->
               (unvisited vis' < unvisited vis)%nat).
Proof.
  unfold unvisited.
  induction vis as [|b vis IH]; intros [|b' vis'] [L H]; simpl in L;
    try discriminate.
  - split; [simpl; lia|]. intros [|k]; discriminate.
  - injection L as L.
    destruct (IH vis') as [Hle Hlt].
    { split; [exact L|]. intros k Hk. apply (H (S k)). exact Hk. }
    assert (Hb : b = true -> b' = true).
    { intros ->. specialize (H 0%nat eq_refl). now injection H. }
    split.
    + destruct b, b'; simpl; try lia; specialize (Hb eq_refl); discriminate.
    + intros [|k]; simpl.
      * intros [= ->] [= ->]. simpl. lia.
      * intros H1 H2. specialize (Hlt k H1 H2).
        destruct b, b'; simpl; try lia; specialize (Hb eq_refl);
          discriminate.
Qed.

Lemma region_unvisited_weaken (vis vis' : list bool) (r : list Z) :
  visits_more vis vis' -> region_unvisited vis' r -> region_unvisited vis r.
Proof.
  intros [L H] Hr z Hz. destruct (Hr z Hz) as (k & -> & Hk).
  exists k. split; [reflexivity|].
  destruct (nth_error vis k) as [[|]|] eqn:E.
  - rewrite (H k E) in Hk. discriminate.
  - reflexivity.
  - apply nth_error_None in E.
    assert (k < List.length vis')%nat by (apply nth_error_Some; congruence).
    lia.
Qed.

(** The scan in the 3' direction ends, on every strand: it visits the base
    it starts from, appends positions of bases not visited before to the
    current region, and leaves the other regions as they are. *)
Lemma scan_3prime_total (circ : bool) (S0 : list (list Z)) :
  forall (fuel : nat) (vis : list bool) (cur : list Z) (i : nat),
    (unvisited vis < fuel)%nat -> (i < List.length vis)%nat ->
    exists vis' more,
      scan_3prime fuel circ (len vis) (len S0) (Z.of_nat i)
                  (vis, S0 ++ [cur])
      = Ok (vis', S0 ++ [cur ++ more]) /\
      visits_more vis vis' /\
      nth_error vis' i = Some true /\
      (nth_error vis i = Some false ->
       exists more', more = Z.of_nat i :: more') /\
      region_unvisited vis more.
Proof.
  induction fuel as [|fuel IH]; intros vis cur i Hf Hi; [lia|].
  cbn [scan_3prime fst snd].
  destruct (nth_error vis i) as [v|] eqn:Ev;
    [|apply nth_error_None in Ev; lia].
  rewrite (py_get_nat _ _ _ Ev). cbn [bind]. destruct v.
  - exists vis, []. rewrite app_nil_r. split; [reflexivity|].
    split; [apply visits_more_refl|]. split; [exact Ev|].
    split; [discriminate|]. intros z [].
  - rewrite py_set_nat by exact Hi. cbn [bind].
    change (len S0) with (Z.of_nat (List.length S0)).
    rewrite py_get_app. cbn [bind].
    rewrite py_set_app. cbn [bind].
    set (vis1 := set_nth vis i true).
    assert (L1 : List.length vis1 = List.length vis)
      by apply length_set_nth.
    assert (U1 : S (unvisited vis1) = unvisited vis)
      by (apply unvisited_set_true; exact Ev).
    assert (V1 : visits_more vis vis1) by apply visits_more_set_true.
    assert (T1 : nth_error vis1 i = Some true)
      by (apply nth_error_set_nth_eq; exact Hi).
    assert (Hrec : forall i',
              (i' < List.length vis)%nat ->
              exists vis' more,
                scan_3prime fuel circ (len vis) (Z.of_nat (List.length S0))
                  (Z.of_nat i') (vis1, S0 ++ [cur ++ [Z.of_nat i]])
                = Ok (vis', S0 ++ [cur ++ more]) /\
                visits_more vis vis' /\
                nth_error vis' i = Some true /\
                (@Some bool false = Some false ->
                 exists more', more = Z.of_nat i :: more') /\
                region_unvisited vis more).
    { intros i' Hi'.
      destruct (IH vis1 (cur ++ [Z.of_nat i]) i') as
          (vis' & more & E & V & _ & _ & Hr); [lia|lia|].
      exists vis', (Z.of_nat i :: more). split.
      - replace (len vis) with (len vis1) by (unfold len; now rewrite L1).
        fold (len S0). rewrite E. now rewrite <- app_assoc.
      - split; [eapply visits_more_trans; eauto|].
        split; [apply V; exact T1|].
        split; [eauto|].
        intros z [<-|Hz]; [eauto|].
        apply (region_unvisited_weaken vis vis1 more V1 Hr z Hz). }
    destruct (Z.ltb_spec (Z.of_nat i) (len vis - 1)).
    + replace (Z.of_nat i + 1)%Z with (Z.of_nat (S i)) by lia.
      apply Hrec. unfold len in *. lia.
    + destruct circ.
      * apply (Hrec 0%nat). lia.
      * exists vis1, [Z.of_nat i]. split; [reflexivity|].
        split; [exact V1|]. split; [exact T1|]. split; [eauto|].
        intros z [<-|[]]. eauto.
Qed.

(** The scan in the 5' direction ends as well. *)
Lemma scan_5prime_total (circ : bool) (S0 : list (list Z)) :
  forall (fuel : nat) (vis : list bool) (cur : list Z) (i : nat),
    (unvisited vis < fuel)%nat -> (i < List.length vis)%nat ->
    exists vis' more,
      scan_5prime fuel circ (len vis) (len S0) (Z.of_nat i)
                  (vis, S0 ++ [cur])
      = Ok (vis', S0 ++ [cur ++ more]) /\
      visits_more vis vis' /\
      nth_error vis' i = Some true.
Proof.
  induction fuel as [|fuel IH]; intros vis cur i Hf Hi; [lia|].
  cbn [scan_5prime fst snd].
  destruct (nth_error vis i) as [v|] eqn:Ev;
    [|apply nth_error_None in Ev; lia].
  rewrite (py_get_nat _ _ _ Ev). cbn [bind]. destruct v.
  - exists vis, []. rewrite app_nil_r. split; [reflexivity|].
    split; [apply visits_more_refl|exact Ev].
  - rewrite py_set_nat by exact Hi. cbn [bind].
    change (len S0) with (Z.of_nat (List.length S0)).
    rewrite py_get_app. cbn [bind].
    rewrite py_set_app. cbn [bind].
    set (vis1 := set_nth vis i true).
    assert (L1 : List.length vis1 = List.length vis)
      by apply length_set_nth.
    assert (U1 : S (unvisited vis1) = unvisited vis)
      by (apply unvisited_set_true; exact Ev).
    assert (V1 : visits_more vis vis1) by apply visits_more_set_true.
    assert (T1 : nth_error vis1 i = Some true)
      by (apply nth_error_set_nth_eq; exact Hi).
    assert (Hrec : forall i',
              (i' < List.length vis)%nat ->
              exists vis' more,
                scan_5prime fuel circ (len vis) (Z.of_nat (List.length S0))
                  (Z.of_nat i') (vis1, S0 ++ [cur ++ [Z.of_nat i]])
                = Ok (vis', S0 ++ [cur ++ more]) /\
                visits_more vis vis' /\
                nth_error vis' i = Some true).
    { intros i' Hi'.
      destruct (IH vis1 (cur ++ [Z.of_nat i]) i') as
          (vis' & more & E & V & _); [lia|lia|].
      exists vis', (Z.of_nat i :: more). split.
      - replace (len vis) with (len vis1) by (unfold len; now rewrite L1).
        fold (len S0). rewrite E. now rewrite <- app_assoc.
      - split; [eapply visits_more_trans; eauto|].
        apply V; exact T1. }
    destruct (Z.gtb_spec (Z.of_nat i) 0).
    + replace (Z.of_nat i - 1)%Z with (Z.of_nat (i - 1)) by lia.
      apply Hrec. lia.
    + destruct circ.
      * replace (len vis - 1)%Z with (Z.of_nat (List.length vis - 1))
          by (unfold len; lia).
        apply Hrec. lia.
      * exists vis1, [Z.of_nat i]. split; [reflexivity|].
        split; [exact V1|exact T1].
Qed.

Lemma index_false_spec (vis : list bool) :
  forall i,
    match index_false vis i with
    | Some z =>
        exists k, z = (i + Z.of_nat k)%Z /\ nth_error vis k = Some false /\
                  forall j, (j < k)%nat -> nth_error vis j = Some true
    | None => forall k, nth_error vis k <> Some false
    end.
Proof.
  induction vis as [|b vis IH]; intros i; simpl.
  - intros [|k]; discriminate.
  - destruct b.
    + specialize (IH (i + 1)%Z).
      destruct (index_false vis (i + 1)) as [z|].
      * destruct IH as (k & -> & Hk & Hj). exists (S k).
        split; [lia|]. split; [exact Hk|].
        intros [|j] Hlt; [reflexivity|]. apply Hj. lia.
      * intros [|k]; [discriminate|apply IH].
    + exists 0%nat. split; [lia|]. split; [reflexivity|]. intros j Hj. lia.
Qed.

Lemma visits_more_reset (vis vis1 : list bool) (k0 : nat) :
  visits_more vis vis1 -> nth_error vis k0 = Some false ->
  visits_more vis (set_nth vis1 k0 false).
Proof.
  intros [L H] H0. split; [now rewrite length_set_nth|].
  intros k Hk. destruct (Nat.eq_dec k k0) as [->|Hne]; [congruence|].
  rewrite nth_error_set_nth_neq by auto. now apply H.
Qed.

(** The loop of [_find_single_strands] ends, on every strand: it adds
    regions after those it has, each made of positions of bases not visited
    before, and when the first base is not visited the first region it adds
    starts with position 0. *)
Lemma find_loop_total (circ : bool) :
  forall (fuel : nat) (vis : list bool) (acc : list (list Z)),
    (unvisited vis < fuel)%nat ->
    exists new,
      find_loop fuel circ (len vis) (len acc) vis acc = Ok (acc ++ new) /\
      (forall r, In r new -> region_unvisited vis r) /\
      (nth_error vis 0 = Some false ->
       exists more rest, new = (0%Z :: more) :: rest).
Proof.
  induction fuel as [|fuel IH]; intros vis acc Hf; [lia|].
  cbn [find_loop]. pose proof (index_false_spec vis 0) as HI.
  destruct (index_false vis 0) as [i_0|].
  - destruct HI as (k0 & -> & H0 & Hbefore).
    replace (0 + Z.of_nat k0)%Z with (Z.of_nat k0) by lia.
    assert (Hk0 : (k0 < List.length vis)%nat)
      by (apply nth_error_Some; congruence).
    pose proof (unvisited_le_length vis) as Hle.
    destruct (scan_5prime_total circ acc (S (List.length vis)) vis [] k0)
      as (vis1 & more1 & E1 & V1 & T1); [lia|exact Hk0|].
    rewrite E1. cbn [bind fst snd]. rewrite py_set_last. cbn [bind].
    pose proof V1 as [L1 _].
    rewrite py_set_nat by lia. cbn [bind].
    set (vis2 := set_nth vis1 k0 false).
    assert (V2 : visits_more vis vis2)
      by (apply visits_more_reset; assumption).
    pose proof V2 as [L2 _].
    assert (F2 : nth_error vis2 k0 = Some false)
      by (apply nth_error_set_nth_eq; lia).
    pose proof (unvisited_le_length vis2) as Hle2.
    destruct (scan_3prime_total circ acc (S (List.length vis2)) vis2 [] k0)
      as (vis3 & more3 & E3 & V3 & T3 & Hhead & Hr3); [lia|lia|].
    replace (len vis2) with (len vis) in E3 by (unfold len; now rewrite L2).
    rewrite E3. cbn [bind fst snd app].
    assert (V : visits_more vis vis3) by (eapply visits_more_trans; eauto).
    pose proof V as [L3 _].
    destruct (visits_more_unvisited vis vis3 V) as [_ Hlt].
    specialize (Hlt k0 H0 T3).
    destruct (IH vis3 (acc ++ [more3])) as (new & E & Hnew & _); [lia|].
    replace (len vis3) with (len vis) in E by (unfold len; now rewrite L3).
    replace (len (acc ++ [more3])) with (len acc + 1)%Z in E
      by (rewrite len_app, len_cons, len_nil; lia).
    exists (more3 :: new). split; [|split].
    + rewrite E. now rewrite <- app_assoc.
    + intros r [<-|Hr].
      * apply (region_unvisited_weaken vis vis2 more3 V2 Hr3).
      * apply (region_unvisited_weaken vis vis3 r V (Hnew r Hr)).
    + intros Hz. assert (k0 = 0)%nat as ->.
      { destruct k0 as [|k0]; [reflexivity|].
        specialize (Hbefore 0%nat ltac:(lia)). congruence. }
      destruct (Hhead F2) as (more' & ->). eauto.
  - exists []. rewrite app_nil_r. split; [reflexivity|].
    split; [intros r []|]. intros Hz. now apply HI in Hz.
Qed.

Lemma find_single_strands_total (rots : list ndarray2) (circ : bool) :
  exists rs,
    _find_single_strands rots circ = Ok rs /\
    (forall r, In r rs -> region_unvisited (visited_flags rots) r) /\
    (unset rots 0 -> exists more rest, rs = (0%Z :: more) :: rest).
Proof.
  pose proof (unvisited_le_length (visited_flags rots)) as Hle.
  rewrite length_visited in Hle.
  destruct (find_loop_total circ (S (List.length rots)) (visited_flags rots)
              []) as (new & E & H1 & H2); [lia|].
  exists new. split; [|split; [exact H1|]].
  - unfold _find_single_strands. fold (visited_flags rots).
    unfold len in E at 1. rewrite length_visited in E. exact E.
  - intros Hu. apply H2. now apply visited_false.
Qed.

(** X19.  [_find_single_strands] returns on every strand, circular or not:
    its loops end.  Every position in a region it returns is the position
    of a base without a frame.  On a strand that is not circular, and on a
    circular strand whose first or last base has a frame, the regions are
    the maximal runs of consecutive bases without frames, each in
    increasing order, and every base without a frame is in one of them. *)
Theorem find_single_strands_regions (rots : list ndarray2) (circ : bool) :
  exists rs,
    _find_single_strands rots circ = Ok rs /\
    (forall r z, In r rs -> In z r ->
       exists k, z = Z.of_nat k /\ unset rots k) /\
    ((circ = true ->
      resolved rots 0 \/ resolved rots (List.length rots - 1)) ->
     (forall r, In r rs -> run_of (visited_flags rots) r) /\
     (forall k, unset rots k -> exists r, In r rs /\ In (Z.of_nat k) r)).
Proof.
  destruct (find_single_strands_total rots circ) as (rs & E & Hun & _).
  exists rs. split; [exact E|]. split.
  - intros r z Hr Hz. destruct (Hun r Hr z Hz) as (k & -> & Hk).
    exists k. split; [reflexivity|]. now apply visited_false.
  - intros Hc.
    destruct (find_single_strands_spec rots circ) as (rs' & E' & H1 & H2).
    { intros C. destruct (Hc C) as [H|H].
      - left. now apply hd_visited.
      - right. now apply last_visited. }
    rewrite E in E'. injection E' as <-. split; [exact H1|].
    intros k Hk. apply H2. now apply visited_false.
Qed.

Lemma find_single_strands_regions_witness :
  exists rs,
    _find_single_strands (dof_rotations sample_wrap) true = Ok rs /\
    forall r z, In r rs -> In z r ->
      exists k, z = Z.of_nat k /\ unset (dof_rotations sample_wrap) k.
Proof.
  destruct (find_single_strands_regions (dof_rotations sample_wrap) true)
    as (rs & E & H & _).
  exists rs. split; [exact E|exact H].
Defined.

Lemma fit_region_unset_anchor (dof : Dof) (more : list Z) :
  unset (dof_rotations dof) (List.length (dof_rotations dof) - 1) ->
  exists e,
    fit_region (len (dof_rotations dof)) (0%Z :: more) dof = Err e.
Proof.
  intros Hu.
  assert (Hn : (List.length (dof_rotations dof) - 1
                < List.length (dof_rotations dof))%nat).
  { apply nth_error_Some. unfold unset in Hu. congruence. }
  unfold fit_region. rewrite py_get_0. cbn [bind].
  change (0 - 1 <? 0)%Z with true. cbn iota.
  replace (len (dof_rotations dof) - 1)%Z
    with (Z.of_nat (List.length (dof_rotations dof) - 1))
    by (unfold len; lia).
  rewrite (py_get_nat _ _ _ Hu). cbn [bind].
  destruct (py_get (dof_translations dof) _) as [d_1|e]; [|eexists; reflexivity].
  cbn [bind].
  destruct (py_get (dof_is_main dof) _) as [[|]|e]; [| |eexists; reflexivity].
  - cbn [bind anchor_rotation negb].
    destruct (py_get (0%Z :: more) (-1)) as [last|e]; [|eexists; reflexivity].
    cbn [bind].
    destruct (py_get (dof_rotations dof) _) as [R_2|e]; [|eexists; reflexivity].
    cbn [bind].
    destruct (py_get (dof_translations dof) _) as [d_2|e]; [|eexists; reflexivity].
    cbn [bind].
    destruct (py_get (dof_is_main dof) _) as [main_2|e]; [|eexists; reflexivity].
    cbn [bind].
    destruct (anchor_rotation R_2 main_2) as [[R_2'|]|e]; [| |eexists; reflexivity].
    + cbn [bind]. unfold _fit_R_d. cbn [np_T option_map np_dot bind]. eexists; reflexivity.
    + cbn [bind]. unfold _fit_R_d.
      cbn [np_T option_map np_dot bind _vrrotmat2vec]. eexists; reflexivity.
  - cbn [bind anchor_rotation negb np_dot]. eexists; reflexivity.
Qed.

(** X20.  On a circular strand whose first and last base are both without
    a frame, [_generate_bulge_dof] raises an exception and leaves the arrays
    as they were: the region that starts at position 0 is anchored on the
    last base, which has no frame. *)
Theorem bulge_wrap_around_raises (dof : Dof) :
  unset (dof_rotations dof) 0 ->
  unset (dof_rotations dof) (List.length (dof_rotations dof) - 1) ->
  exists e, _generate_bulge_dof true dof = (Err e, dof).
Proof.
  intros H0 Hl.
  destruct (find_single_strands_total (dof_rotations dof) true)
    as (rs & E & _ & Hfirst).
  destruct (Hfirst H0) as (more & rest & ->).
  destruct (fit_region_unset_anchor dof more Hl) as (e & Ef).
  exists e. unfold _generate_bulge_dof. rewrite E. cbn [negb for_in].
  unfold sbind at 1. unfold process_region.
  replace (len (0%Z :: more) =? 0)%Z with false
    by (symmetry; apply Z.eqb_neq; rewrite len_cons;
        pose proof (len_nonneg more); lia).
  unfold sbind, get, lift. rewrite Ef. reflexivity.
Qed.

Lemma bulge_wrap_around_raises_witness :
  unset (dof_rotations sample_wrap) 0 /\
  unset (dof_rotations sample_wrap)
        (List.length (dof_rotations sample_wrap) - 1) /\
  exists e, _generate_bulge_dof true sample_wrap = (Err e, sample_wrap).
Proof.
  assert (H0 : unset (dof_rotations sample_wrap) 0) by reflexivity.
  assert (H1 : unset (dof_rotations sample_wrap)
                     (List.length (dof_rotations sample_wrap) - 1))
    by reflexivity.
  split; [exact H0|]. split; [exact H1|].
  exact (bulge_wrap_around_raises sample_wrap H0 H1).
Defined.

(** ** atomic_structure.py: [_generate_bulge_dof] run again *)

Lemma process_empty_regions (n : Z) (rs : list (list Z)) (dof : Dof) :
  (forall r, In r rs -> r = []) ->
  for_in rs (process_region n) dof = (Ok tt, dof).
Proof.
  induction rs as [|r rs IH]; intros H; cbn [for_in]; [reflexivity|].
  unfold sbind. rewrite (H r (or_introl eq_refl)).
  unfold process_region at 1. cbn. apply IH.
  intros r0 Hr0. apply H. now right.
Qed.

(** X21.  Interpolating a second time changes nothing: on the arrays that
    [_generate_bulge_dof] leaves (on a strand that is not circular, or on a
    circular strand whose first or last base has a frame), a second run
    ends normally and leaves every array as it is. *)
Theorem bulge_interpolation_idempotent (dof0 : Dof) (circ : bool) :
  dof_wf dof0 ->
  (circ = true ->
   resolved (dof_rotations dof0) 0 \/
   resolved (dof_rotations dof0) (List.length (dof_rotations dof0) - 1)) ->
  exists dof',
    _generate_bulge_dof circ dof0 = (Ok tt, dof') /\
    _generate_bulge_dof circ dof' = (Ok tt, dof').
Proof.
  intros Hwf Hc.
  destruct (generate_bulge_dof_spec dof0 circ Hwf Hc)
    as (dof' & E & (Lr & Lt & Lm & Hkeep & Htr) & Hiff).
  exists dof'. split; [exact E|].
  set (rots := dof_rotations dof0) in *.
  set (rots' := dof_rotations dof') in *.
  set (n := List.length rots) in *.
  destruct (find_single_strands_spec rots' circ) as (rs & EF & Hruns & _).
  { intros C. destruct (Hc C) as [(Rb & H)|(Rb & H)].
    - left. apply hd_visited. exists Rb. now apply Hkeep.
    - right. apply last_visited. rewrite Lr. exists Rb. now apply Hkeep. }
  assert (Hrun : forall r, In r rs ->
            exists a b, r = positions a (S b) /\ (a + S b <= n)%nat /\
              circ = false /\ (a = 0%nat \/ (a + S b)%nat = n)).
  { intros r Hr.
    destruct (Hruns r Hr) as (a & [|b] & Hb & Hab & -> & Hun & Hl & Hrt);
      [lia|].
    rewrite length_visited, Lr in Hab. rewrite length_visited, Lr in Hrt.
    exists a, b. split; [reflexivity|]. split; [exact Hab|].
    assert (Ha : unset rots' a) by (apply visited_false, Hun; lia).
    destruct (proj1 (Hiff a ltac:(lia)) Ha) as [Hcf Hfree].
    split; [exact Hcf|].
    destruct Hfree as [HL|HR].
    - left. destruct (Nat.eq_dec a 0) as [|Hne]; [assumption|exfalso].
      destruct Hl as [|Hl]; [lia|].
      apply visited_true in Hl as (Rb & HRb).
      assert (Hu : unset rots' (a - 1)).
      { apply Hiff; [lia|]. split; [exact Hcf|]. left.
        intros j Hj. apply HL. lia. }
      unfold unset in Hu. congruence.
    - right. destruct (Nat.eq_dec (a + S b) n) as [|Hne]; [assumption|].
      exfalso. destruct Hrt as [|Hrt]; [lia|].
      apply visited_true in Hrt as (Rb & HRb).
      assert (Hu : unset rots' (a + S b)).
      { apply Hiff; [lia|]. split; [exact Hcf|]. right.
        intros j Hj. apply HR. lia. }
      unfold unset in Hu. congruence. }
  unfold _generate_bulge_dof. fold rots'. rewrite EF. destruct circ.
  - cbn [negb]. destruct rs as [|r rs]; [reflexivity|].
    destruct (Hrun r (or_introl eq_refl)) as (_ & _ & _ & _ & C & _).
    discriminate.
  - cbn [negb]. rewrite remove_free_ends_spec.
    + apply process_empty_regions. intros r Hr.
      apply in_map_iff in Hr as (r0 & <- & Hr0).
      destruct (Hrun r0 Hr0) as (a & b & -> & Hab & _ & Hends).
      replace (len rots') with (Z.of_nat n) by (unfold len; now rewrite Lr).
      rewrite keep_anchored_positions by exact Hab.
      destruct Hends as [->| ->].
      * reflexivity.
      * rewrite Nat.eqb_refl, orb_true_r. reflexivity.
    + intros r Hr. destruct (Hrun r Hr) as (a & b & -> & _).
      rewrite positions_cons. discriminate.
Qed.

Lemma bulge_interpolation_idempotent_witness :
  dof_wf sample_bulge /\
  exists dof',
    _generate_bulge_dof false sample_bulge = (Ok tt, dof') /\
    _generate_bulge_dof false dof' = (Ok tt, dof').
Proof.
  split; [exact sample_bulge_wf|].
  exact (bulge_interpolation_idempotent sample_bulge false sample_bulge_wf
           (fun C : false = true =>
              match Bool.diff_false_true C with end)).
Defined.

(** ** atomic_structure.py: the steps of [_fit_R_d] *)

Open Scope R_scope.

Lemma vnorm_nonzero (x y z : R) :
  x <> 0 \/ y <> 0 \/ z <> 0 -> vnorm (V3 x y z) <> 0.
Proof.
  intros H. unfold vnorm. cbn [vx vy vz].
  assert (Hp : 0 < x * x + y * y + z * z) by (destruct H as [H|[H|H]]; nra).
  pose proof (sqrt_lt_R0 _ Hp). lra.
Qed.

Lemma axis_at_pi_nonzero (M : mat3) : vnorm (axis_at_pi M) <> 0.
Proof.
  unfold axis_at_pi.
  assert (Hs : forall u, ~ u < 0.01 -> sqrt u <> 0).
  { intros u Hu. assert (0 < sqrt u) by (apply sqrt_lt_R0; lra). lra. }
  destruct (Rgtb _ _ && Rgtb _ _).
  - destruct (Rltb _ _) eqn:E.
    + apply vnorm_nonzero. right. left. lra.
    + apply Rltb_false in E. apply vnorm_nonzero. left. now apply Hs.
  - destruct (Rgtb _ _).
    + destruct (Rltb _ _) eqn:E.
      * apply vnorm_nonzero. left. lra.
      * apply Rltb_false in E. apply vnorm_nonzero. right. left.
        now apply Hs.
    + destruct (Rltb _ _) eqn:E.
      * apply vnorm_nonzero. left. lra.
      * apply Rltb_false in E. apply vnorm_nonzero. right. right.
        now apply Hs.
Qed.

(** The axis that [_vrrotmat2vec] extracts from a rotation is never the
    zero vector. *)
Lemma vrrotmat2vec_axis_nonzero (M : mat3) (axis : vec3) (theta : R) :
  is_rotation M -> _vrrotmat2vec (Some M) = Ok (axis, theta) ->
  vnorm axis <> 0.
Proof.
  intros H.
  pose proof (rotation_trace_bounds _ H) as Htr.
  pose proof (acos_bound ((mtrace M - 1) / 2)) as Hb.
  unfold _vrrotmat2vec, vrrotmat2vec3. fold (mtrace M).
  rewrite math_acos_ok by lra. cbn [bind].
  set (th := acos ((mtrace M - 1) / 2)) in *.
  destruct (Rltb (Rabs th) 0.0001) eqn:E0.
  - intros [= <- _]. apply vnorm_nonzero. left. lra.
  - apply Rltb_false in E0. rewrite Rabs_pos_eq in E0 by lra.
    destruct (Rltb (Rabs (th - PI)) 0.0001) eqn:E1.
    + intros [= <- _]. apply axis_at_pi_nonzero.
    + apply Rltb_false in E1. rewrite Rabs_left1 in E1 by lra.
      intros [= <- _]. rewrite axis_general_unit; [lra|exact H|].
      fold th. lra.
Qed.

Lemma step_angle (theta : R) (n j : nat) :
  theta / IZR (Z.of_nat n + 1)
  + theta * IZR (Z.of_nat j + 1) / IZR (Z.of_nat n + 1)
  = theta * IZR (Z.of_nat (S j) + 1) / IZR (Z.of_nat n + 1).
Proof.
  assert (Hn : IZR (Z.of_nat n + 1) <> 0).
  { rewrite plus_IZR. pose proof (IZR_le 0 (Z.of_nat n) ltac:(lia)).
    simpl in *. lra. }
  replace (Z.of_nat (S j) + 1)%Z with (Z.of_nat j + 1 + 1)%Z by lia.
  rewrite (plus_IZR (Z.of_nat j + 1) 1). field. exact Hn.
Qed.

(** X22.  [_fit_R_d] goes from the first anchor towards the second in equal
    steps: every rotation it returns is a rotation matrix, the first is the
    first anchor turned by [theta / (n + 1)] about the axis, each next one
    is the one before it turned by the same step, and one more step after
    the last gives the first anchor turned by the whole angle [theta]; the
    translations advance by [(d_2 - d_1) / (n + 1)] each time. *)
Theorem fit_R_d_equal_steps (R_1 R_2 : mat3) (d_1 d_2 : vec3) (n : nat) :
  is_rotation R_1 -> is_rotation R_2 ->
  exists axis theta R_fit d_fit,
    _vrrotmat2vec (Some (mmul R_2 (mtrans R_1))) = Ok (axis, theta) /\
    _fit_R_d (Some R_1) (Some d_1) (Some R_2) (Some d_2) (Z.of_nat n)
    = Ok (R_fit, d_fit) /\
    List.length R_fit = n /\ List.length d_fit = n /\
    let step := _vrrotvec2mat axis (theta / IZR (Z.of_nat n + 1)) in
    let dstep := vdiv (vadd d_2 (vopp d_1)) (IZR (Z.of_nat n + 1)) in
    (forall j Rj, nth_error R_fit j = Some Rj ->
       is_rotation Rj /\
       Rj = mmul step (match j with
                       | O => R_1
                       | S i => nth i R_fit R_1
                       end)) /\
    mmul step (last R_fit R_1) = mmul (_vrrotvec2mat axis theta) R_1 /\
    (forall j dj, nth_error d_fit j = Some dj ->
       dj = vadd (match j with
                  | O => d_1
                  | S i => nth i d_fit d_1
                  end) dstep).
Proof.
  intros H1 H2.
  destruct (fit_R_d_spec R_1 R_2 d_1 d_2 n H1 H2)
    as (axis & theta & Rf & df & E & EF & LR & Ld & Hj).
  assert (HR : is_rotation (mmul R_2 (mtrans R_1))).
  { apply is_rotation_mmul; auto. now apply is_rotation_mtrans. }
  pose proof (vrrotmat2vec_axis_nonzero _ _ _ HR E) as Hax.
  exists axis, theta, Rf, df.
  split; [exact E|]. split; [exact EF|]. split; [exact LR|].
  split; [exact Ld|]. intros step dstep.
  assert (Hn : IZR (Z.of_nat n + 1) <> 0).
  { rewrite plus_IZR. pose proof (IZR_le 0 (Z.of_nat n) ltac:(lia)).
    simpl in *. lra. }
  assert (Hfirst : forall j, (j < n)%nat ->
            fit_rotation R_1 axis theta (Z.of_nat n) (Z.of_nat j + 1)
            = mmul step (match j with
                         | O => R_1
                         | S i => nth i Rf R_1
                         end)).
  { intros j Hlt. unfold fit_rotation, step. destruct j as [|i].
    - f_equal. f_equal. simpl. field. exact Hn.
    - destruct (Hj i ltac:(lia)) as [Hi _].
      rewrite (nth_error_nth _ _ _ Hi). unfold fit_rotation.
      rewrite <- mmul_assoc, rodrigues_angles_add by exact Hax.
      now rewrite step_angle. }
  split; [|split].
  - intros j Rj HRj.
    assert (Hlt : (j < n)%nat) by (rewrite <- LR; apply nth_error_Some;
                                   congruence).
    destruct (Hj j Hlt) as [Hr _]. rewrite Hr in HRj. injection HRj as <-.
    split; [|now apply Hfirst].
    unfold fit_rotation. apply is_rotation_mmul; [|exact H1].
    apply vrrotvec2mat_rotation. exact Hax.
  - destruct n as [|m].
    + destruct Rf; [|discriminate]. cbn [last]. unfold step. f_equal.
      f_equal. simpl. field.
    + destruct (Hj m ltac:(lia)) as [Hm _].
      assert (El : last Rf R_1
                   = fit_rotation R_1 axis theta (Z.of_nat (S m))
                                  (Z.of_nat m + 1)).
      { apply last_nth_error. rewrite LR.
        replace (S m - 1)%nat with m by lia. exact Hm. }
      rewrite El. unfold fit_rotation, step.
      rewrite <- mmul_assoc, rodrigues_angles_add by exact Hax.
      rewrite step_angle. f_equal. f_equal.
      field. exact Hn.
  - intros j dj Hdj.
    assert (Hlt : (j < n)%nat) by (rewrite <- Ld; apply nth_error_Some;
                                   congruence).
    destruct (Hj j Hlt) as [_ Hd]. rewrite Hd in Hdj. injection Hdj as <-.
    unfold fit_translation, dstep. destruct j as [|i].
    + assert (A : IZR (Z.of_nat n + 1 - (Z.of_nat 0 + 1))
                  = IZR (Z.of_nat n + 1) - 1).
      { replace (Z.of_nat n + 1 - (Z.of_nat 0 + 1))%Z
          with (Z.of_nat n + 1 - 1)%Z by lia.
        now rewrite minus_IZR. }
      assert (B : IZR (Z.of_nat 0 + 1) = 1) by reflexivity.
      rewrite A, B. remember (IZR (Z.of_nat n + 1)) as N eqn:EN. clear EN.
      destruct d_1, d_2. unfold vdiv, vadd, vscale, vopp. cbn [vx vy vz].
      f_equal; field; exact Hn.
    + destruct (Hj i ltac:(lia)) as [_ Hi].
      rewrite (nth_error_nth _ _ _ Hi). unfold fit_translation.
      assert (A : IZR (Z.of_nat n + 1 - (Z.of_nat (S i) + 1))
                  = IZR (Z.of_nat n + 1 - (Z.of_nat i + 1)) - 1).
      { replace (Z.of_nat n + 1 - (Z.of_nat (S i) + 1))%Z
          with (Z.of_nat n + 1 - (Z.of_nat i + 1) - 1)%Z by lia.
        now rewrite (minus_IZR _ 1). }
      assert (B : IZR (Z.of_nat (S i) + 1) = IZR (Z.of_nat i + 1) + 1).
      { replace (Z.of_nat (S i) + 1)%Z with (Z.of_nat i + 1 + 1)%Z by lia.
        now rewrite (plus_IZR _ 1). }
      rewrite A, B.
      remember (IZR (Z.of_nat n + 1)) as N eqn:EN. clear EN.
      remember (IZR (Z.of_nat i + 1)) as P eqn:EP. clear EP.
      remember (IZR (Z.of_nat n + 1 - (Z.of_nat i + 1))) as Q eqn:EQ.
      clear EQ.
      destruct d_1, d_2. unfold vdiv, vadd, vscale, vopp. cbn [vx vy vz].
      f_equal; field; exact Hn.
Qed.

Lemma fit_R_d_equal_steps_witness :
  is_rotation I3 /\
  exists axis theta R_fit d_fit,
    _vrrotmat2vec (Some (mmul I3 (mtrans I3))) = Ok (axis, theta) /\
    _fit_R_d (Some I3) (Some (V3 0 0 0)) (Some I3) (Some (V3 3 0 0))
             (Z.of_nat 2)
    = Ok (R_fit, d_fit) /\
    List.length R_fit = 2%nat.
Proof.
  split; [exact is_rotation_I3|].
  destruct (fit_R_d_equal_steps I3 I3 (V3 0 0 0) (V3 3 0 0) 2
              is_rotation_I3 is_rotation_I3)
    as (axis & theta & Rf & df & E & EF & LR & _).
  exists axis, theta, Rf, df. split; [exact E|]. split; [exact EF|exact LR].
Defined.

Close Scope R_scope.

(** ** atomic_structure.py: what [generate_structure] returns and keeps *)

Section KeepsStrands.

Variable K : list (DnaStrand * Z * list DnaBase * bool * bool * string).

Lemma kstr_sbind {A B : Type} (m : M AtomicStructure A)
    (k : A -> M AtomicStructure B) :
  keeps_strands K m -> (forall a, keeps_strands K (k a)) ->
  keeps_strands K (sbind m k).
Proof.
  intros Hm Hk s Hs. unfold sbind. specialize (Hm s Hs).
  destruct (m s) as [[a|e] s']; simpl in *; auto. now apply Hk.
Qed.

Lemma kstr_get_bind {B : Type} (k : AtomicStructure -> M AtomicStructure B) :
  (forall a, map strand_identity (strands a) = K -> keeps_strands K (k a)) ->
  keeps_strands K (sbind get k).
Proof. intros Hk s Hs. unfold sbind, get. now apply Hk. Qed.

Lemma kstr_lift {A : Type} (r : Res A) : keeps_strands K (lift r).
Proof. intros s Hs. exact Hs. Qed.

Lemma kstr_ret {A : Type} (a : A) : keeps_strands K (ret a).
Proof. intros s Hs. exact Hs. Qed.

Lemma kstr_put (s' : AtomicStructure) :
  map strand_identity (strands s') = K -> keeps_strands K (put s').
Proof. intros H s _. exact H. Qed.

Lemma kstr_for_in {X : Type} (xs : list X)
    (body : X -> M AtomicStructure unit) :
  (forall x, keeps_strands K (body x)) -> keeps_strands K (for_in xs body).
Proof.
  intros Hb. induction xs as [|x xs IH]; simpl.
  - apply kstr_ret.
  - apply kstr_sbind; auto.
Qed.

Lemma map_set_nth_same {A B : Type} (f : A -> B) (l : list A) (k : nat)
    (x y : A) :
  nth_error l k = Some y -> f x = f y -> map f (set_nth l k x) = map f l.
Proof.
  revert k. induction l as [|h t IH]; intros [|k]; simpl; try discriminate.
  - intros [= ->] E. now rewrite E.
  - intros H E. now rewrite (IH k H E).
Qed.

Lemma kstr_write (self : AtomicStructure) (sidx : Z)
    (old new : AtomicStructureStrand) (l : list AtomicStructureStrand) :
  map strand_identity (strands self) = K ->
  py_get (strands self) sidx = Ok old ->
  strand_identity new = strand_identity old ->
  py_set (strands self) sidx new = Ok l ->
  map strand_identity l = K.
Proof.
  intros HK Hg Hid Hs.
  apply py_get_inv in Hg as (k & Hk & Hn).
  rewrite (py_set_index _ _ _ _ Hk) in Hs. injection Hs as <-.
  rewrite (map_set_nth_same strand_identity _ _ _ _ Hn Hid). exact HK.
Qed.

Lemma kstr_update_strand (sidx : Z)
    (f : AtomicStructureStrand -> Res AtomicStructureStrand) :
  (forall s s', f s = Ok s' -> strand_identity s' = strand_identity s) ->
  keeps_strands K (update_strand sidx f).
Proof.
  intros Hf s Hs. unfold update_strand, sbind, get, lift, put.
  destruct (py_get (strands s) sidx) as [old|e] eqn:Eg; [|exact Hs].
  destruct (f old) as [new|e] eqn:Ef; [|exact Hs].
  destruct (py_set (strands s) sidx new) as [l|e] eqn:Es; [|exact Hs].
  cbn [snd set_strands strands].
  exact (kstr_write s sidx old new l Hs Eg (Hf _ _ Ef) Es).
Qed.

Lemma kstr_set_paired_base (i base_id : Z) (main : bool) :
  keeps_strands K (set_paired_base i base_id main).
Proof.
  unfold set_paired_base. apply kstr_get_bind. intros a Ha.
  repeat first
    [ apply kstr_update_strand;
      intros s s' H;
      match type of H with
      | bind ?m _ = _ => destruct m; [|discriminate]
      end; cbn [bind] in H; injection H as <-; reflexivity
    | apply kstr_sbind;
      [first [apply kstr_lift
             |apply kstr_update_strand;
              intros s s' H;
              match type of H with
              | bind ?m _ = _ => destruct m; [|discriminate]
              end; cbn [bind] in H; injection H as <-; reflexivity]|];
      intros ? ].
Qed.

Lemma kstr_set_strand_data (i : Z) : keeps_strands K (set_strand_data i).
Proof.
  unfold set_strand_data. apply kstr_get_bind. intros a Ha.
  apply kstr_sbind; [apply kstr_lift|]. intros ids.
  apply kstr_sbind; [apply kstr_set_paired_base|]. intros _.
  apply kstr_set_paired_base.
Qed.

Lemma fill_seq_identity (base_conn : list DnaBase) (i : Z)
    (s s' : AtomicStructureStrand) :
  fill_seq base_conn i s = Ok s' -> strand_identity s' = strand_identity s.
Proof.
  unfold fill_seq.
  destruct (py_get (strand_seq s) i) as [letter|e]; [|discriminate].
  cbn [bind]. destruct (String.eqb letter "N").
  - destruct (py_get (tour s) i) as [entry|e]; [|discriminate]. cbn [bind].
    destruct (py_get base_conn _) as [base|e]; [|discriminate]. cbn [bind].
    destruct (py_set _ _ _) as [v|e]; [|discriminate]. cbn [bind].
    now intros [= <-].
  - now intros [= <-].
Qed.

Lemma kstr_create_bulges (k : Z) : keeps_strands K (create_bulges k).
Proof.
  unfold create_bulges. apply kstr_get_bind. intros a Ha s Hs.
  unfold sbind at 1. unfold lift at 1.
  destruct (py_get (strands a) k) as [strand|e] eqn:Eg; [|exact Hs].
  destruct (_generate_bulge_dof _ _) as [r dof].
  unfold sbind at 1. unfold lift at 1.
  destruct (py_set (strands a) k _) as [l|e] eqn:Es; [|exact Hs].
  assert (Hl : map strand_identity l = K).
  { exact (kstr_write a k strand
             (set_is_main
                (set_translations (set_rotations strand (dof_rotations dof))
                                  (dof_translations dof))
                (dof_is_main dof)) l Ha Eg eq_refl Es). }
  unfold sbind at 1. unfold put at 1.
  unfold sbind at 1. unfold lift at 1.
  destruct r as [[]|e]; [|exact Hl].
  apply kstr_for_in; [|exact Hl].
  intros i. apply kstr_update_strand. apply fill_seq_identity.
Qed.

Lemma kstr_convert_base_node (i : Z) : keeps_strands K (convert_base_node i).
Proof.
  unfold convert_base_node. apply kstr_get_bind. intros a Ha.
  apply kstr_sbind; [apply kstr_lift|]. intros v.
  apply kstr_sbind; [apply kstr_lift|]. intros l.
  apply kstr_put. exact Ha.
Qed.

Lemma kstr_reverse_triad (i : Z) : keeps_strands K (reverse_triad i).
Proof.
  unfold reverse_triad. apply kstr_get_bind. intros a Ha.
  apply kstr_sbind; [apply kstr_lift|]. intros v.
  apply kstr_sbind; [apply kstr_lift|]. intros l.
  apply kstr_put. exact Ha.
Qed.

Lemma kstr_generate_structure (pdb : string -> Res (list Atom)) :
  keeps_strands K (generate_structure pdb).
Proof.
  unfold generate_structure, init_frames.
  apply kstr_sbind.
  { apply kstr_get_bind. intros a Ha.
    apply kstr_sbind.
    { apply kstr_for_in. intros i. apply kstr_convert_base_node. }
    intros _. apply kstr_sbind.
    { apply kstr_for_in. intros i. apply kstr_reverse_triad. }
    intros _. apply kstr_for_in. intros i. apply kstr_set_strand_data. }
  intros _. apply kstr_get_bind. intros a Ha.
  apply kstr_sbind.
  { apply kstr_for_in. intros i. apply kstr_create_bulges. }
  intros _. apply kstr_get_bind. intros b Hb.
  destruct (_generate_atoms _ _ _ _) as [r log].
  apply kstr_sbind; [apply kstr_put; exact Hb|]. intros _.
  apply kstr_sbind; [apply kstr_lift|]. intros mols.
  apply kstr_get_bind. intros c Hc.
  apply kstr_sbind; [apply kstr_put; exact Hc|]. intros _.
  apply kstr_ret.
Qed.

End KeepsStrands.

Lemma generate_structure_inv (pdb : string -> Res (list Atom))
    (self s' : AtomicStructure) (mols : list Molecule) :
  generate_structure pdb self = (Ok mols, s') ->
  exists s2 log,
    _generate_atoms pdb (base_connectivity (dna_structure s2)) (strands s2)
                    (logger s2) = (Ok mols, log) /\
    s' = set_molecules (set_logger s2 log) mols.
Proof.
  unfold generate_structure, sbind, get, put, ret, lift.
  destruct (init_frames self) as [[[]|e] s1]; [|discriminate].
  destruct (for_in _ _ s1) as [[[]|e] s2]; [|discriminate].
  destruct (_generate_atoms _ _ _ _) as [[r|e] log] eqn:E; [|discriminate].
  intros [= <- <-]. exists s2, log. split; [exact E|reflexivity].
Qed.

(** X23.  [generate_structure] never adds, removes or reorders strands, and
    never changes the DNA strand, identity, tour, flags or chain identifier
    of a strand, whatever the run returns.  When it returns, it returns the
    molecules it stored in the object: one for each strand, in the order of
    the strands, each as the assembler makes it of its strand, with atoms
    numbered 1, 2, 3, ... across the molecules. *)
Theorem generate_structure_result (pdb : string -> Res (list Atom))
    (self : AtomicStructure) :
  map strand_identity (strands (snd (generate_structure pdb self)))
  = map strand_identity (strands self) /\
  forall mols s',
    generate_structure pdb self = (Ok mols, s') ->
    molecules s' = mols /\
    Forall2 molecule_of (strands s') mols /\
    map mol_id mols = map strand_id (strands self) /\
    map atom_id (flat_map atoms mols)
    = map Z.of_nat (seq 1 (List.length (flat_map atoms mols))).
Proof.
  pose proof (kstr_generate_structure (map strand_identity (strands self))
                pdb self eq_refl) as HK.
  split; [exact HK|]. intros mols s' E. rewrite E in HK. cbn [snd] in HK.
  apply generate_structure_inv in E as (s2 & log & E & ->).
  cbn [set_molecules set_logger molecules strands] in *.
  split; [reflexivity|].
  assert (HF : Forall2 molecule_of (strands s2) mols /\
               ids_from 1 (flat_map atoms mols)).
  { revert E. unfold _generate_atoms, sbind, lift.
    destruct (_read_template pdb _) as [AT|e]; [|discriminate].
    destruct (_read_template pdb _) as [GC|e]; [|discriminate].
    destruct (_read_template pdb _) as [CG|e]; [|discriminate].
    destruct (_read_template pdb _) as [TA|e]; [|discriminate].
    intros E. split.
    - apply generate_atoms_loop_molecules in E as ((new & -> & H) & _).
      exact H.
    - apply generate_atoms_loop_ids in E; auto. reflexivity. }
  destruct HF as [HF Hids]. split; [exact HF|]. split.
  - assert (G : forall ss ms, Forall2 molecule_of ss ms ->
                map mol_id ms = map strand_id ss).
    { clear. induction 1 as [|s m ss ms (H & _) _ IH]; simpl; [reflexivity|].
      now rewrite H, IH. }
    rewrite (G _ _ HF).
    assert (G2 : forall l1 l2 : list AtomicStructureStrand,
               map strand_identity l1 = map strand_identity l2 ->
               map strand_id l1 = map strand_id l2).
    { clear. induction l1 as [|a l1 IH]; intros [|b l2]; simpl;
        try discriminate; [reflexivity|].
      intros [= _ H _ _ _ _ Hr]. rewrite H. f_equal. now apply IH. }
    apply G2. exact HK.
  - unfold ids_from in Hids. rewrite Hids.
    rewrite (map_seq_offset _ 1). apply map_ext. intros k. lia.
Qed.

Lemma generate_structure_result_witness :
  map strand_identity
      (strands (snd (generate_structure sample_pdb sample_self)))
  = map strand_identity (strands sample_self).
Proof.
  exact (proj1 (generate_structure_result sample_pdb sample_self)).
Defined.

(** ** atomic_structure.py: the letters of the sequence *)

Lemma upper_ascii_idempotent (c : ascii) :
  upper_ascii (upper_ascii c) = upper_ascii c.
Proof.
  unfold upper_ascii.
  destruct ((97 <=? nat_of_ascii c)%nat && (nat_of_ascii c <=? 122)%nat)
    eqn:E.
  - apply andb_prop in E as [H1 H2].
    apply Nat.leb_le in H1. apply Nat.leb_le in H2.
    rewrite nat_ascii_embedding by lia.
    replace ((97 <=? nat_of_ascii c - 32)%nat) with false
      by (symmetry; apply Nat.leb_gt; lia).
    reflexivity.
  - now rewrite E.
Qed.

Lemma upper_idempotent (s : string) : upper (upper s) = upper s.
Proof.
  induction s as [|c s IH]; simpl; [reflexivity|].
  now rewrite upper_ascii_idempotent, IH.
Qed.

Lemma py_get_map {A B : Type} (f : A -> B) (l : list A) (i : Z) :
  py_get (map f l) i
  = match py_get l i with Ok a => Ok (f a) | Err e => Err e end.
Proof.
  unfold py_get. rewrite (py_index_length (map f l) l)
    by apply length_map.
  destruct (py_index l i) as [k|e]; [|reflexivity]. cbn [bind].
  rewrite nth_error_map. now destruct (nth_error l k).
Qed.

Lemma for_in_ext {S X : Type} (xs : list X) (f g : X -> M S unit) :
  (forall x s, f x s = g x s) -> forall s, for_in xs f s = for_in xs g s.
Proof.
  intros H. induction xs as [|x xs IH]; intros s; simpl; [reflexivity|].
  unfold sbind. rewrite H. destruct (g x s) as [[[]|e] s']; auto.
Qed.

(** X24.  The atom assembler reads the letters of the sequence without
    regard to case: with every letter of [strand.seq] put in upper case,
    [_create_atoms_from_strand] returns the same molecule, the same serial
    number and the same log. *)
Theorem assembler_ignores_case (base_conn : list DnaBase)
    (strand : AtomicStructureStrand) (fwd rev : dict (list Atom))
    (id0 : Z) (log : list log_record) :
  _create_atoms_from_strand base_conn
    (set_seq strand (map upper (strand_seq strand))) fwd rev id0 log
  = _create_atoms_from_strand base_conn strand fwd rev id0 log.
Proof.
  unfold _create_atoms_from_strand.
  cbn [set_seq tour strand_id].
  destruct (bind _ _) as [base|e]; [|reflexivity].
  rewrite (for_in_ext _
             (create_atoms_for_base
                (set_seq strand (map upper (strand_seq strand))) fwd rev
                (_Ry 180))
             (create_atoms_for_base strand fwd rev (_Ry 180)));
    [reflexivity|].
  intros i st. unfold create_atoms_for_base, sbind, lift.
  cbn [set_seq rotations strand_seq translations is_main].
  destruct (py_get (rotations strand) i) as [[Rb|]|e]; try reflexivity.
  rewrite py_get_map.
  destruct (py_get (strand_seq strand) i) as [letter|e]; [|reflexivity].
  rewrite upper_idempotent.
  destruct (negb (dict_mem fwd (upper letter))); [reflexivity|].
  destruct (py_get (translations strand) i) as [D|e]; [|reflexivity].
  destruct (py_get (is_main strand) i) as [main|e]; [|reflexivity].
  destruct (if main then dict_item fwd (upper letter)
            else dict_item rev (upper letter)) as [tpl|e]; [|reflexivity].
  apply for_in_ext. intros a s. reflexivity.
Qed.

(** ** atomic_structure.py: the frames that [_generate_bulge_dof] writes *)

Lemma nth_error_set_nth_cases {A : Type} (l : list A) (k q : nat) (v x : A) :
  nth_error (set_nth l k v) q = Some x -> x = v \/ nth_error l q = Some x.
Proof.
  revert k q. induction l as [|h t IH]; intros [|k] [|q]; simpl; auto.
  - intros [= <-]. now left.
  - apply IH.
Qed.

Lemma py_set_inv {A : Type} (l l' : list A) (i : Z) (v : A) :
  py_set l i v = Ok l' ->
  List.length l' = List.length l /\
  forall q x, nth_error l' q = Some x -> x = v \/ nth_error l q = Some x.
Proof.
  unfold py_set. destruct (py_index l i) as [k|e]; [|discriminate].
  cbn [bind]. intros [= <-]. split; [apply length_set_nth|].
  intros q x. apply nth_error_set_nth_cases.
Qed.

Lemma py_get_In {A : Type} (l : list A) (i : Z) (a : A) :
  py_get l i = Ok a -> In a l.
Proof.
  intros H. apply py_get_inv in H as (k & _ & H).
  eapply nth_error_In; eauto.
Qed.

(** The anchor of a region, where the arrays hold rotations only. *)
Lemma anchor_rotation_inv (R_i R_i' : ndarray2) (main : bool) :
  (forall Rb, R_i = Some Rb -> is_rotation Rb) ->
  anchor_rotation R_i main = Ok R_i' ->
  forall Rb, R_i' = Some Rb -> is_rotation Rb.
Proof.
  intros H. unfold anchor_rotation. destruct main; cbn [negb].
  - intros [= <-]. exact H.
  - destruct R_i as [R|]; cbn [np_dot]; [|discriminate].
    intros [= <-] Rb [= <-].
    apply is_rotation_mmul; [now apply H|].
    apply vrrotvec2mat_rotation. rewrite vnorm_z_axis.
    apply R1_neq_R0.
Qed.

(** The loop of [_fit_R_d], when it ends normally: the entries it has
    gone through are rotations. *)
Lemma fit_loop_rotations (R_1 : mat3) (d_1 d_2 : ndarray1) (axis : vec3)
    (theta : R) (n : Z) :
  is_rotation R_1 -> vnorm axis <> 0%R ->
  forall (m k : nat) (Rf Rf' : list mat3) (df df' : list vec3),
    fold_res (map Z.of_nat (seq k m))
             (fit_body (Some R_1) d_1 d_2 axis theta n) (Rf, df)
    = Ok (Rf', df') ->
    (forall j R, (j < k)%nat -> nth_error Rf j = Some R -> is_rotation R) ->
    List.length Rf' = List.length Rf /\
    (forall j R, (j < k + m)%nat -> nth_error Rf' j = Some R ->
                 is_rotation R).
Proof.
  intros H1 Hax. induction m as [|m IH]; intros k Rf Rf' df df';
    cbn [seq map fold_res].
  - intros [= <- <-] H. split; [reflexivity|].
    intros j R Hj. apply H. lia.
  - unfold fit_body at 1. cbn [np_dot bind fst snd].
    destruct d_1 as [d1|]; [|discriminate].
    destruct d_2 as [d2|]; [|discriminate].
    destruct (py_set Rf (Z.of_nat k) _) as [Rf1|e] eqn:ER; [|discriminate].
    cbn [bind].
    destruct (py_set df (Z.of_nat k) _) as [df1|e] eqn:Ed; [|discriminate].
    cbn [bind]. intros E H.
    pose proof ER as ER'. unfold py_set in ER'.
    destruct (py_index Rf (Z.of_nat k)) as [k'|e] eqn:EI; [|discriminate].
    cbn [bind] in ER'. injection ER' as <-.
    assert (k' = k) by (apply py_index_nonneg in EI; lia). subst k'.
    apply py_index_bound in EI.
    apply IH in E as [L Hr].
    + split; [now rewrite L, length_set_nth|].
      intros j R Hj. apply Hr. lia.
    + intros j R Hj HR. destruct (Nat.eq_dec j k) as [->|Hne].
      * rewrite nth_error_set_nth_eq in HR by exact EI.
        injection HR as <-.
        apply is_rotation_mmul; [|exact H1].
        apply vrrotvec2mat_rotation. exact Hax.
      * rewrite nth_error_set_nth_neq in HR by auto.
        apply (H j R); [lia|exact HR].
Qed.

Lemma fit_R_d_rotations (R_1 R_2 : ndarray2) (d_1 d_2 : ndarray1)
    (r : list Z) (Rf : list mat3) (df : list vec3) :
  (forall Rb, R_1 = Some Rb -> is_rotation Rb) ->
  (forall Rb, R_2 = Some Rb -> is_rotation Rb) ->
  _fit_R_d R_1 d_1 R_2 d_2 (len r) = Ok (Rf, df) ->
  Forall is_rotation Rf.
Proof.
  intros H1 H2. unfold _fit_R_d.
  destruct R_1 as [R1|], R_2 as [R2|];
    cbn [np_T option_map np_dot bind _vrrotmat2vec]; try discriminate.
  specialize (H1 R1 eq_refl). specialize (H2 R2 eq_refl).
  destruct (vrrotmat2vec3 R1) as [[axis1 theta1]|e]; [|discriminate].
  cbn [bind].
  destruct (vrrotmat2vec3 R2) as [[axis2 theta2]|e]; [|discriminate].
  cbn [bind].
  destruct (vrrotmat2vec3 (mmul R2 (mtrans R1))) as [[axis theta]|e] eqn:E;
    [|discriminate].
  cbn [bind]. rewrite range_len. intros EL.
  assert (Hax : vnorm axis <> 0%R).
  { apply (vrrotmat2vec_axis_nonzero (mmul R2 (mtrans R1)) axis theta).
    - apply is_rotation_mmul; auto. now apply is_rotation_mtrans.
    - exact E. }
  apply fit_loop_rotations in EL as [L Hr]; auto.
  - apply Forall_forall. intros R HR.
    apply In_nth_error in HR as (j & Hj).
    apply (Hr j R); [|exact Hj].
    assert (j < List.length Rf)%nat by (apply nth_error_Some; congruence).
    unfold len in *. rewrite L, repeat_length, Nat2Z.id in H. lia.
  - intros j R Hj. lia.
Qed.

(** One step through a chain of [bind]s that ended normally. *)
Tactic Notation "bind_ok" ident(x) ident(E) :=
  match goal with
  | |- bind ?m _ = _ -> _ =>
      destruct m as [x|] eqn:E; [cbn [bind]|discriminate]
  end.

Lemma fit_region_rotations (n : Z) (r : list Z) (dof : Dof)
    (Rf : list mat3) (df : list vec3) :
  frames_are_rotations dof ->
  fit_region n r dof = Ok (Rf, df) ->
  Forall is_rotation Rf.
Proof.
  intros HI. unfold fit_region.
  bind_ok pos0 E0. bind_ok R_1 E1. bind_ok d_1 Ed1. bind_ok main_1 Em1.
  bind_ok R_1' A1. bind_ok pos1 El. bind_ok R_2 E2. bind_ok d_2 Ed2.
  bind_ok main_2 Em2. bind_ok R_2' A2.
  apply fit_R_d_rotations.
  - apply (anchor_rotation_inv R_1 R_1' main_1); [|exact A1].
    intros Rb ->. apply py_get_inv in E1 as (k & _ & Hk).
    exact (HI k Rb Hk).
  - apply (anchor_rotation_inv R_2 R_2' main_2); [|exact A2].
    intros Rb ->. apply py_get_inv in E2 as (k & _ & Hk).
    exact (HI k Rb Hk).
Qed.

Lemma update_region_keeps (dof0 : Dof) (r : list Z) (Rf : list mat3)
    (df : list vec3) (j : Z) (dof dof' : Dof) :
  Forall is_rotation Rf ->
  update_region r Rf df j dof = (Ok tt, dof') ->
  frames_are_rotations dof /\ same_lengths dof0 dof ->
  frames_are_rotations dof' /\ same_lengths dof0 dof'.
Proof.
  intros HRf. unfold update_region, sbind, lift, get, put.
  destruct (py_get r j) as [k|e]; [|discriminate].
  destruct (py_set (dof_is_main dof) k true) as [im|e] eqn:Em;
    [|discriminate].
  cbn [dof_rotations dof_translations dof_is_main].
  destruct (py_get Rf j) as [Rj|e] eqn:ER; [|discriminate].
  destruct (py_set (dof_rotations dof) k (Some Rj)) as [rots|e] eqn:Er;
    [|discriminate].
  destruct (py_get df j) as [dj|e]; [|discriminate].
  destruct (py_set (dof_translations dof) k (Some dj)) as [tr|e] eqn:Et;
    [|discriminate].
  intros [= <-] [HI (Lr & Lt & Lm)].
  apply py_set_inv in Em as [Lm' _]. apply py_set_inv in Er as [Lr' Hr].
  apply py_set_inv in Et as [Lt' _].
  split.
  - intros q Rb Hq. cbn [dof_rotations] in Hq.
    destruct (Hr q _ Hq) as [[= ->]|Hold].
    + rewrite Forall_forall in HRf. apply HRf. eapply py_get_In; eauto.
    + exact (HI q Rb Hold).
  - unfold same_lengths. cbn [dof_rotations dof_translations dof_is_main].
    repeat split; congruence.
Qed.

Lemma process_region_keeps (dof0 : Dof) (n : Z) (r : list Z)
    (dof dof' : Dof) :
  process_region n r dof = (Ok tt, dof') ->
  frames_are_rotations dof /\ same_lengths dof0 dof ->
  frames_are_rotations dof' /\ same_lengths dof0 dof'.
Proof.
  unfold process_region. destruct (len r =? 0)%Z.
  - unfold ret. now intros [= <-].
  - unfold sbind, get, lift.
    destruct (fit_region n r dof) as [[Rf df]|e] eqn:EF; [|discriminate].
    cbn [fst snd]. intros E H.
    pose proof (fit_region_rotations n r dof Rf df (proj1 H) EF) as HRf.
    eapply (for_in_invariant
              (fun d => frames_are_rotations d /\ same_lengths dof0 d));
      [|exact H|exact E].
    intros x s s' _ Hs Hx.
    exact (update_region_keeps dof0 r Rf df x s s' HRf Hx Hs).
Qed.

(** X25.  When [_generate_bulge_dof] ends normally on arrays whose frames
    are rotation matrices, every frame of the arrays it leaves is a
    rotation matrix, those it has written included, and the three arrays
    are as long as they were. *)
Theorem bulge_frames_are_rotations (dof dof' : Dof) (circ : bool) :
  frames_are_rotations dof ->
  _generate_bulge_dof circ dof = (Ok tt, dof') ->
  frames_are_rotations dof' /\ same_lengths dof dof'.
Proof.
  intros HI. unfold _generate_bulge_dof.
  destruct (_find_single_strands _ _) as [rs|e]; [|discriminate].
  destruct (if negb circ then _ else _) as [rs'|e]; [|discriminate].
  intros E.
  assert (H0 : frames_are_rotations dof /\ same_lengths dof dof).
  { split; [exact HI|]. repeat split. }
  eapply (for_in_invariant
            (fun d => frames_are_rotations d /\ same_lengths dof d));
    [|exact H0|exact E].
  intros r s1 s2 _ Hs Hr.
  exact (process_region_keeps dof _ r s1 s2 Hr Hs).
Qed.

Lemma bulge_frames_are_rotations_witness :
  frames_are_rotations sample_bulge /\
  exists dof',
    _generate_bulge_dof false sample_bulge = (Ok tt, dof') /\
    frames_are_rotations dof'.
Proof.
  assert (H : frames_are_rotations sample_bulge).
  { intros k Rb Hk. exact (proj1 (proj2 (proj2 sample_bulge_wf) k Rb Hk)). }
  split; [exact H|].
  destruct (generate_bulge_dof_spec sample_bulge false sample_bulge_wf)
    as (dof' & E & _); [discriminate|].
  exists dof'. split; [exact E|].
  exact (proj1 (bulge_frames_are_rotations sample_bulge dof' false H E)).
Defined.
